(** * StudyMate-CLI: session registry, query engine and shell

    A shallow embedding of [src/classes.py], [src/functions.py] and
    [main.py], and the properties of the specification proved (or refuted)
    on it.

    Modelling conventions.
    - A Python [str] is a [string]; a character is a code point below 256,
      so that [str.strip], [str.lower] and [str.isspace] are the functions
      Python computes on such text.
    - A Python [dict] is an association list in insertion order (the order
      [enumerate] walks it in); an attribute that may hold [None] is an
      [option].
    - Exceptions are values of [exn]; a method is a function from the
      program state to either an exception or a result and a new state.
      Nothing in the program catches an exception, so an exception ends the
      process.
    - [sessions.txt] is an [option string] ([None]: the file does not
      exist). Writes store the text as given; reads go through Python's
      universal-newline translation.
    - Third-party services (Chroma, the PDF loader, the similarity search and
      the chat model) are taken on their success path: the vector store is a
      finite map from collection names to the documents stored under them,
      the ranking function and the language model are parameters.
    - The text splitter is the library's [RecursiveCharacterTextSplitter]; its
      algorithm is written out, since what the chunks are depends on it. *)

From Stdlib Require Import Ascii ZArith Lia.
From Stdlib Require String.
From stdpp Require Import base option list strings gmap pretty.

(** ** Python text *)

Module Py.

Definition LF : ascii := Ascii.ascii_of_nat 10.
Definition CR : ascii := Ascii.ascii_of_nat 13.

(** The one-character string a newline is. *)
Definition nl : string := String LF "".

(** [str.isspace] on one character, for code points below 256: the
    characters TAB, LF, VT, FF, CR, FS, GS, RS, US, SPACE, NEL and NBSP. *)
Definition isspace (c : ascii) : bool :=
  let n := Ascii.nat_of_ascii c in
  ((9 <=? n) && (n <=? 13)) || ((28 <=? n) && (n <=? 32))
  || (n =? 133) || (n =? 160).

(** [str.lower] on one character, for code points below 256. *)
Definition lower_char (c : ascii) : ascii :=
  let n := Ascii.nat_of_ascii c in
  if ((65 <=? n) && (n <=? 90))
     || ((192 <=? n) && (n <=? 214)) || ((216 <=? n) && (n <=? 222))
  then Ascii.ascii_of_nat (n + 32) else c.

Fixpoint lower (s : string) : string :=
  match s with
  | EmptyString => EmptyString
  | String c s' => String (lower_char c) (lower s')
  end.

(** [bool(s)] for a string: the empty string is falsy. *)
Definition truthy (s : string) : bool :=
  match s with EmptyString => false | String _ _ => true end.

Fixpoint lstrip (s : string) : string :=
  match s with
  | EmptyString => EmptyString
  | String c s' => if isspace c then lstrip s' else s
  end.

Fixpoint rstrip (s : string) : string :=
  match s with
  | EmptyString => EmptyString
  | String c s' =>
      match rstrip s' with
      | EmptyString => if isspace c then EmptyString else String c EmptyString
      | r => String c r
      end
  end.

(** [s.strip()] *)
Definition strip (s : string) : string := rstrip (lstrip s).

(** [sep.join(l)] *)
Fixpoint join (sep : string) (l : list string) : string :=
  match l with
  | [] => ""
  | [x] => x
  | x :: xs => x +:+ sep +:+ join sep xs
  end.

(** Reading in text mode with [newline=None]: the sequences CR LF and a
    lone CR both arrive as LF. *)
Fixpoint universal_newlines (s : string) : string :=
  match s with
  | EmptyString => EmptyString
  | String c s' =>
      if decide (c = CR) then
        match s' with
        | String c' _ =>
            if decide (c' = LF) then universal_newlines s'
            else String LF (universal_newlines s')
        | EmptyString => String LF EmptyString
        end
      else String c (universal_newlines s')
  end.

(** Iterating over a text: the lines, each with its terminating LF when it
    has one; the empty text has no line. *)
Fixpoint splitlines (s : string) : list string :=
  match s with
  | EmptyString => []
  | String c s' =>
      if decide (c = LF) then nl :: splitlines s'
      else match splitlines s' with
           | [] => [String c EmptyString]
           | l :: ls => String c l :: ls
           end
  end.

(** [for line in f] on a file opened with [open(path, "r")]. *)
Definition readlines (raw : string) : list string :=
  splitlines (universal_newlines raw).

(** Does character [c] occur in [s]? *)
Fixpoint occurs (c : ascii) (s : string) : bool :=
  match s with
  | EmptyString => false
  | String c' s' => bool_decide (c' = c) || occurs c s'
  end.

(** The last character of [s], when it has one. *)
Fixpoint last_char (s : string) : option ascii :=
  match s with
  | EmptyString => None
  | String c s' =>
      match last_char s' with
      | None => Some c
      | Some c' => Some c'
      end
  end.

(** A text that is empty or ends with a newline: one a further line can be
    appended to. *)
Definition newline_terminated (s : string) : bool :=
  match last_char s with
  | None => true
  | Some c => bool_decide (c = LF)
  end.

(** A name that survives a trip through the registry file: not empty, no
    white space at either end, no line break inside. *)
Definition clean_name (name : string) : bool :=
  truthy name && bool_decide (strip name = name)
  && negb (occurs LF name) && negb (occurs CR name).

(** Exceptions the program can raise. *)
Inductive exn : Type :=
| KeyError (key : string)
| TypeError (msg : string)
| ValueError (msg : string)
| IndexError (msg : string)
| EOFError.

(** A dictionary keyed by strings, in insertion order. *)
Abbreviation dict V := (list (string * V)) (only parsing).

Section Dict.
Context {V : Type}.

(** [k in d] *)
Fixpoint dict_mem (k : string) (d : dict V) : bool :=
  match d with
  | [] => false
  | (k', _) :: d' => bool_decide (k' = k) || dict_mem k d'
  end.

(** [d.get(k)]: the value, or [None] *)
Fixpoint dict_get (k : string) (d : dict V) : option V :=
  match d with
  | [] => None
  | (k', v) :: d' => if decide (k' = k) then Some v else dict_get k d'
  end.

(** [d[k] = v]: an existing key keeps its place, a new one goes last. *)
Fixpoint dict_set (k : string) (v : V) (d : dict V) : dict V :=
  match d with
  | [] => [(k, v)]
  | (k', v') :: d' =>
      if decide (k' = k) then (k', v) :: d' else (k', v') :: dict_set k v d'
  end.

(** [del d[k]], on a dictionary that has the key: a key occurs once in a
    Python dictionary, so what goes is every pair that carries it. *)
Definition dict_del (k : string) (d : dict V) : dict V :=
  filter (fun p => p.1 <> k) d.

(** The keys, in iteration order. *)
Definition dict_keys (d : dict V) : list string := d.*1.
End Dict.

End Py.

(** ** Results and the state-and-exception monad *)

(** The outcome of a call: a value, or a raised exception. *)
Inductive res (A : Type) : Type :=
| Ok (a : A)
| Raise (e : Py.exn).
Arguments Ok {A} a.
Arguments Raise {A} e.

Definition res_bind {A B : Type} (r : res A) (k : A -> res B) : res B :=
  match r with
  | Ok a => k a
  | Raise e => Raise e
  end.

Declare Scope res_scope.
Delimit Scope res_scope with res.
Notation "x <-? c1 ;; c2" := (res_bind c1 (fun x => c2))
  (at level 100, c1 at next level, right associativity) : res_scope.

(** ** Documents (langchain_core) *)

(** A piece of text with where it came from (source file, page). *)
Record Document : Type := {
  page_content : string;
  metadata : list (string * string)
}.

(** ** The text splitter (langchain_text_splitters)

    The repository configures a [RecursiveCharacterTextSplitter] and calls its
    [split_documents]. The splitter is the third-party library's; what follows
    is its algorithm for the options the repository leaves at their defaults:
    literal separators ([is_separator_regex=False]), [keep_separator=True],
    [strip_whitespace=True], [length_function=len], [add_start_index=False]. *)

Module RecursiveCharacterTextSplitter.
Import Py.

Record t : Type := {
  chunk_size : Z;
  chunk_overlap : Z;
  separators : list string
}.

Definition len (s : string) : Z := Z.of_nat (String.length s).

(** Is [p] a prefix of [s]? *)
Fixpoint is_prefix (p s : string) : bool :=
  match p, s with
  | EmptyString, _ => true
  | String a p', String b s' => bool_decide (a = b) && is_prefix p' s'
  | String _ _, EmptyString => false
  end.

(** [re.search(re.escape(sep), text)]: does [sep] occur in [text]? *)
Fixpoint search (sep text : string) : bool :=
  is_prefix sep text ||
  match text with
  | EmptyString => false
  | String _ text' => search sep text'
  end.

(** [text.split(sep)] for a non-empty [sep]: the pieces between the
    leftmost non-overlapping occurrences of [sep]. [skip] counts the
    characters of a matched separator still to be passed over. *)
Fixpoint split_go (sep : string) (skip : nat) (text : string) : list string :=
  match text with
  | EmptyString => [EmptyString]
  | String c text' =>
      match skip with
      | S k => split_go sep k text'
      | O =>
          if is_prefix sep text
          then EmptyString :: split_go sep (Nat.pred (String.length sep)) text'
          else match split_go sep 0 text' with
               | [] => [String c EmptyString]
               | p :: ps => String c p :: ps
               end
      end
  end.

(** [list(text)] *)
Fixpoint chars (text : string) : list string :=
  match text with
  | EmptyString => []
  | String c text' => String c EmptyString :: chars text'
  end.

(** [[_splits[0]] + [_splits[i] + _splits[i + 1] for i in range(1, len(_splits), 2)]],
    where [_splits] alternates the pieces and the separators between them:
    each separator goes to the start of the piece that follows it. *)
Definition keep_at_start (separator : string) (_splits : list string)
  : list string :=
  match _splits with
  | [] => []
  | t0 :: ts => t0 :: map (fun p => separator +:+ p) ts
  end.

(** [_split_text_with_regex(text, re.escape(separator), keep_separator=True)]:
    the pieces with their separators, the empty ones dropped. *)
Definition _split_text_with_regex (text separator : string) : list string :=
  let splits :=
    if truthy separator then keep_at_start separator (split_go separator 0 text)
    else chars text in
  filter (fun s => s <> EmptyString) splits.

(** [_join_docs(docs, separator)] with [strip_whitespace=True]. *)
Definition _join_docs (docs : list string) (separator : string) : option string :=
  let text := strip (join separator docs) in
  if decide (text = EmptyString) then None else Some text.

Section Merge.
Variable self : t.
Variable separator_len : Z.

(** [separator_len if b else 0] *)
Definition sep_if (b : bool) : Z := if b then separator_len else 0%Z.

(** The [while] loop of [_merge_splits]: drop pieces from the front of
    [current_doc] until what is kept fits the overlap and leaves room for
    the piece of length [_len]. *)
Fixpoint pop_front (_len : Z) (current_doc : list string) (total : Z)
  : res (list string * Z) :=
  if ((chunk_overlap self <? total)%Z
      || ((chunk_size self <?
             total + _len + sep_if ((0 <? length current_doc)%nat))%Z
          && (0 <? total)%Z))
  then match current_doc with
       | [] => Raise (IndexError "list index out of range")
       | d0 :: rest =>
           pop_front _len rest
             (total - (len d0 + sep_if ((1 <? length current_doc)%nat)))%Z
       end
  else Ok (current_doc, total).
End Merge.

(** The state of the loop of [_merge_splits]. *)
Record merge_state : Type := {
  docs : list string;
  current_doc : list string;
  total : Z
}.

(** One iteration of the [for d in splits] loop of [_merge_splits]. *)
Definition merge_step (self : t) (separator : string)
    (st : merge_state) (d : string) : res merge_state :=
  let separator_len := len separator in
  let _len := len d in
  (st' <-? (if (chunk_size self <?
                 total st + _len
                 + sep_if separator_len ((0 <? length (current_doc st))%nat))%Z
            then
              if (0 <? length (current_doc st))%nat then
                let docs' :=
                  match _join_docs (current_doc st) separator with
                  | Some doc => docs st ++ [doc]
                  | None => docs st
                  end in
                (p <-? pop_front self separator_len _len (current_doc st) (total st) ;;
                 Ok {| docs := docs'; current_doc := p.1; total := p.2 |})
              else Ok st
            else Ok st) ;;
   let current' := current_doc st' ++ [d] in
   Ok {| docs := docs st';
         current_doc := current';
         total := total st' + (_len
                    + sep_if separator_len ((1 <? length current')%nat)) |})%res%Z.

Fixpoint merge_loop (self : t) (separator : string)
    (st : merge_state) (splits : list string) : res merge_state :=
  match splits with
  | [] => Ok st
  | d :: splits' =>
      (st' <-? merge_step self separator st d ;;
       merge_loop self separator st' splits')%res
  end.

(** [_merge_splits(splits, separator)] *)
Definition _merge_splits (self : t) (splits : list string) (separator : string)
  : res (list string) :=
  (st <-? merge_loop self separator
            {| docs := []; current_doc := []; total := 0 |} splits ;;
   Ok (match _join_docs (current_doc st) separator with
       | Some doc => docs st ++ [doc]
       | None => docs st
       end))%res.

(** The state of the [for s in splits] loop of [_split_text]. *)
Record split_state : Type := {
  final_chunks : list string;
  _good_splits : list string
}.

(** Merge the pending small pieces into [final_chunks], when there are any. *)
Definition flush (self : t) (st : split_state) : res split_state :=
  match _good_splits st with
  | [] => Ok st
  | _ :: _ =>
      (merged_text <-? _merge_splits self (_good_splits st) EmptyString ;;
       Ok {| final_chunks := final_chunks st ++ merged_text;
             _good_splits := [] |})%res
  end.

(** The loop of [_split_text] over the pieces; [deeper] is the recursive
    call on the separators that remain, [None] when none remains. *)
Fixpoint split_loop (self : t) (deeper : option (string -> res (list string)))
    (st : split_state) (splits : list string) : res split_state :=
  match splits with
  | [] => Ok st
  | s :: splits' =>
      (st' <-? (if (len s <? chunk_size self)%Z then
                  Ok {| final_chunks := final_chunks st;
                        _good_splits := _good_splits st ++ [s] |}
                else
                  st1 <-? flush self st ;;
                  match deeper with
                  | None =>
                      Ok {| final_chunks := final_chunks st1 ++ [s];
                            _good_splits := _good_splits st1 |}
                  | Some rec =>
                      other_info <-? rec s ;;
                      Ok {| final_chunks := final_chunks st1 ++ other_info;
                            _good_splits := _good_splits st1 |}
                  end) ;;
       split_loop self deeper st' splits')%res
  end.

(** The body of [_split_text] once the separator is chosen. *)
Definition split_with (self : t) (separator : string)
    (deeper : option (string -> res (list string))) (text : string)
  : res (list string) :=
  (st <-? split_loop self deeper
            {| final_chunks := []; _good_splits := [] |}
            (_split_text_with_regex text separator) ;;
   st' <-? flush self st ;;
   Ok (final_chunks st'))%res.

(** [_split_text(text, separators)] for the non-empty list [s :: rest]: the
    first separator that is empty or occurs in the text is used and the ones
    after it are left for the pieces that are still too long; when none
    occurs, the last one is used and nothing is left. *)
Fixpoint _split_text (self : t) (s : string) (rest : list string)
    (text : string) {struct rest} : res (list string) :=
  if decide (s = EmptyString) then split_with self s None text
  else if search s text then
    split_with self s
      (match rest with
       | [] => None
       | s' :: rest' => Some (_split_text self s' rest')
       end) text
  else match rest with
       | [] => split_with self s None text
       | s' :: rest' => _split_text self s' rest' text
       end.

(** [split_text(text)] *)
Definition split_text (self : t) (text : string) : res (list string) :=
  match separators self with
  | [] => Raise (IndexError "list index out of range")
  | s :: rest => _split_text self s rest text
  end.

(** [create_documents] on one document: each chunk of its text, with a copy
    of its metadata. *)
Definition split_document (self : t) (doc : Document) : res (list Document) :=
  (chunks <-? split_text self (page_content doc) ;;
   Ok (map (fun chunk => {| page_content := chunk; metadata := metadata doc |})
         chunks))%res.

(** [split_documents(documents)]: the chunks of each document, in order. *)
Fixpoint split_documents (self : t) (documents : list Document)
  : res (list Document) :=
  match documents with
  | [] => Ok []
  | doc :: documents' =>
      (chunks <-? split_document self doc ;;
       others <-? split_documents self documents' ;;
       Ok (chunks ++ others))%res
  end.

End RecursiveCharacterTextSplitter.

(** ** The program state *)

(** A [Chroma] object: a handle on the collection of that name in the
    persist directory. The documents live in the store, not in the handle. *)
Record Chroma : Type := {
  collection_name : string;
  handle_persist_directory : string
}.

(** The variables [chain.invoke] fills the prompt template with. *)
Record prompt_vars : Type := {
  pv_question : string;
  pv_context : string;
  pv_session_name : string
}.

(** What the process does to the outside, in order. *)
Inductive event : Type :=
| Print (line : string)
| SimilaritySearch (collection question : string) (k : nat)
| LLMInvoke (vars : prompt_vars)
| Sleep (seconds : nat)
| ClearScreen.

(** The attributes of the [vectordb] object. *)
Record vectordb_obj : Type := {
  embedding_model_name : option string;
  persist_directory : string;
  collections : option (Py.dict Chroma);
  textsplitter : RecursiveCharacterTextSplitter.t
}.

(** The one [vectordb] object of the process ([main.db], which
    [assistant.vector_db] aliases) and the world around it. *)
Record state : Type := {
  db : vectordb_obj;
  sessions_txt : option string;
  chroma_db : gmap string (list Document);
  trace : list event
}.

(** A method: from a state to an exception, or a value and a new state. *)
Definition M (A : Type) : Type := state -> res (A * state).

Definition ret {A : Type} (a : A) : M A := fun st => Ok (a, st).

Definition bind {A B : Type} (m : M A) (k : A -> M B) : M B :=
  fun st =>
    match m st with
    | Ok (a, st') => k a st'
    | Raise e => Raise e
    end.

Definition raise {A : Type} (e : Py.exn) : M A := fun _ => Raise e.

Definition get_state : M state := fun st => Ok (st, st).

Definition lift {A : Type} (r : res A) : M A :=
  fun st => match r with Ok a => Ok (a, st) | Raise e => Raise e end.

Declare Scope M_scope.
Delimit Scope M_scope with M.
Notation "x <- c1 ;; c2" := (bind c1 (fun x => c2))
  (at level 100, c1 at next level, right associativity) : M_scope.
Notation "c1 ;; c2" := (bind c1 (fun _ => c2))
  (at level 100, right associativity) : M_scope.

Definition set_collections (c : option (Py.dict Chroma)) : M unit :=
  fun st =>
    Ok (tt, {| db := {| embedding_model_name := embedding_model_name (db st);
                        persist_directory := persist_directory (db st);
                        collections := c;
                        textsplitter := textsplitter (db st) |};
               sessions_txt := sessions_txt st;
               chroma_db := chroma_db st;
               trace := trace st |}).

Definition set_sessions_txt (f : option string) : M unit :=
  fun st =>
    Ok (tt, {| db := db st; sessions_txt := f;
               chroma_db := chroma_db st; trace := trace st |}).

Definition set_chroma_db (c : gmap string (list Document)) : M unit :=
  fun st =>
    Ok (tt, {| db := db st; sessions_txt := sessions_txt st;
               chroma_db := c; trace := trace st |}).

Definition emit (e : event) : M unit :=
  fun st =>
    Ok (tt, {| db := db st; sessions_txt := sessions_txt st;
               chroma_db := chroma_db st; trace := trace st ++ [e] |}).

(** [print(line)] *)
Definition print (line : string) : M unit := emit (Print line).

(** The third-party services the program calls and does not define. *)
Class Services : Type := {
  (** [collection.similarity_search(question, k)], on the store as it is. *)
  similarity_search :
    gmap string (list Document) -> string -> string -> nat -> list Document;
  (** [chain.invoke(vars).content]: the chat model's text for the prompt. *)
  llm_invoke : prompt_vars -> string;
  (** [PyPDFLoader(path).load()]: one document per page. *)
  pdf_load : string -> list Document
}.

(** What is outside the [vectordb] object when it is constructed. *)
Record world : Type := {
  w_sessions_txt : option string;
  w_chroma_db : gmap string (list Document);
  w_trace : list event
}.

(** [for x in l: body(x)] *)
Fixpoint for_each {A : Type} (l : list A) (body : A -> M unit) : M unit :=
  match l with
  | [] => ret tt
  | x :: l' => (body x ;; for_each l' body)%M
  end.

(** ** classes.py: [vectordb] *)

Module vectordb.
Import Py.

(** [Chroma(collection_name=name, embedding_function=..., persist_directory=dir)]:
    attaches to the collection of that name, creating it empty when the store
    has none. *)
Definition get_or_create (name : string) (store : gmap string (list Document))
  : gmap string (list Document) :=
  match store !! name with
  | Some _ => store
  | None => <[name := []]> store
  end.

Definition Chroma_new (name dir : string) : M Chroma :=
  (st <- get_state ;;
   set_chroma_db (get_or_create name (chroma_db st)) ;;
   ret {| collection_name := name; handle_persist_directory := dir |})%M.

(** [collection.delete_collection()] *)
Definition delete_collection (collection : Chroma) : M unit :=
  (st <- get_state ;;
   set_chroma_db (delete (collection_name collection) (chroma_db st)))%M.

(** [collection.add_documents(chunks)] *)
Definition add_documents (collection : Chroma) (chunks : list Document) : M unit :=
  (st <- get_state ;;
   set_chroma_db (<[collection_name collection :=
                     default [] (chroma_db st !! collection_name collection) ++ chunks]>
                    (chroma_db st)))%M.

(** [session_name in self.collections] *)
Definition collections_contains (session_name : string) : M bool :=
  (st <- get_state ;;
   match collections (db st) with
   | None => raise (TypeError "argument of type 'NoneType' is not iterable")
   | Some d => ret (dict_mem session_name d)
   end)%M.

(** [self.collections[session_name]] *)
Definition collections_getitem (session_name : string) : M Chroma :=
  (st <- get_state ;;
   match collections (db st) with
   | None => raise (TypeError "'NoneType' object is not subscriptable")
   | Some d =>
       match dict_get session_name d with
       | Some collection => ret collection
       | None => raise (KeyError session_name)
       end
   end)%M.

(** [self.collections[session_name] = collection] *)
Definition collections_setitem (session_name : string) (collection : Chroma) : M unit :=
  (st <- get_state ;;
   match collections (db st) with
   | None => raise (TypeError "'NoneType' object does not support item assignment")
   | Some d => set_collections (Some (dict_set session_name collection d))
   end)%M.

(** [del self.collections[session_name]] *)
Definition collections_delitem (session_name : string) : M unit :=
  (st <- get_state ;;
   match collections (db st) with
   | None => raise (TypeError "'NoneType' object does not support item deletion")
   | Some d =>
       if dict_mem session_name d
       then set_collections (Some (dict_del session_name d))
       else raise (KeyError session_name)
   end)%M.

(** [[line.strip() for line in f if line.strip()]] *)
Definition session_names (raw : string) : list string :=
  filter (fun name => truthy name = true) (strip <$> readlines raw).

(** The text the loop [for name in names: f.write(name + "\n")] writes. *)
Fixpoint write_names (names : list string) : string :=
  match names with
  | [] => ""
  | name :: names' => name +:+ nl +:+ write_names names'
  end.

Definition load_all_sessions : M unit :=
  (st <- get_state ;;
   match sessions_txt st with
   | None => ret tt
   | Some raw =>
       for_each (session_names raw) (fun name =>
         collection <- Chroma_new name (persist_directory (db st)) ;;
         collections_setitem name collection)
   end)%M.

(** The splitter [__init__] constructs: [chunk_size=500],
    [chunk_overlap=100], [separators=["\n\n", "\n", ".", " "]]. *)
Definition splitter_config : RecursiveCharacterTextSplitter.t :=
  {| RecursiveCharacterTextSplitter.chunk_size := 500;
     RecursiveCharacterTextSplitter.chunk_overlap := 100;
     RecursiveCharacterTextSplitter.separators := [nl +:+ nl; nl; "."; " "] |}.

(** A fresh object as [__init__] sets its attributes before it loads the
    sessions. *)
Definition fresh (environ : gmap string string) (w : world) : state :=
  {| db := {| embedding_model_name := environ !! "EMBEDDING_MODEL";
              persist_directory := "./chroma_db";
              collections := Some [];
              textsplitter := splitter_config |};
     sessions_txt := w_sessions_txt w;
     chroma_db := w_chroma_db w;
     trace := w_trace w |}.

Definition __init__ (environ : gmap string string) (w : world) : res (unit * state) :=
  (load_all_sessions ;;
   print "Vector database initialized successfully.")%M (fresh environ w).

Definition _save_session_name (session_name : string) : M unit :=
  (st <- get_state ;;
   set_sessions_txt
     (Some (default "" (sessions_txt st) +:+ session_name +:+ nl)))%M.

Definition _remove_session_name (session_name : string) : M unit :=
  (st <- get_state ;;
   match sessions_txt st with
   | None => ret tt
   | Some raw =>
       let names := session_names raw in
       let names := filter (fun name => name <> session_name) names in
       set_sessions_txt (Some (write_names names))
   end)%M.

Definition create_session (session_name : string) : M bool :=
  (present <- collections_contains session_name ;;
   if present then ret false
   else
     st <- get_state ;;
     collection <- Chroma_new session_name (persist_directory (db st)) ;;
     collections_setitem session_name collection ;;
     _save_session_name session_name ;;
     ret true)%M.

(** The body of [for i, name in enumerate(self.collections)], from index [i]. *)
Fixpoint print_sessions (i : nat) (names : list string) : M unit :=
  match names with
  | [] => ret tt
  | name :: names' =>
      (print ("Session no " +:+ pretty (i + 1) +:+ ": " +:+ name) ;;
       print_sessions (S i) names')%M
  end.

Definition list_session : M unit :=
  (st <- get_state ;;
   match collections (db st) with
   | None => print "Session List is empty. First add some sessions."
   | Some d =>
       print "List of all Session Names" ;;
       print "-------------------------" ;;
       print_sessions 0 (dict_keys d) ;;
       print "-------------------------"
   end)%M.

Definition get_session (session_name : string) : M (option Chroma) :=
  (present <- collections_contains session_name ;;
   if present then
     collection <- collections_getitem session_name ;;
     ret (Some collection)
   else
     print ("[WARN] Session '" +:+ session_name +:+ "' does not exist.") ;;
     ret None)%M.

Definition chunk_document (document : list Document) : M (list Document) :=
  (st <- get_state ;;
   lift (RecursiveCharacterTextSplitter.split_documents
           (textsplitter (db st)) document))%M.

(** The loop of [add_file], from index [i]. *)
Fixpoint add_file_loop {svc : Services} (collection : Chroma) (i : nat)
    (documents_list : list string) : M unit :=
  match documents_list with
  | [] => ret tt
  | docs_path :: documents_list' =>
      (let document := pdf_load docs_path in
       chunks <- chunk_document document ;;
       add_documents collection ([] ++ chunks) ;;
       print ("Document no " +:+ pretty (i + 1) +:+ " added successfully.") ;;
       add_file_loop collection (S i) documents_list')%M
  end.

Definition add_file {svc : Services} (documents_list : list string)
    (collection_name : string) : M unit :=
  (collection <- collections_getitem collection_name ;;
   add_file_loop collection 0 documents_list)%M.

Definition delete_session (session_name : string) : M unit :=
  (collection <- collections_getitem session_name ;;
   delete_collection collection ;;
   _remove_session_name session_name ;;
   collections_delitem session_name ;;
   print ("Session " +:+ session_name +:+ " deleted successfully."))%M.

End vectordb.

(** ** classes.py: [RAGAssistant] *)

Module RAGAssistant.
Import Py.

(** The configuration [ChatGroq] is constructed with. *)
Record ChatGroq : Type := {
  model : string;
  temperature : Z;
  reasoning_format : string;
  max_retries : Z
}.

(** The answer given when nothing can be retrieved. *)
Definition fallback : string := "I don't know. No relevant information found.".

(** [not api_key] for the value [os.getenv] returned: [None] and the empty
    string are both falsy. *)
Definition falsy_key (api_key : option string) : bool :=
  match api_key with
  | None => true
  | Some key => negb (truthy key)
  end.

(** [environ] is the process environment once [load_dotenv()] has run. *)
Definition _initialize_llm (environ : gmap string string) : res ChatGroq :=
  let api_key := environ !! "GROQ_API_KEY" in
  if falsy_key api_key then
    Raise (ValueError "Groq API key not found in environment variables!")
  else
    Ok {| model := "qwen/qwen3-32b"; temperature := 0;
          reasoning_format := "hidden"; max_retries := 2 |}.

(** [__init__]: the model first, then the reference to the database and the
    prompt; returns the model the chain ends in. *)
Definition __init__ (environ : gmap string string) : M ChatGroq :=
  (llm <- lift (_initialize_llm environ) ;;
   print "[INFO] RAGAssistant initialized successfully." ;;
   ret llm)%M.

Definition query {svc : Services} (session_name question : string) (n_results : nat)
  : M string :=
  (collection <- vectordb.get_session session_name ;;
   match collection with
   | None => ret fallback
   | Some collection =>
       st <- get_state ;;
       emit (SimilaritySearch (collection_name collection) question n_results) ;;
       let docs :=
         similarity_search (chroma_db st) (collection_name collection)
           question n_results in
       match docs with
       | [] => ret fallback
       | _ :: _ =>
           let context := join (nl +:+ nl) (map page_content docs) in
           let vars := {| pv_question := question;
                          pv_context := context;
                          pv_session_name := session_name |} in
           emit (LLMInvoke vars) ;;
           ret (llm_invoke vars)
       end
   end)%M.

(** The default of [n_results]. *)
Definition default_n_results : nat := 5.

End RAGAssistant.

(** ** functions.py *)

Module functions.
Import Py.

(** [clear_screen()] with its default delay of two seconds. *)
Definition clear_screen : M unit :=
  (emit (Sleep 2) ;; emit ClearScreen)%M.

Definition list_sessions : M unit := vectordb.list_session.

(** The loops below read their input from [inputs], the lines the user will
    type, and return the lines they have not read; [input()] on an exhausted
    input raises [EOFError]. *)

Fixpoint create_session (inputs : list string) : M (list string) :=
  match inputs with
  | [] => raise EOFError
  | line :: inputs' =>
      let session_name := strip line in
      if negb (truthy session_name) then
        (print ("Session name cannot be empty. Try again." +:+ nl) ;;
         create_session inputs')%M
      else
        (success <- vectordb.create_session session_name ;;
         if success then
           print ("Session '" +:+ session_name +:+ "' created successfully!") ;;
           clear_screen ;;
           ret inputs'
         else
           print ("Session '" +:+ session_name
                  +:+ "' already exists. Try a different name." +:+ nl) ;;
           create_session inputs')%M
  end.

(** The loop that asks for the name of an existing session. *)
Fixpoint ask_session (inputs : list string) : M (string * list string) :=
  match inputs with
  | [] => raise EOFError
  | session_name :: inputs' =>
      (found <- vectordb.get_session session_name ;;
       match found with
       | None => print "Session name not exist." ;; ask_session inputs'
       | Some _ => ret (session_name, inputs')
       end)%M
  end.

(** The question loop of [start_chat]. *)
Fixpoint chat_loop {svc : Services} (session_name : string) (inputs : list string)
  : M (list string) :=
  match inputs with
  | [] => raise EOFError
  | question :: inputs' =>
      if decide (lower question = "quit") then
        (print "Going back to main menu." ;; ret inputs')%M
      else
        (response <- RAGAssistant.query session_name question
                       RAGAssistant.default_n_results ;;
         print ("Answer: " +:+ response) ;;
         chat_loop session_name inputs')%M
  end.

Definition start_chat {svc : Services} (inputs : list string) : M (list string) :=
  (list_sessions ;;
   r <- ask_session inputs ;;
   inputs' <- chat_loop r.1 r.2 ;;
   clear_screen ;;
   ret inputs')%M.

Definition delete_session (inputs : list string) : M (list string) :=
  (list_sessions ;;
   r <- ask_session inputs ;;
   vectordb.delete_session r.1 ;;
   clear_screen ;;
   ret r.2)%M.

(** The loop of [add_documents] that collects the paths, up to the input
    [done] in any mix of upper and lower case. *)
Fixpoint collect_documents (documents_list : list string) (inputs : list string)
  : M (list string * list string) :=
  match inputs with
  | [] => raise EOFError
  | doc_name :: inputs' =>
      if decide (lower doc_name = "done") then ret (documents_list, inputs')
      else
        (print "Document path added to bucket." ;;
         collect_documents (documents_list ++ [doc_name]) inputs')%M
  end.

Definition add_documents {svc : Services} (inputs : list string)
  : M (list string) :=
  (list_sessions ;;
   r <- ask_session inputs ;;
   c <- collect_documents [] r.2 ;;
   print "Adding Documents in the session." ;;
   vectordb.add_file c.1 r.1 ;;
   print ("All documents added to the " +:+ r.1 +:+ " session.") ;;
   clear_screen ;;
   ret c.2)%M.

End functions.

(** ** main.py *)

Module main.

(** The two module-level statements [db = vectordb()] and
    [assistant = RAGAssistant(db)], run when the program starts. *)
Definition startup (environ : gmap string string) (w : world)
  : res (RAGAssistant.ChatGroq * state) :=
  match vectordb.__init__ environ w with
  | Raise e => Raise e
  | Ok (_, st) => RAGAssistant.__init__ environ st
  end.

(** The text [print_menu] prints: the triple-quoted string, which begins and
    ends with a newline. *)
Definition menu_text : string :=
  Py.nl +:+ "StudyMate CLI Menu" +:+ Py.nl
  +:+ "-----------------" +:+ Py.nl
  +:+ "1) Create new session" +:+ Py.nl
  +:+ "2) Add documents to a session" +:+ Py.nl
  +:+ "3) List all sessions" +:+ Py.nl
  +:+ "4) Select active session (chat)" +:+ Py.nl
  +:+ "5) Delete a session" +:+ Py.nl
  +:+ "6) Exit" +:+ Py.nl.

Definition print_menu : M unit := print menu_text.

(** The table of commands. An action reads its input from the lines it is
    given and returns those it has not read. *)
Definition COMMANDS {svc : Services}
  : Py.dict (list string -> M (list string)) :=
  [ ("1", functions.create_session);
    ("2", functions.add_documents);
    ("3", fun inputs => (functions.list_sessions ;; ret inputs)%M);
    ("4", functions.start_chat);
    ("5", functions.delete_session) ].

(** The loop of [main]. An action may read any number of lines, so the loop
    is not a recursion on the input: [fuel] bounds the number of passes, and
    the result is [None] when the bound is reached before the loop ends. *)
Fixpoint main_loop {svc : Services} (fuel : nat) (inputs : list string)
  : M (option (list string)) :=
  match fuel with
  | O => ret None
  | S fuel' =>
      (print_menu ;;
       match inputs with
       | [] => raise Py.EOFError
       | line :: inputs' =>
           let choice := Py.strip line in
           if decide (choice = "6") then
             print "Exiting StudyMate. Goodbye!" ;; ret (Some inputs')
           else
             match Py.dict_get choice COMMANDS with
             | Some action =>
                 rest <- action inputs' ;; main_loop fuel' rest
             | None =>
                 print "Invalid option. Please try again." ;;
                 functions.clear_screen ;;
                 main_loop fuel' inputs'
             end
       end)%M
  end.

Definition main {svc : Services} (fuel : nat) (inputs : list string)
  : M (option (list string)) :=
  (print "Welcome to StudyMate" ;;
   print "--------------------" ;;
   main_loop fuel inputs)%M.

End main.

(** ** Vocabulary of the statements *)

(** *** The registry *)

(** The names the registry file holds: none when there is no file. *)
Definition registry_names (f : option string) : list string :=
  match f with
  | None => []
  | Some raw => vectordb.session_names raw
  end.

(** The text of the registry file, empty when there is no file. *)
Definition registry_text (st : state) : string := default "" (sessions_txt st).

(** The set of non-blank stripped lines of the registry file. *)
Definition registry_set (st : state) : gset string :=
  list_to_set (registry_names (sessions_txt st)).

(** The key set of a dictionary. *)
Definition key_set {V : Type} (d : Py.dict V) : gset string :=
  list_to_set (Py.dict_keys d).

(** The handle [Chroma(collection_name=name, ...)] returns for this object. *)
Definition handle_of (st : state) (name : string) : Chroma :=
  {| collection_name := name;
     handle_persist_directory := persist_directory (db st) |}.

(** The state [st] once the events [es] have happened. *)
Definition with_trace (st : state) (es : list event) : state :=
  {| db := db st; sessions_txt := sessions_txt st;
     chroma_db := chroma_db st; trace := trace st ++ es |}.

(** The dictionary after the loop of [load_all_sessions] over [names], for an
    object whose persist directory is [dir]. *)
Definition loaded_dict (dir : string) (names : list string)
    (d : Py.dict Chroma) : Py.dict Chroma :=
  foldl (fun d name =>
           Py.dict_set name
             {| collection_name := name; handle_persist_directory := dir |} d)
        d names.

(** The store after the same loop. *)
Definition loaded_store (names : list string)
    (store : gmap string (list Document)) : gmap string (list Document) :=
  foldl (fun store name => vectordb.get_or_create name store) store names.

(** *** Queries and the shell *)

(** The variables [query] fills the prompt with for the chunks [docs]. *)
Definition prompt_of (session_name question : string) (docs : list Document)
  : prompt_vars :=
  {| pv_question := question;
     pv_context := Py.join (Py.nl +:+ Py.nl) (map page_content docs);
     pv_session_name := session_name |}.

(** Is the event a call of the chat model? *)
Definition is_llm_call (e : event) : bool :=
  match e with
  | LLMInvoke _ => true
  | _ => false
  end.

(** The questions [qs] put to [query] one after the other, each answer
    printed: what the question loop does before it stops. *)
Fixpoint ask_all {svc : Services} (session_name : string) (qs : list string)
  : M unit :=
  match qs with
  | [] => ret tt
  | q :: qs' =>
      (response <- RAGAssistant.query session_name q
                     RAGAssistant.default_n_results ;;
       print ("Answer: " +:+ response) ;;
       ask_all session_name qs')%M
  end.

(** The sixteen ways of writing the exit keyword. *)
Definition quit_spellings : list string :=
  [ "quit"; "quiT"; "quIt"; "quIT"; "qUit"; "qUiT"; "qUIt"; "qUIT";
    "Quit"; "QuiT"; "QuIt"; "QuIT"; "QUit"; "QUiT"; "QUIt"; "QUIT" ].

(** The lines [list_session] prints for the sessions, numbered from [i + 1]. *)
Fixpoint session_lines (i : nat) (names : list string) : list event :=
  match names with
  | [] => []
  | name :: names' =>
      Print ("Session no " +:+ pretty (i + 1) +:+ ": " +:+ name)
      :: session_lines (S i) names'
  end.

(** *** The states of a run *)

(** What the rest of the program can ask of the two objects. *)
Inductive operation : Type :=
| op_load_all_sessions
| op_save_session_name (session_name : string)
| op_remove_session_name (session_name : string)
| op_create_session (session_name : string)
| op_list_session
| op_get_session (session_name : string)
| op_chunk_document (document : list Document)
| op_add_file (documents_list : list string) (collection_name : string)
| op_delete_session (session_name : string)
| op_assistant_init (environ : gmap string string)
| op_query (session_name question : string) (n_results : nat)
| op_clear_screen
| op_cli_create_session (inputs : list string)
| op_cli_list_sessions
| op_cli_start_chat (inputs : list string)
| op_cli_delete_session (inputs : list string).

(** Run a computation for its effect on the state. *)
Definition exec {A : Type} (m : M A) (st : state) : res state :=
  match m st with
  | Ok (_, st') => Ok st'
  | Raise e => Raise e
  end.

(** An operation as a step on the state. *)
Definition run_op {svc : Services} (op : operation) : state -> res state :=
  match op with
  | op_load_all_sessions => exec vectordb.load_all_sessions
  | op_save_session_name n => exec (vectordb._save_session_name n)
  | op_remove_session_name n => exec (vectordb._remove_session_name n)
  | op_create_session n => exec (vectordb.create_session n)
  | op_list_session => exec vectordb.list_session
  | op_get_session n => exec (vectordb.get_session n)
  | op_chunk_document d => exec (vectordb.chunk_document d)
  | op_add_file l n => exec (vectordb.add_file l n)
  | op_delete_session n => exec (vectordb.delete_session n)
  | op_assistant_init environ => exec (RAGAssistant.__init__ environ)
  | op_query n q k => exec (RAGAssistant.query n q k)
  | op_clear_screen => exec functions.clear_screen
  | op_cli_create_session inputs => exec (functions.create_session inputs)
  | op_cli_list_sessions => exec functions.list_sessions
  | op_cli_start_chat inputs => exec (functions.start_chat inputs)
  | op_cli_delete_session inputs => exec (functions.delete_session inputs)
  end.

(** The states a run of the program can be in: the one the constructor of
    [vectordb] leaves, and those any sequence of operations leads to. *)
Inductive reachable {svc : Services} : state -> Prop :=
| reachable_init environ w st :
    vectordb.__init__ environ w = Ok (tt, st) -> reachable st
| reachable_step op st st' :
    reachable st -> run_op op st = Ok st' -> reachable st'.

(** The object is as its constructor made it, up to the contents of the
    dictionary: [collections] holds a dictionary, not [None], and the splitter
    is the configured one. *)
Definition object_ok (st : state) : Prop :=
  is_Some (collections (db st)) /\
  textsplitter (db st) = vectordb.splitter_config.

(** A computation that, when it returns, leaves the object as its constructor
    made it if it was so. *)
Definition keeps_ok {A : Type} (m : M A) : Prop :=
  forall st a st', object_ok st -> m st = Ok (a, st') -> object_ok st'.

(** *** The splitter *)

(** Is the character one the configured splitter cuts at: a newline, a full
    stop or a blank? *)
Definition is_boundary (c : ascii) : bool :=
  bool_decide (c = Py.LF) || bool_decide (c = "."%char)
  || bool_decide (c = " "%char).

(** The length of the longest prefix of [s] without such a character. *)
Fixpoint run_prefix_len (s : string) : nat :=
  match s with
  | EmptyString => 0
  | String c s' => if is_boundary c then 0 else S (run_prefix_len s')
  end.

(** The length of the longest run of [s]: of the longest stretch of
    characters without a newline, a full stop or a blank. *)
Fixpoint longest_run (s : string) : nat :=
  match s with
  | EmptyString => 0
  | String c s' => Nat.max (run_prefix_len s) (longest_run s')
  end.

(** The text [s] but for its first character. *)
Definition but_first (s : string) : string :=
  match s with
  | EmptyString => EmptyString
  | String _ s' => s'
  end.

(** The text [chunk] is a part of [text], in one piece. *)
Definition part_of (text chunk : string) : Prop :=
  exists a b, text = a +:+ chunk +:+ b.

(** The total length of the pieces [l]. *)
Definition total_len (l : list string) : Z :=
  foldr (fun s acc => (RecursiveCharacterTextSplitter.len s + acc)%Z) 0%Z l.

(** The pieces [l] put together. *)
Definition glue (l : list string) : string := foldr String.append "" l.

(** What holds of the state of [_merge_splits] between two pieces: [total]
    is the length of the pieces kept, these fit a chunk, and so does every
    chunk made so far. *)
Definition merge_inv (self : RecursiveCharacterTextSplitter.t)
    (st : RecursiveCharacterTextSplitter.merge_state) : Prop :=
  RecursiveCharacterTextSplitter.total st
    = total_len (RecursiveCharacterTextSplitter.current_doc st) /\
  (RecursiveCharacterTextSplitter.total st
     <= RecursiveCharacterTextSplitter.chunk_size self)%Z /\
  Forall (fun doc =>
            (RecursiveCharacterTextSplitter.len doc
               <= RecursiveCharacterTextSplitter.chunk_size self)%Z)
         (RecursiveCharacterTextSplitter.docs st).

(** What [_split_text] needs of a piece that is not small for the chunks to
    fit: that the piece fits as it is when nothing deeper can split it, and
    else that the deeper call returns chunks that fit. *)
Definition piece_ok (self : RecursiveCharacterTextSplitter.t)
    (deeper : option (string -> res (list string))) (p : string) : Prop :=
  match deeper with
  | None =>
      (RecursiveCharacterTextSplitter.len p
         <= RecursiveCharacterTextSplitter.chunk_size self)%Z
  | Some rec =>
      exists chunks,
        rec p = Ok chunks /\
        Forall (fun chunk =>
                  (RecursiveCharacterTextSplitter.len chunk
                     <= RecursiveCharacterTextSplitter.chunk_size self)%Z)
               chunks
  end.

(** The chunks of a text short enough for one chunk, when its pieces are
    merged: the text, stripped, or nothing when that is empty. *)
Definition one_chunk (text : string) : list string :=
  if decide (Py.strip text = "") then [] else [Py.strip text].

(** *** Examples *)

(** A small state to run the operations on: one session, [bio], known to the
    object, to the registry file and to the store. *)
Definition example_state : state :=
  {| db := {| embedding_model_name := None;
              persist_directory := "./chroma_db";
              collections :=
                Some [("bio", {| collection_name := "bio";
                                 handle_persist_directory := "./chroma_db" |})];
              textsplitter := vectordb.splitter_config |};
     sessions_txt := Some ("bio" +:+ Py.nl);
     chroma_db := {[ "bio" := [] ]};
     trace := [] |}.

(** The state [example_state] with a registry file whose last line has no
    newline, as an editor may leave it. *)
Definition unterminated_state : state :=
  {| db := db example_state;
     sessions_txt := Some "bio";
     chroma_db := chroma_db example_state;
     trace := [] |}.

(** The state the constructor of [vectordb] leaves when the registry file
    holds the one name [bio] and the store is empty. *)
Definition started_state : state :=
  {| db := db example_state;
     sessions_txt := Some ("bio" +:+ Py.nl);
     chroma_db := {[ "bio" := [] ]};
     trace := [Print "Vector database initialized successfully."] |}.

(** Two chunks of a document, with where they come from. *)
Definition example_chunks : list Document :=
  [ {| page_content := "Mitosis is cell division.";
       metadata := [("source", "cell.pdf"); ("page", "0")] |};
    {| page_content := "It has four phases.";
       metadata := [("source", "cell.pdf"); ("page", "1")] |} ].

(** Services for the examples: the search returns the two chunks whatever it
    is asked, and the chat model does what rule 2 of the system prompt tells
    it to do when the answer is not in the context: it answers with the
    fallback sentence. *)
Definition cautious_services : Services :=
  {| similarity_search := fun _ _ _ _ => example_chunks;
     llm_invoke := fun _ => RAGAssistant.fallback;
     pdf_load := fun _ => [] |}.

(** [n] times the character [c]. *)
Fixpoint replicate_char (n : nat) (c : ascii) : string :=
  match n with
  | O => EmptyString
  | S n' => String c (replicate_char n' c)
  end.

(** A page with no text, as a scanned page loads. *)
Definition blank_page : Document :=
  {| page_content := ""; metadata := [("source", "scan.pdf"); ("page", "0")] |}.

(** A page that is one word of 501 letters. *)
Definition long_word_page : Document :=
  {| page_content := replicate_char 501 "a";
     metadata := [("source", "dna.pdf"); ("page", "0")] |}.

(** A page of two lines of 300 letters each: 601 characters. *)
Definition two_line_page : Document :=
  {| page_content :=
       replicate_char 300 "a" +:+ Py.nl +:+ replicate_char 300 "b";
     metadata := [("source", "rna.pdf"); ("page", "0")] |}.

(** *** Frames and invariants *)

(** A computation that changes nothing but the output: when it returns, the
    object, the registry file and the store are as they were, and the output
    has grown. *)
Definition reads_only {A : Type} (m : M A) : Prop :=
  forall st a st', m st = Ok (a, st') -> exists es, st' = with_trace st es.

(** A computation that keeps the property [P] of the state when it returns. *)
Definition preserves {A : Type} (P : state -> Prop) (m : M A) : Prop :=
  forall st a st', P st -> m st = Ok (a, st') -> P st'.

(** The sessions of the object are sound: [collections] is a dictionary, and
    every key is bound to the handle of the collection of that name, which
    the store has. *)
Definition sessions_sound (st : state) : Prop :=
  exists d,
    collections (db st) = Some d /\
    NoDup (Py.dict_keys d) /\
    forall name collection,
      Py.dict_get name d = Some collection ->
      collection = handle_of st name /\ is_Some (chroma_db st !! name).

(** What a new process finds when the process in state [st] has ended. *)
Definition world_of (st : state) : world :=
  {| w_sessions_txt := sessions_txt st;
     w_chroma_db := chroma_db st;
     w_trace := [] |}.

(** The registry file and the dictionary agree: the names in the file are
    the keys of the dictionary, and the file is empty or ends with a newline,
    so that a name can be appended to it. *)
Definition registry_ok (st : state) : Prop :=
  exists d,
    collections (db st) = Some d /\
    registry_set st = key_set d /\
    Py.newline_terminated (registry_text st) = true.

(** A property of the state that does not look at the output. *)
Definition trace_blind (P : state -> Prop) : Prop :=
  forall st es, P st -> P (with_trace st es).

(** The state [st] with [store] for its vector store. *)
Definition with_store (st : state) (store : gmap string (list Document))
  : state :=
  {| db := db st; sessions_txt := sessions_txt st;
     chroma_db := store; trace := trace st |}.

(** A property of the state that does not look at the vector store. *)
Definition store_blind (P : state -> Prop) : Prop :=
  forall st store, P st -> P (with_store st store).

(** A line as [input()] returns it: without a line break. *)
Definition single_line (line : string) : Prop :=
  Py.occurs Py.LF line = false /\ Py.occurs Py.CR line = false.

(** A piece of text the blank cannot cut further: a word, or a blank and a
    word. *)
Definition uncut (chunk : string) : Prop :=
  exists word,
    Py.occurs " " word = false /\ (chunk = word \/ chunk = " " +:+ word).

(** What a chunk of [text] is, for a splitter whose last separator is the
    blank: not empty, a part of the text, and of the size of a chunk at most,
    unless the blank cannot cut it. *)
Definition chunk_ok (self : RecursiveCharacterTextSplitter.t)
    (text chunk : string) : Prop :=
  chunk <> "" /\
  part_of text chunk /\
  ((RecursiveCharacterTextSplitter.len chunk
      <= RecursiveCharacterTextSplitter.chunk_size self)%Z \/ uncut chunk).

(** *** The shell *)

(** What [list_session] prints for the dictionary [d]. *)
Definition listing (d : Py.dict Chroma) : list event :=
  [Print "List of all Session Names"; Print "-------------------------"]
  ++ session_lines 0 (Py.dict_keys d)
  ++ [Print "-------------------------"].

(** What the loop that asks for a session prints for the names it refuses:
    the warning of [get_session] and its own message, for each. *)
Definition refusals (names : list string) : list event :=
  flat_map (fun name =>
              [Print ("[WARN] Session '" +:+ name +:+ "' does not exist.");
               Print "Session name not exist."])
           names.

(** What [create_session] of the shell prints for a line it refuses: the line
    is blank, or its name is taken. *)
Definition create_refusal (line : string) : event :=
  if Py.truthy (Py.strip line) then
    Print ("Session '" +:+ Py.strip line
           +:+ "' already exists. Try a different name." +:+ Py.nl)
  else Print ("Session name cannot be empty. Try again." +:+ Py.nl).

(** The choices of the menu. *)
Definition menu_choices : list string := ["1"; "2"; "3"; "4"; "5"; "6"].

(** What the loop of [main] prints for the lines that are no choice of the
    menu: the menu, the complaint, and the screen cleared, for each. *)
Definition invalid_passes (lines : list string) : list event :=
  flat_map (fun _ =>
              [Print main.menu_text;
               Print "Invalid option. Please try again.";
               Sleep 2; ClearScreen])
           lines.

(** The state after [vectordb.create_session] of a name the dictionary [d]
    of [st] does not have. *)
Definition after_create (name : string) (d : Py.dict Chroma) (st : state)
  : state :=
  {| db := {| embedding_model_name := embedding_model_name (db st);
              persist_directory := persist_directory (db st);
              collections := Some (Py.dict_set name (handle_of st name) d);
              textsplitter := textsplitter (db st) |};
     sessions_txt := Some (registry_text st +:+ name +:+ Py.nl);
     chroma_db := vectordb.get_or_create name (chroma_db st);
     trace := trace st |}.

(** The state after [vectordb.delete_session] of a name the dictionary [d]
    of [st] binds to [collection]. *)
Definition after_delete (name : string) (collection : Chroma)
    (d : Py.dict Chroma) (st : state) : state :=
  {| db := {| embedding_model_name := embedding_model_name (db st);
              persist_directory := persist_directory (db st);
              collections := Some (Py.dict_del name d);
              textsplitter := textsplitter (db st) |};
     sessions_txt :=
       match sessions_txt st with
       | None => None
       | Some raw =>
           Some (vectordb.write_names
                   (filter (fun n => n <> name) (vectordb.session_names raw)))
       end;
     chroma_db := delete (collection_name collection) (chroma_db st);
     trace := trace st
              ++ [Print ("Session " +:+ name +:+ " deleted successfully.")] |}.

(** The chunks [add_file] makes of the document at [path]: those of the
    pages the loader gives for it. *)
Definition chunks_of {svc : Services} (self : RecursiveCharacterTextSplitter.t)
    (path : string) : list Document :=
  match RecursiveCharacterTextSplitter.split_documents self (pdf_load path) with
  | Ok chunks => chunks
  | Raise _ => []
  end.

(** What [add_file] prints for the documents [l], numbered from [i + 1]. *)
Fixpoint added_lines (i : nat) (l : list string) : list event :=
  match l with
  | [] => []
  | _ :: l' =>
      Print ("Document no " +:+ pretty (i + 1) +:+ " added successfully.")
      :: added_lines (S i) l'
  end.

(** The state after [add_file] of the documents [l], numbered from [i + 1],
    to the collection [cname] of the store, which held [old]. *)
Definition after_add_file {svc : Services} (i : nat) (l : list string)
    (cname : string) (old : list Document) (st : state) : state :=
  {| db := db st;
     sessions_txt := sessions_txt st;
     chroma_db :=
       <[cname := old ++ concat (chunks_of (textsplitter (db st)) <$> l)]>
         (chroma_db st);
     trace := trace st ++ added_lines i l |}.

(** What the loop of [add_documents] prints for the paths it collects. *)
Definition bucket_lines (paths : list string) : list event :=
  (fun _ => Print "Document path added to bucket.") <$> paths.

(** The state [example_state] with the two chunks in the collection of
    [bio]. *)
Definition stocked_state : state :=
  with_store example_state {[ "bio" := example_chunks ]}.

(** * Facts about Python text *)

#[local] Arguments String.append : simpl nomatch.

Section TextFacts.
Import Py.

Lemma app_assoc_s (a b c : string) : (a +:+ b) +:+ c = a +:+ (b +:+ c).
Proof. induction a as [|x a IH]; simpl; [done | by rewrite IH]. Qed.

Lemma app_nil_r_s (a : string) : a +:+ "" = a.
Proof. induction a as [|x a IH]; simpl; [done | by rewrite IH]. Qed.

Lemma isspace_LF : isspace LF = true.
Proof. reflexivity. Qed.

Lemma isspace_CR : isspace CR = true.
Proof. reflexivity. Qed.

Lemma occurs_app c (a b : string) : occurs c (a +:+ b) = occurs c a || occurs c b.
Proof.
  induction a as [|x a IH]; simpl; [done |].
  by rewrite IH, orb_assoc.
Qed.

Lemma rstrip_app_space (s : string) c :
  isspace c = true -> rstrip (s +:+ String c "") = rstrip s.
Proof.
  intros Hc. induction s as [|x s IH]; simpl.
  - by rewrite Hc.
  - by rewrite IH.
Qed.

Lemma lstrip_app_space (s : string) c :
  isspace c = true ->
  lstrip (s +:+ String c "") =
    match lstrip s with
    | EmptyString => EmptyString
    | t => t +:+ String c ""
    end.
Proof.
  intros Hc. induction s as [|x s IH]; simpl.
  - by rewrite Hc.
  - destruct (isspace x); [done | done].
Qed.

Lemma strip_app_space (s : string) c :
  isspace c = true -> strip (s +:+ String c "") = strip s.
Proof.
  intros Hc. unfold strip. rewrite lstrip_app_space by done.
  destruct (lstrip s) as [|x t] eqn:E; [done |].
  change (String x t +:+ String c "") with ((String x t) +:+ String c "").
  by rewrite rstrip_app_space.
Qed.

Lemma strip_app_nl (s : string) : strip (s +:+ nl) = strip s.
Proof. apply strip_app_space, isspace_LF. Qed.

Lemma rstrip_idemp (s : string) : rstrip (rstrip s) = rstrip s.
Proof.
  induction s as [|c s IH]; simpl; [done |].
  destruct (rstrip s) as [|y r] eqn:E.
  - destruct (isspace c) eqn:Hc; simpl; [done | by rewrite Hc].
  - simpl in *. by rewrite IH.
Qed.

Lemma lstrip_head (s : string) :
  match lstrip s with
  | EmptyString => True
  | String c _ => isspace c = false
  end.
Proof.
  induction s as [|c s IH]; simpl; [done |].
  destruct (isspace c) eqn:Hc; [done | by simpl].
Qed.

Lemma rstrip_head c (s : string) :
  isspace c = false -> exists r, rstrip (String c s) = String c r.
Proof.
  intros Hc. simpl. destruct (rstrip s); rewrite ?Hc; eauto.
Qed.

Lemma lstrip_nonspace c (s : string) :
  isspace c = false -> lstrip (String c s) = String c s.
Proof. intros Hc. simpl. by rewrite Hc. Qed.

Lemma strip_idemp (s : string) : strip (strip s) = strip s.
Proof.
  unfold strip. pose proof (lstrip_head s) as Hh.
  destruct (lstrip s) as [|c t] eqn:E; [done |].
  destruct (rstrip_head c t Hh) as [r Hr]. rewrite Hr.
  rewrite lstrip_nonspace by done. rewrite <- Hr. apply rstrip_idemp.
Qed.

Lemma occurs_lstrip c (s : string) : occurs c (lstrip s) = true -> occurs c s = true.
Proof.
  induction s as [|x s IH]; simpl; [done |].
  destruct (isspace x); simpl; [| done].
  intros H. rewrite (IH H). apply orb_true_r.
Qed.

Lemma occurs_rstrip c (s : string) : occurs c (rstrip s) = true -> occurs c s = true.
Proof.
  induction s as [|x s IH]; simpl; [done |].
  destruct (rstrip s) as [|y r] eqn:E.
  - destruct (isspace x); simpl; [done |]. rewrite orb_false_r. intros ->. done.
  - simpl in *. intros [H|H]%orb_true_iff; [by rewrite H |].
    rewrite (IH H). apply orb_true_r.
Qed.

Lemma occurs_strip c (s : string) : occurs c (strip s) = true -> occurs c s = true.
Proof. intros H. by apply occurs_lstrip, occurs_rstrip. Qed.

Lemma occurs_strip_false c (s : string) : occurs c s = false -> occurs c (strip s) = false.
Proof.
  intros H. destruct (occurs c (strip s)) eqn:E; [| done].
  apply occurs_strip in E. congruence.
Qed.

End TextFacts.

Section LineFacts.
Import Py.

Lemma splitlines_nonempty c (s : string) : splitlines (String c s) <> [].
Proof.
  simpl. destruct (decide (c = LF)); [done |]. by destruct (splitlines s).
Qed.

(** A line free of newlines, followed by its newline, is the first line. *)
Lemma splitlines_line (l rest : string) :
  occurs LF l = false ->
  splitlines (l +:+ nl +:+ rest) = (l +:+ nl) :: splitlines rest.
Proof.
  induction l as [|c l IH]; cbn [String.append occurs splitlines]; intros H.
  - reflexivity.
  - apply orb_false_iff in H as [Hc Hl]. apply bool_decide_eq_false in Hc.
    destruct (decide (c = LF)); [done |]. by rewrite (IH Hl).
Qed.

Lemma newline_terminated_cons c (s : string) :
  s <> "" -> newline_terminated (String c s) = newline_terminated s.
Proof.
  intros Hs. unfold newline_terminated. simpl.
  destruct s as [|c' s']; [done |]. simpl. by destruct (last_char s').
Qed.

(** The lines of two texts put together, when the first ends its last line. *)
Lemma splitlines_app (a b : string) :
  newline_terminated a = true ->
  splitlines (a +:+ b) = splitlines a ++ splitlines b.
Proof.
  induction a as [|c a IH]; intros Ha; [done |].
  destruct (decide (a = "")) as [-> | Hne].
  - unfold newline_terminated in Ha. simpl in Ha.
    apply bool_decide_eq_true in Ha as ->. simpl.
    by destruct (decide (LF = LF)).
  - rewrite newline_terminated_cons in Ha by done. simpl.
    rewrite (IH Ha). destruct (decide (c = LF)); [done |].
    destruct a as [|c' a']; [done |].
    pose proof (splitlines_nonempty c' a') as Hn.
    by destruct (splitlines (String c' a')).
Qed.

Lemma universal_newlines_id (s : string) :
  occurs CR s = false -> universal_newlines s = s.
Proof.
  induction s as [|c s IH]; simpl; [done |].
  intros [Hc Hs]%orb_false_iff. apply bool_decide_eq_false in Hc.
  destruct (decide (c = CR)); [done |]. by rewrite IH.
Qed.

Lemma universal_newlines_no_CR (s : string) : occurs CR (universal_newlines s) = false.
Proof.
  induction s as [|c s IH]; simpl; [done |].
  destruct (decide (c = CR)) as [-> | Hc].
  - destruct s as [|c' s']; [done |].
    destruct (decide (c' = LF)); [done |]. simpl in *. by rewrite IH.
  - simpl. rewrite IH. by rewrite bool_decide_eq_false_2.
Qed.

Lemma last_char_app_nl (a : string) : last_char (a +:+ nl) = Some LF.
Proof. induction a as [|c a IH]; simpl; [done | by rewrite IH]. Qed.

Lemma newline_terminated_inv (s : string) :
  newline_terminated s = true -> s = "" \/ exists a, s = a +:+ nl.
Proof.
  induction s as [|c s IH]; [by left |]. intros H. right.
  destruct (decide (s = "")) as [-> | Hne].
  - unfold newline_terminated in H. simpl in H.
    apply bool_decide_eq_true in H as ->. by exists "".
  - rewrite newline_terminated_cons in H by done.
    destruct (IH H) as [? | [a ->]]; [done |]. by exists (String c a).
Qed.

Lemma newline_terminated_app_nl (a : string) : newline_terminated (a +:+ nl) = true.
Proof. unfold newline_terminated. by rewrite last_char_app_nl. Qed.

Lemma universal_newlines_cons2 c x (s : string) :
  universal_newlines (String c (String x s)) =
    if decide (c = CR) then
      if decide (x = LF) then universal_newlines (String x s)
      else String LF (universal_newlines (String x s))
    else String c (universal_newlines (String x s)).
Proof. reflexivity. Qed.

Lemma app_nl_cons (a : string) : exists x s, a +:+ nl = String x s.
Proof. destruct a as [|c a]; [by exists LF, "" | by exists c, (a +:+ nl)]. Qed.

(** Translation of newlines goes through a text that ends with LF. *)
Lemma universal_newlines_app_nl (a b : string) :
  universal_newlines ((a +:+ nl) +:+ b)
  = universal_newlines (a +:+ nl) +:+ universal_newlines b.
Proof.
  induction a as [|c a IH].
  - cbn. destruct (decide (LF = CR)) as [E | _]; [discriminate E | done].
  - change ((String c a +:+ nl) +:+ b) with (String c ((a +:+ nl) +:+ b)).
    change (String c a +:+ nl) with (String c (a +:+ nl)).
    destruct (app_nl_cons a) as (x & s & E). rewrite E in *.
    change (String x s +:+ b) with (String x (s +:+ b)) in *.
    rewrite !universal_newlines_cons2.
    destruct (decide (c = CR)); [destruct (decide (x = LF)) |];
      rewrite IH; reflexivity.
Qed.

Lemma newline_terminated_cons' c (s : string) :
  s <> "" -> newline_terminated s = true -> newline_terminated (String c s) = true.
Proof. intros Hs H. by rewrite newline_terminated_cons. Qed.

Lemma universal_newlines_nonempty c (s : string) :
  universal_newlines (String c s) <> "".
Proof.
  cbn [universal_newlines]. destruct (decide (c = CR)); [| done].
  destruct s as [|c' s']; [done |]. destruct (decide (c' = LF)); [| done].
  cbn [universal_newlines]. destruct (decide (c' = CR)); [| done].
  subst. discriminate.
Qed.

Lemma universal_newlines_terminated (a : string) :
  newline_terminated (universal_newlines (a +:+ nl)) = true.
Proof.
  induction a as [|c a IH].
  - cbn. by destruct (decide (LF = CR)).
  - change (String c a +:+ nl) with (String c (a +:+ nl)).
    destruct (app_nl_cons a) as (x & s & E). rewrite E in *.
    rewrite universal_newlines_cons2.
    pose proof (universal_newlines_nonempty x s) as Hne.
    destruct (decide (c = CR)); [destruct (decide (x = LF)) |];
      [done | by apply newline_terminated_cons' ..].
Qed.

End LineFacts.

Section RegistryFacts.
Import Py.

(** A line of a text has no newline but, possibly, its last character. *)
Lemma splitlines_shape (s l : string) :
  l ∈ splitlines s ->
  exists body, occurs LF body = false /\ (l = body \/ l = body +:+ nl).
Proof.
  revert l. induction s as [|c s IH]; intros l; cbn [splitlines].
  - by intros ?%elem_of_nil.
  - destruct (decide (c = LF)) as [-> | Hc].
    + intros [-> | Hl]%elem_of_cons; [| by apply IH].
      exists "". split; [done | by right].
    + destruct (splitlines s) as [|l0 ls] eqn:E.
      * intros ->%list_elem_of_singleton. exists (String c "").
        split; [| by left]. cbn. by rewrite bool_decide_eq_false_2.
      * intros [-> | Hl]%elem_of_cons.
        -- destruct (IH l0) as (body & Hb & Hl0); [by left |].
           exists (String c body). split.
           ++ cbn. by rewrite bool_decide_eq_false_2.
           ++ destruct Hl0 as [-> | ->]; [by left | by right].
        -- apply IH. by right.
Qed.

(** A character of a line is a character of the text. *)
Lemma splitlines_occurs x (s l : string) :
  l ∈ splitlines s -> occurs x l = true -> occurs x s = true.
Proof.
  revert l. induction s as [|c s IH]; intros l; cbn [splitlines].
  - by intros ?%elem_of_nil.
  - destruct (decide (c = LF)) as [-> | Hc].
    + intros [-> | Hl]%elem_of_cons; cbn.
      * rewrite orb_false_r. intros ->. done.
      * intros Hx. rewrite (IH l Hl Hx). apply orb_true_r.
    + destruct (splitlines s) as [|l0 ls] eqn:E.
      * intros ->%list_elem_of_singleton. cbn. rewrite orb_false_r.
        intros ->. done.
      * intros [-> | Hl]%elem_of_cons; cbn.
        -- intros [Hx | Hx]%orb_true_iff; [by rewrite Hx |].
           rewrite (IH l0); [apply orb_true_r | by left | done].
        -- intros Hx. rewrite (IH l); [apply orb_true_r | by right | done].
Qed.

Lemma clean_name_spec (name : string) :
  clean_name name = true <->
  name <> "" /\ strip name = name /\ occurs LF name = false /\ occurs CR name = false.
Proof.
  unfold clean_name. rewrite !andb_true_iff, !negb_true_iff, bool_decide_eq_true.
  destruct name; cbn [truthy]; intuition congruence.
Qed.

(** Every name read from the registry is clean. *)
Lemma session_names_clean (raw name : string) :
  name ∈ vectordb.session_names raw -> clean_name name = true.
Proof.
  unfold vectordb.session_names, readlines.
  intros [Ht (l & -> & Hl)%list_elem_of_fmap]%list_elem_of_filter.
  apply clean_name_spec. split; [by destruct (strip l) |].
  split; [apply strip_idemp |].
  destruct (splitlines_shape _ _ Hl) as (body & Hb & Hshape).
  split.
  - destruct Hshape as [-> | ->]; rewrite ?strip_app_nl;
      by apply occurs_strip_false.
  - apply occurs_strip_false.
    destruct (occurs CR l) eqn:E; [| done].
    apply (splitlines_occurs _ _ _ Hl) in E.
    by rewrite universal_newlines_no_CR in E.
Qed.

Lemma write_names_no_CR (names : list string) :
  Forall (fun name => clean_name name = true) names ->
  occurs CR (vectordb.write_names names) = false.
Proof.
  induction 1 as [|name names Hn _ IH]; [done |].
  cbn [vectordb.write_names]. rewrite !occurs_app, IH.
  apply clean_name_spec in Hn as (_ & _ & _ & ->). done.
Qed.

Lemma session_names_cons (name rest : string) :
  clean_name name = true -> occurs CR rest = false ->
  vectordb.session_names (name +:+ nl +:+ rest)
  = name :: vectordb.session_names rest.
Proof.
  intros (Hne & Hs & Hlf & Hcr)%clean_name_spec Hrest.
  unfold vectordb.session_names, readlines.
  rewrite !universal_newlines_id; [| done |].
  - rewrite splitlines_line by done. rewrite fmap_cons, strip_app_nl, Hs.
    rewrite filter_cons_True; [done | by destruct name].
  - by rewrite !occurs_app, Hcr, Hrest.
Qed.

(** Reading back what was written gives the names written. *)
Lemma session_names_write_names (names : list string) :
  Forall (fun name => clean_name name = true) names ->
  vectordb.session_names (vectordb.write_names names) = names.
Proof.
  induction 1 as [|name names Hn Hns IH]; [done |].
  cbn [vectordb.write_names]. rewrite session_names_cons; [by rewrite IH | done |].
  by apply write_names_no_CR.
Qed.

Lemma last_char_app (a b : string) :
  last_char (a +:+ b) =
    match last_char b with
    | None => last_char a
    | Some c => Some c
    end.
Proof.
  induction a as [|x a IH]; cbn [String.append last_char].
  - by destruct (last_char b).
  - rewrite IH. by destruct (last_char b), (last_char a).
Qed.

Lemma write_names_terminated (names : list string) :
  newline_terminated (vectordb.write_names names) = true.
Proof.
  unfold newline_terminated.
  induction names as [|name names IH]; [done |].
  cbn [vectordb.write_names]. rewrite !last_char_app.
  destruct (last_char (vectordb.write_names names)); [done |].
  by cbn.
Qed.

(** A clean name appended as a line to a text that ends its last line is one
    more name, after those already there. *)
Lemma session_names_append (raw name : string) :
  newline_terminated raw = true -> clean_name name = true ->
  vectordb.session_names (raw +:+ name +:+ nl)
  = vectordb.session_names raw ++ [name].
Proof.
  intros Hraw Hname.
  assert (vectordb.session_names (name +:+ nl) = [name]) as Hone.
  { rewrite <- (app_nil_r_s nl). rewrite session_names_cons; done. }
  destruct (newline_terminated_inv raw Hraw) as [-> | [a ->]]; [done |].
  unfold vectordb.session_names, readlines in *.
  rewrite universal_newlines_app_nl.
  rewrite splitlines_app by apply universal_newlines_terminated.
  by rewrite fmap_app, filter_app, Hone.
Qed.

(** The same on the lines themselves: a single line appended to a text that
    ends its last line is one more line, and the lines before it stay. *)
Lemma readlines_append (raw name : string) :
  newline_terminated raw = true ->
  occurs LF name = false -> occurs CR name = false ->
  readlines (raw +:+ name +:+ nl) = readlines raw ++ [name +:+ nl].
Proof.
  intros Hraw Hlf Hcr.
  assert (readlines (name +:+ nl) = [name +:+ nl]) as Hone.
  { unfold readlines. rewrite universal_newlines_id.
    - rewrite <- (app_nil_r_s nl). by rewrite splitlines_line.
    - by rewrite occurs_app, Hcr. }
  destruct (newline_terminated_inv raw Hraw) as [-> | [a ->]]; [done |].
  unfold readlines in *. rewrite universal_newlines_app_nl.
  rewrite splitlines_app by apply universal_newlines_terminated.
  by rewrite Hone.
Qed.

End RegistryFacts.

(** * Facts about dictionaries *)

Section DictFacts.
Import Py.
Context {V : Type}.
Implicit Types (d : dict V) (k : string) (v : V).

Lemma dict_mem_keys k d : dict_mem k d = true <-> k ∈ dict_keys d.
Proof.
  unfold dict_keys. induction d as [|[k' v'] d IH]; cbn.
  - split; [done | by intros ?%elem_of_nil].
  - rewrite orb_true_iff, bool_decide_eq_true, elem_of_cons, IH.
    intuition congruence.
Qed.

Lemma dict_mem_false_keys k d : dict_mem k d = false <-> k ∉ dict_keys d.
Proof. rewrite <- dict_mem_keys. by destruct (dict_mem k d). Qed.

Lemma dict_get_mem k d : dict_mem k d = bool_decide (is_Some (dict_get k d)).
Proof.
  induction d as [|[k' v'] d IH]; cbn.
  - reflexivity.
  - destruct (decide (k' = k)) as [-> | Hne].
    + rewrite bool_decide_eq_true_2 by done. symmetry.
      apply bool_decide_eq_true. eauto.
    + by rewrite bool_decide_eq_false_2.
Qed.

Lemma dict_get_None k d : dict_get k d = None <-> dict_mem k d = false.
Proof.
  rewrite dict_get_mem, bool_decide_eq_false.
  destruct (dict_get k d) as [v|]; split; intros H; try done.
  exfalso. apply H. by exists v.
Qed.

Lemma dict_get_Some_mem k d v : dict_get k d = Some v -> dict_mem k d = true.
Proof.
  intros H. rewrite dict_get_mem. apply bool_decide_eq_true. eauto.
Qed.

Lemma dict_set_fresh k v d : dict_mem k d = false -> dict_set k v d = d ++ [(k, v)].
Proof.
  induction d as [|[k' v'] d IH]; cbn; [done |].
  intros [Hk Hd]%orb_false_iff. apply bool_decide_eq_false in Hk.
  destruct (decide (k' = k)); [done |]. by rewrite IH.
Qed.

Lemma dict_get_set k k' v d :
  dict_get k' (dict_set k v d) = if decide (k = k') then Some v else dict_get k' d.
Proof.
  induction d as [|[k0 v0] d IH]; cbn.
  - destruct (decide (k = k')); done.
  - destruct (decide (k0 = k)) as [-> | Hne]; cbn.
    + destruct (decide (k = k')); done.
    + rewrite IH. destruct (decide (k0 = k')) as [-> | ?]; [| done].
      by destruct (decide (k = k')).
Qed.

Lemma dict_keys_set k k' v d :
  k' ∈ dict_keys (dict_set k v d) <-> k' = k \/ k' ∈ dict_keys d.
Proof.
  unfold dict_keys. induction d as [|[k0 v0] d IH]; cbn.
  - rewrite list_elem_of_singleton. split; [by left |].
    intros [? | ?%elem_of_nil]; done.
  - destruct (decide (k0 = k)) as [-> | Hne]; cbn;
      rewrite !elem_of_cons, ?IH; intuition congruence.
Qed.

Lemma dict_set_NoDup k v d : NoDup (dict_keys d) -> NoDup (dict_keys (dict_set k v d)).
Proof.
  unfold dict_keys. induction d as [|[k0 v0] d IH]; cbn.
  - intros _. apply NoDup_singleton.
  - intros [Hk0 Hd]%NoDup_cons. destruct (decide (k0 = k)) as [-> | Hne]; cbn.
    + by apply NoDup_cons.
    + apply NoDup_cons. split; [| by apply IH].
      intros [? | ?]%dict_keys_set; done.
Qed.

Lemma dict_keys_del k k' d :
  k' ∈ dict_keys (dict_del k d) <-> k' <> k /\ k' ∈ dict_keys d.
Proof.
  unfold dict_keys, dict_del. rewrite !list_elem_of_fmap. split.
  - intros ([k0 v0] & -> & [Hne Hin]%list_elem_of_filter). split; [done |].
    by exists (k0, v0).
  - intros (Hne & [k0 v0] & -> & Hin). exists (k0, v0). split; [done |].
    by apply list_elem_of_filter.
Qed.

Lemma dict_mem_del k d : dict_mem k (dict_del k d) = false.
Proof. apply dict_mem_false_keys. rewrite dict_keys_del. intuition congruence. Qed.

Lemma dict_del_NoDup k d : NoDup (dict_keys d) -> NoDup (dict_keys (dict_del k d)).
Proof.
  unfold dict_keys, dict_del. induction d as [|[k0 v0] d IH]; [done |].
  rewrite fmap_cons. intros [Hk0 Hd]%NoDup_cons. rewrite filter_cons.
  destruct (decide ((k0, v0).1 <> k)); [| by apply IH].
  rewrite fmap_cons. apply NoDup_cons. split; [| by apply IH].
  intros (? & ?)%(dict_keys_del k k0 d). done.
Qed.

Lemma key_set_set k v d : key_set (dict_set k v d) = {[k]} ∪ key_set d.
Proof.
  unfold key_set. apply set_eq. intros k'.
  rewrite elem_of_union, elem_of_singleton, !elem_of_list_to_set.
  apply dict_keys_set.
Qed.

Lemma key_set_del k d : key_set (dict_del k d) = key_set d ∖ {[k]}.
Proof.
  unfold key_set. apply set_eq. intros k'.
  rewrite elem_of_difference, elem_of_singleton, !elem_of_list_to_set.
  rewrite dict_keys_del. intuition congruence.
Qed.

End DictFacts.

(** * The session registry *)

Section MethodFacts.
Import Py.

Lemma state_eq (st st' : state) :
  db st = db st' -> sessions_txt st = sessions_txt st' ->
  chroma_db st = chroma_db st' -> trace st = trace st' -> st = st'.
Proof. destruct st, st'; cbn; by intros -> -> -> ->. Qed.

Lemma get_or_create_lookup (name : string) (store : gmap string (list Document)) :
  is_Some (vectordb.get_or_create name store !! name).
Proof.
  unfold vectordb.get_or_create. destruct (store !! name) eqn:E; [by rewrite E |].
  by rewrite lookup_insert_eq.
Qed.

Lemma get_or_create_keeps (name other : string)
    (store : gmap string (list Document)) (docs : list Document) :
  store !! other = Some docs ->
  vectordb.get_or_create name store !! other = Some docs.
Proof.
  intros H. unfold vectordb.get_or_create.
  destruct (store !! name) eqn:E; [done |].
  rewrite lookup_insert_ne; [done | congruence].
Qed.

Lemma collections_contains_spec st d name :
  collections (db st) = Some d ->
  vectordb.collections_contains name st = Ok (dict_mem name d, st).
Proof.
  intros H. unfold vectordb.collections_contains, bind, get_state, ret.
  by rewrite H.
Qed.

Lemma collections_getitem_spec st d name :
  collections (db st) = Some d ->
  vectordb.collections_getitem name st =
    match dict_get name d with
    | Some collection => Ok (collection, st)
    | None => Raise (KeyError name)
    end.
Proof.
  intros H. unfold vectordb.collections_getitem, bind, get_state, ret, raise.
  rewrite H. by destruct (dict_get name d).
Qed.

Lemma get_session_found st d name collection :
  collections (db st) = Some d -> dict_get name d = Some collection ->
  vectordb.get_session name st = Ok (Some collection, st).
Proof.
  intros H Hg. unfold vectordb.get_session, bind.
  rewrite (collections_contains_spec st d) by done.
  rewrite (dict_get_Some_mem _ _ _ Hg).
  rewrite (collections_getitem_spec st d) by done. by rewrite Hg.
Qed.

Lemma get_session_missing st d name :
  collections (db st) = Some d -> dict_mem name d = false ->
  vectordb.get_session name st =
    Ok (None, with_trace st
                [Print ("[WARN] Session '" +:+ name +:+ "' does not exist.")]).
Proof.
  intros H Hg. unfold vectordb.get_session, bind.
  rewrite (collections_contains_spec st d) by done. by rewrite Hg.
Qed.

End MethodFacts.

Section CreateSession.
Import Py.

Lemma dict_get_app_fresh {V : Type} (k : string) (v : V) (d : dict V) :
  dict_mem k d = false -> dict_get k (d ++ [(k, v)]) = Some v.
Proof.
  intros H. rewrite <- dict_set_fresh by done. rewrite dict_get_set.
  by destruct (decide (k = k)).
Qed.

(** C2, as stated, fails: the text appended is not always one more line of
    the file. After a last line that is not ended, the name joins that line:
    the file [bio] becomes the one line [biochem]. And a name with a line
    break in it makes two lines. *)
Lemma create_session_not_one_more_line :
  (dict_mem "chem" [("bio", handle_of example_state "bio")] = false /\
   readlines (registry_text unterminated_state) = ["bio"] /\
   exists st',
     vectordb.create_session "chem" unterminated_state = Ok (true, st') /\
     readlines (registry_text st') = ["biochem" +:+ nl]) /\
  (dict_mem ("a" +:+ nl +:+ "b") [("bio", handle_of example_state "bio")]
   = false /\
   readlines (registry_text example_state) = ["bio" +:+ nl] /\
   exists st',
     vectordb.create_session ("a" +:+ nl +:+ "b") example_state
     = Ok (true, st') /\
     readlines (registry_text st')
     = ["bio" +:+ nl; "a" +:+ nl; "b" +:+ nl]).
Proof.
  split; (split; [reflexivity |]); (split; [reflexivity |]);
    eexists; split; reflexivity.
Qed.

(** C2, amended. [create_session] on a name that is already a key returns
    [False] and changes nothing: not the registry file, not the dictionary,
    not the store, not the output. On any other name it attaches a collection
    of that name in the store, binds the name to its handle as the last key
    of the dictionary, appends the name and a newline to the registry file,
    and returns [True]; [get_session] then returns that handle. The text
    appended is one more line of the file, after the lines it had, when the
    file ended its last line and the name has no line break. *)
Theorem create_session_spec (st : state) (d : dict Chroma) (name : string) :
  collections (db st) = Some d ->
  (dict_mem name d = true ->
     vectordb.create_session name st = Ok (false, st)) /\
  (dict_mem name d = false ->
     exists st',
       vectordb.create_session name st = Ok (true, st') /\
       sessions_txt st' = Some (registry_text st +:+ name +:+ nl) /\
       (newline_terminated (registry_text st) = true ->
        occurs LF name = false -> occurs CR name = false ->
        readlines (registry_text st') = readlines (registry_text st) ++ [name +:+ nl]) /\
       collections (db st') = Some (d ++ [(name, handle_of st name)]) /\
       chroma_db st' = vectordb.get_or_create name (chroma_db st) /\
       is_Some (chroma_db st' !! name) /\
       trace st' = trace st /\
       vectordb.get_session name st' = Ok (Some (handle_of st name), st')).
Proof.
  intros Hd. split; intros Hmem.
  - unfold vectordb.create_session, bind.
    rewrite (collections_contains_spec st d), Hmem by done. reflexivity.
  - unfold vectordb.create_session, bind.
    rewrite (collections_contains_spec st d), Hmem by done.
    unfold get_state, vectordb.Chroma_new, bind, get_state, set_chroma_db, ret,
      vectordb.collections_setitem, bind, get_state, set_collections,
      vectordb._save_session_name, bind, get_state, set_sessions_txt.
    cbn [db collections sessions_txt chroma_db trace persist_directory].
    rewrite Hd. cbn [db collections sessions_txt chroma_db trace].
    eexists. split; [reflexivity |].
    cbn [db collections sessions_txt chroma_db trace].
    rewrite dict_set_fresh by done.
    split; [reflexivity |].
    split; [intros Hterm Hlf Hcr; by apply readlines_append |].
    repeat split.
    + apply get_or_create_lookup.
    + eapply get_session_found; [reflexivity |].
      by apply dict_get_app_fresh.
Qed.

(** On the example: [bio] is taken, [chem] is created and then found. *)
Lemma create_session_spec_witness :
  collections (db example_state)
    = Some [("bio", handle_of example_state "bio")] /\
  vectordb.create_session "bio" example_state = Ok (false, example_state) /\
  exists st',
    vectordb.create_session "chem" example_state = Ok (true, st') /\
    sessions_txt st' = Some ("bio" +:+ nl +:+ "chem" +:+ nl) /\
    vectordb.get_session "chem" st' = Ok (Some (handle_of example_state "chem"), st').
Proof.
  pose proof (create_session_spec example_state
                [("bio", handle_of example_state "bio")] "bio" eq_refl) as [Hdup _].
  pose proof (create_session_spec example_state
                [("bio", handle_of example_state "bio")] "chem" eq_refl) as [_ Hnew].
  split; [reflexivity |]. split; [apply Hdup; reflexivity |].
  destruct (Hnew eq_refl) as (st' & Hrun & Hfile & _ & _ & _ & _ & _ & Hget).
  exists st'. split; [exact Hrun |]. split; [exact Hfile | exact Hget].
Defined.

End CreateSession.

Section DeleteSession.
Import Py.

Lemma registry_names_rewritten (raw name : string) :
  vectordb.session_names
    (vectordb.write_names
       (filter (fun n => n <> name) (vectordb.session_names raw)))
  = filter (fun n => n <> name) (vectordb.session_names raw).
Proof.
  apply session_names_write_names, Forall_forall.
  intros n [_ Hn]%list_elem_of_filter. by apply session_names_clean in Hn.
Qed.



End DeleteSession.

Section LoadSessions.
Import Py.

(** The loop of [load_all_sessions], as one step on the dictionary and one on
    the store. *)
Lemma load_loop_spec (dir : string) (names : list string) (st : state)
    (d : dict Chroma) :
  collections (db st) = Some d ->
  exists st',
    for_each names (fun name =>
      collection <- vectordb.Chroma_new name dir ;;
      vectordb.collections_setitem name collection)%M st = Ok (tt, st') /\
    collections (db st') = Some (loaded_dict dir names d) /\
    chroma_db st' = loaded_store names (chroma_db st) /\
    sessions_txt st' = sessions_txt st /\
    trace st' = trace st /\
    persist_directory (db st') = persist_directory (db st) /\
    embedding_model_name (db st') = embedding_model_name (db st) /\
    textsplitter (db st') = textsplitter (db st).
Proof.
  revert st d. induction names as [|name names IH]; intros st d Hd.
  - exists st. by repeat split.
  - cbn [for_each]. unfold bind at 1. unfold bind at 1.
    unfold vectordb.Chroma_new at 1, bind, get_state, set_chroma_db, ret.
    unfold vectordb.collections_setitem at 1, bind, get_state, set_collections.
    cbn [db collections sessions_txt chroma_db trace]. rewrite Hd.
    match goal with
    | |- exists st', for_each _ _ ?s = _ /\ _ =>
        destruct (IH s (dict_set name
                          {| collection_name := name;
                             handle_persist_directory := dir |} d) eq_refl)
          as (st' & Hrun & Hrest)
    end.
    exists st'. split; [exact Hrun |]. exact Hrest.
Qed.

Lemma loaded_dict_cons dir n names d :
  loaded_dict dir (n :: names) d
  = loaded_dict dir names
      (dict_set n {| collection_name := n; handle_persist_directory := dir |} d).
Proof. reflexivity. Qed.

Lemma loaded_store_cons n names store :
  loaded_store (n :: names) store
  = loaded_store names (vectordb.get_or_create n store).
Proof. reflexivity. Qed.

Lemma loaded_dict_keys dir names d name :
  name ∈ dict_keys (loaded_dict dir names d) <-> name ∈ names \/ name ∈ dict_keys d.
Proof.
  revert d. induction names as [|n names IH]; intros d.
  - cbn. rewrite elem_of_nil. tauto.
  - rewrite loaded_dict_cons, IH, dict_keys_set, elem_of_cons. tauto.
Qed.

Lemma loaded_dict_NoDup dir names d :
  NoDup (dict_keys d) -> NoDup (dict_keys (loaded_dict dir names d)).
Proof.
  revert d. induction names as [|n names IH]; intros d Hd; [done |].
  rewrite loaded_dict_cons. apply IH. by apply dict_set_NoDup.
Qed.

Lemma loaded_dict_get dir names d name :
  name ∈ names ->
  dict_get name (loaded_dict dir names d)
  = Some {| collection_name := name; handle_persist_directory := dir |}.
Proof.
  intros Hin. revert d.
  assert (forall names d,
            dict_get name d
              = Some {| collection_name := name; handle_persist_directory := dir |} ->
            dict_get name (loaded_dict dir names d)
              = Some {| collection_name := name; handle_persist_directory := dir |})
    as Hkeep.
  { clear. intros names. induction names as [|n names IH]; intros d Hd; [done |].
    rewrite loaded_dict_cons. apply IH. rewrite dict_get_set.
    by destruct (decide (n = name)) as [-> |]. }
  induction names as [|n names IH]; intros d; [by apply elem_of_nil in Hin |].
  rewrite loaded_dict_cons. apply elem_of_cons in Hin as [-> | Hin].
  - apply Hkeep. rewrite dict_get_set. by destruct (decide (n = n)).
  - by apply IH.
Qed.

Lemma loaded_store_keeps names store other docs :
  store !! other = Some docs -> loaded_store names store !! other = Some docs.
Proof.
  revert store. induction names as [|n names IH]; intros store H; [done |].
  rewrite loaded_store_cons. apply IH. by apply get_or_create_keeps.
Qed.

Lemma loaded_store_has names store name :
  name ∈ names -> is_Some (loaded_store names store !! name).
Proof.
  revert store. induction names as [|n names IH]; intros store Hin;
    [by apply elem_of_nil in Hin |].
  rewrite loaded_store_cons.
  apply elem_of_cons in Hin as [-> | Hin]; [| by apply IH].
  destruct (get_or_create_lookup n store) as [docs Hdocs].
  exists docs. by apply loaded_store_keeps.
Qed.

Lemma loaded_store_new names store name :
  name ∉ names -> loaded_store names store !! name = store !! name.
Proof.
  revert store. induction names as [|n names IH]; intros store Hin; [done |].
  apply not_elem_of_cons in Hin as [Hne Hin].
  rewrite loaded_store_cons, IH by done.
  unfold vectordb.get_or_create. destruct (store !! n); [done |].
  by rewrite lookup_insert_ne.
Qed.

(** A name is read from the registry exactly when some line of the file,
    stripped, is that name and is not blank. *)
Lemma session_names_lines (raw name : string) :
  name ∈ vectordb.session_names raw <->
  exists line, line ∈ readlines raw /\ strip line = name /\ name <> "".
Proof.
  unfold vectordb.session_names. rewrite list_elem_of_filter, list_elem_of_fmap.
  split.
  - intros (Ht & line & -> & Hin). exists line. repeat split; [done |].
    by destruct (strip line).
  - intros (line & Hin & <- & Hne). split; [by destruct (strip line) |].
    by exists line.
Qed.

End LoadSessions.

Section StartupRecovery.
Import Py.

Lemma loaded_store_created names store name :
  name ∈ names -> store !! name = None ->
  loaded_store names store !! name = Some [].
Proof.
  revert store. induction names as [|n names IH]; intros store Hin Hnone;
    [by apply elem_of_nil in Hin |].
  rewrite loaded_store_cons. destruct (decide (n = name)) as [-> | Hne].
  - apply loaded_store_keeps. unfold vectordb.get_or_create.
    rewrite Hnone. apply lookup_insert_eq.
  - apply elem_of_cons in Hin as [-> | Hin]; [done |]. apply IH; [done |].
    unfold vectordb.get_or_create. destruct (store !! n); [done |].
    by rewrite lookup_insert_ne.
Qed.

Lemma load_all_sessions_spec (st : state) (d : dict Chroma) :
  collections (db st) = Some d ->
  exists st',
    vectordb.load_all_sessions st = Ok (tt, st') /\
    collections (db st')
      = Some (loaded_dict (persist_directory (db st))
                (registry_names (sessions_txt st)) d) /\
    chroma_db st' = loaded_store (registry_names (sessions_txt st)) (chroma_db st) /\
    sessions_txt st' = sessions_txt st /\
    trace st' = trace st.
Proof.
  intros Hd. unfold vectordb.load_all_sessions, bind, get_state.
  destruct (sessions_txt st) as [raw|] eqn:Hfile.
  - destruct (load_loop_spec (persist_directory (db st))
                (vectordb.session_names raw) st d Hd)
      as (st' & Hrun & Hd' & Hstore & Htxt & Htr & _).
    exists st'. cbn [registry_names]. rewrite Htxt, Hfile. by repeat split.
  - exists st. by repeat split.
Qed.

(** C5. The constructor of [vectordb] always returns. The keys of the
    dictionary it leaves are the names read from the registry file: the
    stripped, non-blank lines of the file, none when there is no file. Each
    key is bound to a handle of that name, whatever the store holds: a
    collection that is there is attached with its documents, one that is not
    is created empty. *)
Theorem load_all_sessions_on_start (environ : gmap string string) (w : world) :
  exists st d,
    vectordb.__init__ environ w = Ok (tt, st) /\
    collections (db st) = Some d /\
    NoDup (dict_keys d) /\
    (forall name,
       name ∈ dict_keys d <-> name ∈ registry_names (w_sessions_txt w)) /\
    (forall raw name,
       w_sessions_txt w = Some raw ->
       (name ∈ dict_keys d <->
        exists line, line ∈ readlines raw /\ strip line = name /\ name <> "")) /\
    (forall name,
       name ∈ dict_keys d ->
       dict_get name d
         = Some {| collection_name := name;
                   handle_persist_directory := "./chroma_db" |}) /\
    (forall name,
       name ∈ dict_keys d -> w_chroma_db w !! name = None ->
       chroma_db st !! name = Some []) /\
    (forall name docs,
       w_chroma_db w !! name = Some docs -> chroma_db st !! name = Some docs) /\
    (w_sessions_txt w = None -> d = [] /\ chroma_db st = w_chroma_db w) /\
    sessions_txt st = w_sessions_txt w.
Proof.
  unfold vectordb.__init__, bind.
  destruct (load_all_sessions_spec (vectordb.fresh environ w) [] eq_refl)
    as (st' & Hrun & Hd & Hstore & Htxt & Htr).
  rewrite Hrun. unfold print, emit. eexists; eexists. split; [reflexivity |].
  cbn [db collections sessions_txt chroma_db trace].
  rewrite Hd, Hstore, Htxt. cbn [vectordb.fresh chroma_db sessions_txt db persist_directory].
  assert (forall name,
            name ∈ dict_keys (loaded_dict "./chroma_db"
                                (registry_names (w_sessions_txt w)) [])
            <-> name ∈ registry_names (w_sessions_txt w))
    as Hkeys.
  { intros name. rewrite loaded_dict_keys. cbn. rewrite elem_of_nil. tauto. }
  split; [done |]. split; [apply loaded_dict_NoDup, NoDup_nil_2 |].
  split; [exact Hkeys |].
  split.
  { intros raw name Hfile. rewrite Hkeys, Hfile. apply session_names_lines. }
  split. { intros name Hin%Hkeys. by apply loaded_dict_get. }
  split. { intros name Hin%Hkeys Hnone. by apply loaded_store_created. }
  split. { intros name docs Hdocs. by apply loaded_store_keeps. }
  split; [| done]. intros Hfile. by rewrite Hfile.
Qed.

(** On a registry with a blank line and a padded name, and a store that has
    only one of the two collections. *)
Lemma load_all_sessions_on_start_witness :
  exists st,
    vectordb.__init__ ∅
      {| w_sessions_txt := Some ("bio" +:+ nl +:+ nl +:+ " chem " +:+ nl);
         w_chroma_db := {[ "bio" := [{| page_content := "cell"; metadata := [] |}] ]};
         w_trace := [] |} = Ok (tt, st) /\
    (dict_keys <$> collections (db st)) = Some ["bio"; "chem"] /\
    chroma_db st !! "chem" = Some [] /\
    chroma_db st !! "bio" = Some [{| page_content := "cell"; metadata := [] |}].
Proof.
  destruct (load_all_sessions_on_start ∅
      {| w_sessions_txt := Some ("bio" +:+ nl +:+ nl +:+ " chem " +:+ nl);
         w_chroma_db := {[ "bio" := [{| page_content := "cell"; metadata := [] |}] ]};
         w_trace := [] |})
    as (st & d & Hrun & Hd & _ & _ & _ & _ & Hnew & Hold & _).
  exists st. split; [exact Hrun |].
  vm_compute in Hrun. injection Hrun as <-. vm_compute in Hd.
  injection Hd as <-.
  split; [reflexivity |]. split; [| apply Hold; reflexivity].
  apply Hnew; [| reflexivity]. apply list_elem_of_further, list_elem_of_here.
Defined.

End StartupRecovery.

(** * The query engine *)

Section Query.
Import Py.
Context {svc : Services}.

Lemma query_missing st d name question k :
  collections (db st) = Some d -> dict_mem name d = false ->
  RAGAssistant.query name question k st =
    Ok (RAGAssistant.fallback,
        with_trace st
          [Print ("[WARN] Session '" +:+ name +:+ "' does not exist.")]).
Proof.
  intros Hd Hm. unfold RAGAssistant.query, bind.
  by rewrite (get_session_missing st d).
Qed.

Lemma query_found st d name question k collection :
  collections (db st) = Some d -> dict_get name d = Some collection ->
  RAGAssistant.query name question k st =
    match similarity_search (chroma_db st) (collection_name collection) question k with
    | [] =>
        Ok (RAGAssistant.fallback,
            with_trace st [SimilaritySearch (collection_name collection) question k])
    | doc :: docs =>
        Ok (llm_invoke (prompt_of name question (doc :: docs)),
            with_trace st
              [SimilaritySearch (collection_name collection) question k;
               LLMInvoke (prompt_of name question (doc :: docs))])
    end.
Proof.
  intros Hd Hg. unfold RAGAssistant.query, bind.
  rewrite (get_session_found st d name collection) by done.
  unfold get_state, emit, ret. cbn [db collections sessions_txt chroma_db trace].
  destruct (similarity_search _ _ _ _) as [|doc docs]; [done |].
  unfold with_trace. cbn [db collections sessions_txt chroma_db trace].
  by rewrite <- app_assoc.
Qed.

End Query.

(** C1, as stated, fails: the fallback sentence also comes back when the
    session exists and chunks were retrieved, if the chat model itself answers
    with it, as the system prompt asks it to when the context has no answer. *)
Lemma query_fallback_not_only_when_empty :
  ~ (forall (svc : Services) (st : state) (d : Py.dict Chroma)
       (name question : string) (k : nat) (answer : string) (st' : state),
       collections (db st) = Some d ->
       RAGAssistant.query name question k st = Ok (answer, st') ->
       (answer = RAGAssistant.fallback <->
        Py.dict_get name d = None \/
        exists collection,
          Py.dict_get name d = Some collection /\
          similarity_search (chroma_db st) (collection_name collection) question k
            = [])).
Proof.
  intros Hclaim.
  destruct (Hclaim cautious_services example_state
              [("bio", handle_of example_state "bio")] "bio" "What is mitosis?" 5
              RAGAssistant.fallback
              (with_trace example_state
                 [SimilaritySearch "bio" "What is mitosis?" 5;
                  LLMInvoke (prompt_of "bio" "What is mitosis?" example_chunks)])
              eq_refl eq_refl) as [Himp _].
  destruct (Himp eq_refl) as [Habs | (collection & _ & Hempty)].
  - discriminate Habs.
  - discriminate Hempty.
Qed.

Section QueryTheorems.
Import Py.
Context {svc : Services}.

(** C1, amended. When the session name is not a key of the dictionary, or the
    search returns no chunk, [query] returns the fallback sentence and the
    chat model is not called. Otherwise the chat model is called once and
    [query] returns its answer; so the fallback sentence comes back exactly
    when the session is absent, or no chunk is found, or the model itself
    answers with that sentence. *)
Theorem query_fallback_spec (st : state) (d : dict Chroma)
    (name question : string) (k : nat) :
  collections (db st) = Some d ->
  exists answer es,
    RAGAssistant.query name question k st = Ok (answer, with_trace st es) /\
    (dict_get name d = None ->
       answer = RAGAssistant.fallback /\ filter (fun e => is_llm_call e = true) es = []) /\
    (forall collection,
       dict_get name d = Some collection ->
       let docs := similarity_search (chroma_db st) (collection_name collection)
                     question k in
       (docs = [] ->
          answer = RAGAssistant.fallback /\
          filter (fun e => is_llm_call e = true) es = []) /\
       (docs <> [] ->
          answer = llm_invoke (prompt_of name question docs) /\
          filter (fun e => is_llm_call e = true) es
            = [LLMInvoke (prompt_of name question docs)]) /\
       (answer = RAGAssistant.fallback <->
        docs = [] \/ llm_invoke (prompt_of name question docs) = RAGAssistant.fallback)).
Proof.
  intros Hd. destruct (dict_get name d) as [collection|] eqn:Hg.
  - rewrite (query_found st d name question k collection) by done.
    destruct (similarity_search _ _ _ _) as [|doc docs] eqn:Hs;
      eexists; eexists; (split; [reflexivity |]); (split; [done |]);
      intros c [= <-]; cbn zeta; rewrite Hs.
    + split; [done |]. split; [done |]. split; [by left | done].
    + split; [done |]. split; [done |].
      split; [by right | by intros [? | ?]].
  - apply dict_get_None in Hg. rewrite (query_missing st d) by done.
    eexists; eexists. split; [reflexivity |]. split; [done |]. done.
Qed.

(** C4. On a session the dictionary has, when the search returns chunks, the
    chat model is called with the question, the session name and, as context,
    the texts of the chunks in the order the search returned them, joined by
    blank lines; nothing of the chunks but their texts goes into the prompt;
    and [query] returns the text the model answered. *)
Theorem query_context_spec (st : state) (d : dict Chroma)
    (name question : string) (k : nat) (collection : Chroma)
    (docs : list Document) :
  collections (db st) = Some d ->
  dict_get name d = Some collection ->
  similarity_search (chroma_db st) (collection_name collection) question k = docs ->
  docs <> [] ->
  let vars := {| pv_question := question;
                 pv_context := join (nl +:+ nl) (page_content <$> docs);
                 pv_session_name := name |} in
  RAGAssistant.query name question k st =
    Ok (llm_invoke vars,
        with_trace st
          [SimilaritySearch (collection_name collection) question k;
           LLMInvoke vars]) /\
  (forall docs' : list Document,
     page_content <$> docs' = page_content <$> docs ->
     prompt_of name question docs' = vars).
Proof.
  intros Hd Hg Hs Hne vars. split.
  - rewrite (query_found st d name question k collection), Hs by done.
    destruct docs as [|doc docs]; [done |]. reflexivity.
  - intros docs' Heq. unfold prompt_of, vars.
    change (map page_content docs') with (page_content <$> docs').
    by rewrite Heq.
Qed.

End QueryTheorems.

(** On the example: a session that does not exist. *)
Lemma query_fallback_spec_witness :
  collections (db example_state)
    = Some [("bio", handle_of example_state "bio")] /\
  exists es,
    RAGAssistant.query (svc := cautious_services) "chem" "What is mitosis?" 5 example_state
      = Ok (RAGAssistant.fallback, with_trace example_state es) /\
    filter (fun e => is_llm_call e = true) es = [].
Proof.
  split; [reflexivity |].
  destruct (query_fallback_spec (svc := cautious_services) example_state
              [("bio", handle_of example_state "bio")] "chem" "What is mitosis?" 5
              eq_refl) as (answer & es & Hrun & Habsent & _).
  destruct (Habsent eq_refl) as [-> Hnone]. by exists es.
Defined.

(** On the example: the context built from the two chunks. *)
Lemma query_context_spec_witness :
  RAGAssistant.query (svc := cautious_services) "bio" "What is mitosis?" 5 example_state
  = Ok (RAGAssistant.fallback,
        with_trace example_state
          [SimilaritySearch "bio" "What is mitosis?" 5;
           LLMInvoke
             {| pv_question := "What is mitosis?";
                pv_context :=
                  "Mitosis is cell division." +:+ Py.nl +:+ Py.nl
                  +:+ "It has four phases.";
                pv_session_name := "bio" |}]).
Proof.
  apply (query_context_spec (svc := cautious_services) example_state
           [("bio", handle_of example_state "bio")] "bio" "What is mitosis?" 5
           (handle_of example_state "bio") example_chunks
           eq_refl eq_refl eq_refl).
  discriminate.
Defined.
(** * The credential *)

Section Credential.
Import Py.

Lemma vectordb_init_returns (environ : gmap string string) (w : world) :
  exists st,
    vectordb.__init__ environ w = Ok (tt, st) /\
    trace st = w_trace w ++ [Print "Vector database initialized successfully."].
Proof.
  unfold vectordb.__init__, bind.
  destruct (load_all_sessions_spec (vectordb.fresh environ w) [] eq_refl)
    as (st' & Hrun & _ & _ & _ & Htr).
  rewrite Hrun. unfold print, emit. eexists. split; [reflexivity |].
  cbn [trace]. by rewrite Htr.
Qed.

End Credential.

(** C6, as stated, fails: with [GROQ_API_KEY] in the environment but empty,
    the initialization raises the same error as when it is not there. *)
Lemma initialize_llm_present_but_empty :
  is_Some (({[ "GROQ_API_KEY" := "" ]} : gmap string string) !! "GROQ_API_KEY") /\
  RAGAssistant._initialize_llm {[ "GROQ_API_KEY" := "" ]}
    = Raise (Py.ValueError "Groq API key not found in environment variables!") /\
  main.startup {[ "GROQ_API_KEY" := "" ]}
    {| w_sessions_txt := None; w_chroma_db := ∅; w_trace := [] |}
    = Raise (Py.ValueError "Groq API key not found in environment variables!").
Proof. split; [by eexists | split; reflexivity]. Qed.

Section CredentialTheorem.
Import Py.

(** C6, amended. The initialization of the chat model raises [ValueError]
    exactly when [GROQ_API_KEY] is not in the environment or is there with
    the empty string as its value. In that case the start of the program
    raises it too, whatever the registry and the store hold, and nothing
    catches it; with a non-empty key the start of the program returns. *)
Theorem initialize_llm_spec (environ : gmap string string) (w : world) :
  (RAGAssistant._initialize_llm environ
     = Raise (ValueError "Groq API key not found in environment variables!")
   <-> environ !! "GROQ_API_KEY" = None \/ environ !! "GROQ_API_KEY" = Some "") /\
  (main.startup environ w
     = Raise (ValueError "Groq API key not found in environment variables!")
   <-> environ !! "GROQ_API_KEY" = None \/ environ !! "GROQ_API_KEY" = Some "") /\
  ((exists llm st, main.startup environ w = Ok (llm, st))
   <-> exists key, environ !! "GROQ_API_KEY" = Some key /\ key <> "").
Proof.
  destruct (vectordb_init_returns environ w) as (st0 & Hinit & _).
  unfold main.startup. rewrite Hinit.
  unfold RAGAssistant.__init__, bind, lift, RAGAssistant._initialize_llm,
    RAGAssistant.falsy_key.
  destruct (environ !! "GROQ_API_KEY") as [[|c key]|] eqn:Hkey; cbn.
  - split; [| split].
    + split; [by right | done].
    + split; [by right | done].
    + split; [intros (? & ? & ?); done |].
      intros (key & [= <-] & Hne). done.
  - split; [| split].
    + split; [done | by intros [? | ?]].
    + split; [done | by intros [? | ?]].
    + split; [intros _; by exists (String c key) | intros _; eauto].
  - split; [| split].
    + split; [by left | done].
    + split; [by left | done].
    + split; [intros (? & ? & ?); done |].
      intros (key & ? & ?). done.
Qed.

End CredentialTheorem.

(** * The chat loop *)

Section ExitKeyword.
Import Py.

Lemma lower_char_inv (c : ascii) (lo up : ascii) :
  lower_char lo = lo -> lower_char up = lo ->
  (forall x, lower_char x = lo -> x = lo \/ x = up) ->
  lower_char c = lo <-> c = lo \/ c = up.
Proof.
  intros Hlo Hup Hall. split; [apply Hall |]. by intros [-> | ->].
Qed.

Lemma lower_char_q c : lower_char c = "q"%char <-> c = "q"%char \/ c = "Q"%char.
Proof.
  apply lower_char_inv; [reflexivity .. |].
  intros [[] [] [] [] [] [] [] []]; vm_compute; intros E;
    first [discriminate E | by left | by right].
Qed.

Lemma lower_char_u c : lower_char c = "u"%char <-> c = "u"%char \/ c = "U"%char.
Proof.
  apply lower_char_inv; [reflexivity .. |].
  intros [[] [] [] [] [] [] [] []]; vm_compute; intros E;
    first [discriminate E | by left | by right].
Qed.

Lemma lower_char_i c : lower_char c = "i"%char <-> c = "i"%char \/ c = "I"%char.
Proof.
  apply lower_char_inv; [reflexivity .. |].
  intros [[] [] [] [] [] [] [] []]; vm_compute; intros E;
    first [discriminate E | by left | by right].
Qed.

Lemma lower_char_t c : lower_char c = "t"%char <-> c = "t"%char \/ c = "T"%char.
Proof.
  apply lower_char_inv; [reflexivity .. |].
  intros [[] [] [] [] [] [] [] []]; vm_compute; intros E;
    first [discriminate E | by left | by right].
Qed.

(** The inputs that end the chat are the spellings of [quit] in any mix of
    upper and lower case, and nothing else: no surrounding blanks, no other
    word. *)
Lemma lower_quit_iff (input : string) :
  lower input = "quit" <-> input ∈ quit_spellings.
Proof.
  split.
  - destruct input as [|c1 [|c2 [|c3 [|c4 [|c5 rest]]]]]; cbn [lower];
      try discriminate.
    intros [= H1%lower_char_q H2%lower_char_u H3%lower_char_i H4%lower_char_t].
    unfold quit_spellings.
    destruct H1 as [-> | ->], H2 as [-> | ->], H3 as [-> | ->], H4 as [-> | ->];
      rewrite !elem_of_cons; tauto.
  - unfold quit_spellings. rewrite !elem_of_cons, elem_of_nil.
    intros H. repeat (destruct H as [-> | H]; [reflexivity |]). done.
Qed.

End ExitKeyword.

(** C8, as stated, fails: [QUIT] is not the keyword [quit], and all the same
    the loop takes it for the keyword: it stops, and the input is not put to
    [query]. *)
Lemma chat_exit_not_exact_match :
  "QUIT" <> "quit" /\
  functions.chat_loop (svc := cautious_services) "bio"
    ["QUIT"; "What is mitosis?"] example_state
  = Ok (["What is mitosis?"],
        with_trace example_state [Print "Going back to main menu."]).
Proof. split; [discriminate | reflexivity]. Qed.

Section MonadFacts.

Lemma bind_assoc {A B C : Type} (m : M A) (f : A -> M B) (g : B -> M C) st :
  bind (bind m f) g st = bind m (fun a => bind (f a) g) st.
Proof. unfold bind. by destruct (m st) as [[a st'] | e]. Qed.

Lemma bind_ext {A B : Type} (m : M A) (f g : A -> M B) st :
  (forall a st', f a st' = g a st') -> bind m f st = bind m g st.
Proof. intros Hfg. unfold bind. destruct (m st) as [[a st'] | e]; [apply Hfg | done]. Qed.

End MonadFacts.

Section ChatLoop.
Import Py.
Context {svc : Services}.

(** C8, amended. The question loop puts every input to [query], in order,
    and prints the answer, up to the first input that is the keyword [quit]
    written in any mix of upper and lower case; at that input it reports the
    return to the menu and stops, leaving the inputs that follow unread. When
    no input is such a spelling the loop asks them all and then fails on the
    exhausted input. *)
Theorem chat_loop_spec (session_name : string) (qs : list string) (st : state) :
  Forall (fun q => q ∉ quit_spellings) qs ->
  (forall q rest,
     q ∈ quit_spellings ->
     functions.chat_loop session_name (qs ++ q :: rest) st
     = (ask_all session_name qs ;;
        print "Going back to main menu." ;;
        ret rest)%M st) /\
  functions.chat_loop session_name qs st
  = (ask_all session_name qs ;; raise EOFError)%M st.
Proof.
  intros Hqs. revert st. induction Hqs as [|x qs Hx Hqs IH]; intros st.
  - split; [| reflexivity]. intros q rest Hq%lower_quit_iff.
    cbn [app functions.chat_loop ask_all]. by destruct (decide (lower q = "quit")).
  - assert (lower x <> "quit") as Hne by by rewrite lower_quit_iff.
    split; [intros q rest Hq |];
      cbn [app functions.chat_loop ask_all];
      destruct (decide (lower x = "quit")) as [? | _]; try done;
      rewrite bind_assoc; apply bind_ext; intros response st1;
      rewrite bind_assoc; apply bind_ext; intros [] st2.
    + by apply IH.
    + apply IH.
Qed.

End ChatLoop.

(** On the example: a question, then [quit] followed by a blank, which is a
    question too, then the keyword. *)
Lemma chat_loop_spec_witness :
  Forall (fun q => q ∉ quit_spellings) ["What is mitosis?"; "quit "] /\
  functions.chat_loop (svc := cautious_services) "bio"
    (["What is mitosis?"; "quit "] ++ "qUiT" :: ["bye"]) example_state
  = (ask_all (svc := cautious_services) "bio" ["What is mitosis?"; "quit "] ;;
     print "Going back to main menu." ;;
     ret ["bye"])%M example_state.
Proof.
  assert (Forall (fun q => q ∉ quit_spellings) ["What is mitosis?"; "quit "])
    as Hqs.
  { repeat constructor; rewrite <- lower_quit_iff; discriminate. }
  split; [exact Hqs |].
  apply (chat_loop_spec (svc := cautious_services) "bio" _ example_state Hqs).
  rewrite <- lower_quit_iff. reflexivity.
Defined.
(** * What no operation changes in the object *)

Section KeepsDict.
Import Py.

Lemma keeps_ret {A : Type} (a : A) : keeps_ok (ret a).
Proof. intros st a' st' Hd [= <- <-]. done. Qed.

Lemma keeps_raise {A : Type} (e : exn) : keeps_ok (raise (A := A) e).
Proof. intros st a st' _ E. discriminate E. Qed.

Lemma keeps_get_state : keeps_ok get_state.
Proof. intros st a st' Hd [= <- <-]. done. Qed.

Lemma keeps_lift {A : Type} (r : res A) : keeps_ok (lift r).
Proof. intros st a st' Hd. unfold lift. destruct r; intros [= <- <-] || intros [=]. done. Qed.

Lemma keeps_bind {A B : Type} (m : M A) (k : A -> M B) :
  keeps_ok m -> (forall a, keeps_ok (k a)) -> keeps_ok (bind m k).
Proof.
  intros Hm Hk st b st' Hd. unfold bind.
  destruct (m st) as [[a st1] | e] eqn:E; [| done].
  intros Hrun. eapply Hk; [| exact Hrun]. eapply Hm; [exact Hd | exact E].
Qed.

Lemma keeps_set_collections (d : dict Chroma) : keeps_ok (set_collections (Some d)).
Proof. intros st a st' [_ Hs] [= _ <-]. split; [by eexists | exact Hs]. Qed.

Lemma keeps_set_sessions_txt f : keeps_ok (set_sessions_txt f).
Proof. intros st a st' Hd [= _ <-]. exact Hd. Qed.

Lemma keeps_set_chroma_db c : keeps_ok (set_chroma_db c).
Proof. intros st a st' Hd [= _ <-]. exact Hd. Qed.

Lemma keeps_emit e : keeps_ok (emit e).
Proof. intros st a st' Hd [= _ <-]. exact Hd. Qed.

Lemma keeps_print line : keeps_ok (print line).
Proof. apply keeps_emit. Qed.

Lemma keeps_for_each {A : Type} (l : list A) (body : A -> M unit) :
  (forall x, keeps_ok (body x)) -> keeps_ok (for_each l body).
Proof.
  intros Hbody. induction l as [|x l IH]; cbn [for_each].
  - apply keeps_ret.
  - apply keeps_bind; [apply Hbody | intros _; exact IH].
Qed.

End KeepsDict.

Create HintDb keeps discriminated.
#[export] Hint Resolve keeps_ret keeps_raise keeps_get_state keeps_lift
  keeps_set_collections keeps_set_sessions_txt keeps_set_chroma_db
  keeps_emit keeps_print : keeps.

(** Take a computation apart along its binds and case distinctions. *)
Ltac keeps_step :=
  lazymatch goal with
  | |- keeps_ok (bind _ _) => apply keeps_bind; [| intros ?]
  | |- keeps_ok (for_each _ _) => apply keeps_for_each; intros ?
  | |- keeps_ok (match ?x with _ => _ end) => destruct x
  | |- keeps_ok _ => solve [auto with keeps]
  end.
Ltac keeps := repeat keeps_step.

Section KeepsDictMethods.
Import Py.
Context {svc : Services}.

Lemma keeps_Chroma_new name dir : keeps_ok (vectordb.Chroma_new name dir).
Proof. unfold vectordb.Chroma_new. keeps. Qed.

Lemma keeps_collections_contains name : keeps_ok (vectordb.collections_contains name).
Proof. unfold vectordb.collections_contains. keeps. Qed.

Lemma keeps_collections_getitem name : keeps_ok (vectordb.collections_getitem name).
Proof. unfold vectordb.collections_getitem. keeps. Qed.

Lemma keeps_collections_setitem name c : keeps_ok (vectordb.collections_setitem name c).
Proof. unfold vectordb.collections_setitem. keeps. Qed.

Lemma keeps_collections_delitem name : keeps_ok (vectordb.collections_delitem name).
Proof. unfold vectordb.collections_delitem. keeps. Qed.

Hint Resolve keeps_Chroma_new keeps_collections_contains
  keeps_collections_getitem keeps_collections_setitem
  keeps_collections_delitem : keeps.

Lemma keeps_load_all_sessions : keeps_ok vectordb.load_all_sessions.
Proof. unfold vectordb.load_all_sessions. keeps. Qed.

Lemma keeps_save_session_name name : keeps_ok (vectordb._save_session_name name).
Proof. unfold vectordb._save_session_name. keeps. Qed.

Lemma keeps_remove_session_name name : keeps_ok (vectordb._remove_session_name name).
Proof. unfold vectordb._remove_session_name. keeps. Qed.

Hint Resolve keeps_load_all_sessions keeps_save_session_name
  keeps_remove_session_name : keeps.

Lemma keeps_create_session name : keeps_ok (vectordb.create_session name).
Proof. unfold vectordb.create_session. keeps. Qed.

Lemma keeps_print_sessions i names : keeps_ok (vectordb.print_sessions i names).
Proof.
  revert i. induction names as [|name names IH]; intros i;
    cbn [vectordb.print_sessions]; keeps; apply IH.
Qed.

Hint Resolve keeps_create_session keeps_print_sessions : keeps.

Lemma keeps_list_session : keeps_ok vectordb.list_session.
Proof. unfold vectordb.list_session. keeps. Qed.

Lemma keeps_get_session name : keeps_ok (vectordb.get_session name).
Proof. unfold vectordb.get_session. keeps. Qed.

Lemma keeps_chunk_document document : keeps_ok (vectordb.chunk_document document).
Proof. unfold vectordb.chunk_document. keeps. Qed.

Lemma keeps_add_documents c chunks : keeps_ok (vectordb.add_documents c chunks).
Proof. unfold vectordb.add_documents. keeps. Qed.

Lemma keeps_delete_collection c : keeps_ok (vectordb.delete_collection c).
Proof. unfold vectordb.delete_collection. keeps. Qed.

Hint Resolve keeps_list_session keeps_get_session keeps_chunk_document
  keeps_add_documents keeps_delete_collection : keeps.

Lemma keeps_add_file_loop c i l : keeps_ok (vectordb.add_file_loop c i l).
Proof.
  revert i. induction l as [|path l IH]; intros i;
    cbn [vectordb.add_file_loop]; keeps; apply IH.
Qed.

Hint Resolve keeps_add_file_loop : keeps.

Lemma keeps_add_file l name : keeps_ok (vectordb.add_file l name).
Proof. unfold vectordb.add_file. keeps. Qed.

Lemma keeps_delete_session name : keeps_ok (vectordb.delete_session name).
Proof. unfold vectordb.delete_session. keeps. Qed.

Lemma keeps_assistant_init environ : keeps_ok (RAGAssistant.__init__ environ).
Proof. unfold RAGAssistant.__init__. keeps. Qed.

Lemma keeps_query name question k : keeps_ok (RAGAssistant.query name question k).
Proof. unfold RAGAssistant.query. keeps. Qed.

Lemma keeps_clear_screen : keeps_ok functions.clear_screen.
Proof. unfold functions.clear_screen. keeps. Qed.

Hint Resolve keeps_add_file keeps_delete_session keeps_assistant_init
  keeps_query keeps_clear_screen : keeps.

Lemma keeps_cli_create_session inputs : keeps_ok (functions.create_session inputs).
Proof.
  induction inputs as [|line inputs IH]; cbn [functions.create_session]; keeps;
    apply IH.
Qed.

Lemma keeps_ask_session inputs : keeps_ok (functions.ask_session inputs).
Proof.
  induction inputs as [|line inputs IH]; cbn [functions.ask_session]; keeps;
    apply IH.
Qed.

Lemma keeps_chat_loop name inputs : keeps_ok (functions.chat_loop name inputs).
Proof.
  induction inputs as [|line inputs IH]; cbn [functions.chat_loop]; keeps;
    apply IH.
Qed.

Hint Resolve keeps_cli_create_session keeps_ask_session keeps_chat_loop : keeps.

Lemma keeps_start_chat inputs : keeps_ok (functions.start_chat inputs).
Proof. unfold functions.start_chat, functions.list_sessions. keeps. Qed.

Lemma keeps_cli_delete_session inputs : keeps_ok (functions.delete_session inputs).
Proof. unfold functions.delete_session, functions.list_sessions. keeps. Qed.

Lemma keeps_exec {A : Type} (m : M A) st st' :
  keeps_ok m -> object_ok st -> exec m st = Ok st' -> object_ok st'.
Proof.
  intros Hm Hd. unfold exec. destruct (m st) as [[a st1] | e] eqn:E; [| done].
  intros [= <-]. by eapply Hm.
Qed.

(** No operation puts [None] in [collections] or replaces the splitter. *)
Lemma run_op_keeps_ok op st st' :
  object_ok st -> run_op op st = Ok st' -> object_ok st'.
Proof.
  destruct op; cbn [run_op]; apply keeps_exec;
    auto using keeps_start_chat, keeps_cli_delete_session with keeps.
Qed.

Lemma reachable_object_ok st : reachable st -> object_ok st.
Proof.
  induction 1 as [environ w st Hinit | op st st' _ IH Hstep].
  - unfold vectordb.__init__ in Hinit.
    pose proof (keeps_bind vectordb.load_all_sessions _
                  keeps_load_all_sessions
                  (fun _ => keeps_print "Vector database initialized successfully."))
      as Hkeeps.
    eapply Hkeeps; [| exact Hinit]. split; [by eexists | reflexivity].
  - by eapply run_op_keeps_ok.
Qed.

End KeepsDictMethods.

Section ListSession.
Import Py.
Context {svc : Services}.

Lemma with_trace_nil st : with_trace st [] = st.
Proof. apply state_eq; cbn; try done. apply app_nil_r. Qed.

Lemma with_trace_app st es es' :
  with_trace (with_trace st es) es' = with_trace st (es ++ es').
Proof. apply state_eq; cbn; try done. by rewrite app_assoc. Qed.

Lemma print_sessions_spec i names st :
  vectordb.print_sessions i names st = Ok (tt, with_trace st (session_lines i names)).
Proof.
  revert i st. induction names as [|name names IH]; intros i st;
    cbn [vectordb.print_sessions session_lines].
  - unfold ret. by rewrite with_trace_nil.
  - unfold bind, print, emit. rewrite IH. do 2 f_equal.
    apply state_eq; cbn; try done. by rewrite <- app_assoc.
Qed.

Lemma list_session_dict st d :
  collections (db st) = Some d ->
  vectordb.list_session st =
    Ok (tt, with_trace st
              ([Print "List of all Session Names";
                Print "-------------------------"]
               ++ session_lines 0 (dict_keys d)
               ++ [Print "-------------------------"])).
Proof.
  intros Hd. unfold vectordb.list_session, bind, get_state. rewrite Hd.
  unfold print, emit. rewrite print_sessions_spec. do 2 f_equal.
  apply state_eq; cbn; try done. by rewrite <- !app_assoc.
Qed.



End ListSession.

(** * The registry file and the dictionary *)

Section RegistryInvariant.
Import Py.

Lemma create_session_fresh st d name :
  collections (db st) = Some d -> dict_mem name d = false ->
  exists st',
    vectordb.create_session name st = Ok (true, st') /\
    sessions_txt st' = Some (registry_text st +:+ name +:+ nl) /\
    collections (db st') = Some (dict_set name (handle_of st name) d).
Proof.
  intros Hd Hmem. unfold vectordb.create_session, bind.
  rewrite (collections_contains_spec st d), Hmem by done.
  unfold get_state, vectordb.Chroma_new, bind, get_state, set_chroma_db, ret,
    vectordb.collections_setitem, bind, get_state, set_collections,
    vectordb._save_session_name, bind, get_state, set_sessions_txt.
  cbn [db collections sessions_txt chroma_db trace persist_directory].
  rewrite Hd. eexists. split; [reflexivity |]. done.
Qed.

Lemma create_session_returns_true st d name st' :
  collections (db st) = Some d ->
  vectordb.create_session name st = Ok (true, st') -> dict_mem name d = false.
Proof.
  intros Hd. unfold vectordb.create_session, bind.
  rewrite (collections_contains_spec st d) by done.
  destruct (dict_mem name d); [| done]. unfold ret. intros [=].
Qed.

Lemma delete_session_present st d name st' :
  collections (db st) = Some d ->
  vectordb.delete_session name st = Ok (tt, st') ->
  collections (db st') = Some (dict_del name d) /\
  sessions_txt st' =
    match sessions_txt st with
    | None => None
    | Some raw =>
        Some (vectordb.write_names
                (filter (fun n => n <> name) (vectordb.session_names raw)))
    end.
Proof.
  intros Hd. unfold vectordb.delete_session, bind.
  rewrite (collections_getitem_spec st d) by done.
  destruct (dict_get name d) as [collection|] eqn:Hg; [| done].
  assert (dict_mem name d = true) as Hmem by by eapply dict_get_Some_mem.
  unfold vectordb.delete_collection, bind, get_state, set_chroma_db,
    vectordb._remove_session_name, bind, get_state.
  cbn [db collections sessions_txt chroma_db trace].
  destruct (sessions_txt st) as [raw|];
    unfold set_sessions_txt, ret, vectordb.collections_delitem, bind, get_state;
    cbn [db collections sessions_txt chroma_db trace];
    rewrite Hd, Hmem; unfold set_collections, print, emit;
    cbn [db collections sessions_txt chroma_db trace];
    intros [= <-]; done.
Qed.

Lemma list_to_set_filter_ne (names : list string) (name : string) :
  (list_to_set (filter (fun n => n <> name) names) : gset string)
  = list_to_set names ∖ {[name]}.
Proof.
  apply set_eq. intros x.
  rewrite elem_of_difference, elem_of_singleton, !elem_of_list_to_set,
    list_elem_of_filter. tauto.
Qed.

End RegistryInvariant.

(** C9, as stated, fails for [create_session]. With a registry file whose
    last line has no newline, the appended name continues that line; and a
    name with a blank at one end is one key in the dictionary and another
    name, stripped, when the file is read. In both cases the two sets are
    equal before the call and differ after it. *)
Lemma registry_sets_diverge_after_create :
  (registry_set unterminated_state = key_set [("bio", handle_of example_state "bio")] /\
   exists st' d',
     vectordb.create_session "chem" unterminated_state = Ok (true, st') /\
     collections (db st') = Some d' /\
     sessions_txt st' = Some ("biochem" +:+ Py.nl) /\
     registry_set st' <> key_set d') /\
  (registry_set example_state = key_set [("bio", handle_of example_state "bio")] /\
   exists st' d',
     vectordb.create_session " chem" example_state = Ok (true, st') /\
     collections (db st') = Some d' /\
     registry_set st' <> key_set d').
Proof.
  split; (split; [reflexivity |]); eexists; eexists;
    (split; [reflexivity |]); (split; [reflexivity |]).
  - split; [reflexivity |]. intros Heq.
    apply (f_equal (fun s : gset string => bool_decide ("chem" ∈ s))) in Heq.
    vm_compute in Heq. discriminate Heq.
  - intros Heq.
    apply (f_equal (fun s : gset string => bool_decide ("chem" ∈ s))) in Heq.
    vm_compute in Heq. discriminate Heq.
Qed.

Section RegistryInvariantTheorem.
Import Py.

(** C9, amended. Let the set of names in the registry file equal the key set
    of the dictionary. A [create_session] that returns [True] keeps the two
    sets equal provided the file is empty or ends with a newline and the name
    is clean (not empty, no white space at either end, no line break): the
    name is then one more line of the file. A [delete_session] that returns
    keeps them equal in every case: the file then holds the names it held but
    for every line equal to the deleted name. Both leave a file that is empty
    or ends with a newline. *)
Theorem registry_matches_dict_step (st : state) (d : dict Chroma) (name : string) :
  collections (db st) = Some d ->
  registry_set st = key_set d ->
  (newline_terminated (registry_text st) = true ->
   clean_name name = true ->
   forall st',
     vectordb.create_session name st = Ok (true, st') ->
     exists d',
       collections (db st') = Some d' /\
       registry_set st' = key_set d' /\
       registry_names (sessions_txt st')
         = registry_names (sessions_txt st) ++ [name] /\
       newline_terminated (registry_text st') = true) /\
  (forall st',
     vectordb.delete_session name st = Ok (tt, st') ->
     exists d',
       collections (db st') = Some d' /\
       registry_set st' = key_set d' /\
       registry_names (sessions_txt st')
         = filter (fun n => n <> name) (registry_names (sessions_txt st)) /\
       newline_terminated (registry_text st') = true).
Proof.
  intros Hd Hsets. split.
  - intros Hterm Hclean st' Hrun.
    pose proof (create_session_returns_true st d name st' Hd Hrun) as Hmem.
    destruct (create_session_fresh st d name Hd Hmem) as (st1 & Hrun1 & Hfile & Hd1).
    rewrite Hrun in Hrun1. injection Hrun1 as <-.
    exists (dict_set name (handle_of st name) d).
    assert (registry_names (sessions_txt st')
            = registry_names (sessions_txt st) ++ [name]) as Hnames.
    { rewrite Hfile. cbn [registry_names]. rewrite session_names_append by done.
      unfold registry_text. by destruct (sessions_txt st). }
    split; [exact Hd1 |]. split; [| split; [exact Hnames |]].
    + unfold registry_set in *. rewrite Hnames, list_to_set_app_L, Hsets, key_set_set.
      cbn [list_to_set]. rewrite (right_id_L ∅ (∪)). apply (comm_L (∪)).
    + unfold registry_text at 1. rewrite Hfile.
      change (newline_terminated (registry_text st +:+ name +:+ nl) = true).
      unfold newline_terminated. rewrite !last_char_app. done.
  - intros st' Hrun.
    destruct (delete_session_present st d name st' Hd Hrun) as [Hd1 Hfile].
    exists (dict_del name d).
    assert (registry_names (sessions_txt st')
            = filter (fun n => n <> name) (registry_names (sessions_txt st)))
      as Hnames.
    { rewrite Hfile. destruct (sessions_txt st) as [raw|]; [| done].
      cbn [registry_names]. apply registry_names_rewritten. }
    split; [exact Hd1 |]. split; [| split; [exact Hnames |]].
    + unfold registry_set in *.
      by rewrite Hnames, list_to_set_filter_ne, Hsets, key_set_del.
    + unfold registry_text. rewrite Hfile.
      destruct (sessions_txt st) as [raw|]; [| done].
      apply write_names_terminated.
Qed.

End RegistryInvariantTheorem.

(** On the example: [chem] created, the sets equal before and after. *)
Lemma registry_matches_dict_step_witness :
  collections (db example_state) = Some [("bio", handle_of example_state "bio")] /\
  registry_set example_state = key_set [("bio", handle_of example_state "bio")] /\
  Py.newline_terminated (registry_text example_state) = true /\
  Py.clean_name "chem" = true /\
  exists st' d',
    vectordb.create_session "chem" example_state = Ok (true, st') /\
    collections (db st') = Some d' /\
    registry_set st' = key_set d'.
Proof.
  split; [reflexivity |]. split; [reflexivity |]. split; [reflexivity |].
  split; [reflexivity |].
  destruct (registry_matches_dict_step example_state
              [("bio", handle_of example_state "bio")] "chem" eq_refl eq_refl)
    as [Hcreate _].
  eexists. 
  destruct (Hcreate eq_refl eq_refl _ eq_refl) as (d' & Hd' & Hsets & _).
  exists d'. split; [reflexivity |]. split; [exact Hd' | exact Hsets].
Defined.
(** * The splitter *)

Section LengthFacts.
Import Py RecursiveCharacterTextSplitter.

Lemma length_app_s (a b : string) :
  String.length (a +:+ b) = String.length a + String.length b.
Proof. induction a as [|c a IH]; cbn; [done | by rewrite IH]. Qed.

Lemma len_app (a b : string) : len (a +:+ b) = (len a + len b)%Z.
Proof. unfold len. rewrite length_app_s. lia. Qed.

Lemma len_nonneg (s : string) : (0 <= len s)%Z.
Proof. unfold len. lia. Qed.

Lemma length_lstrip (s : string) : String.length (lstrip s) <= String.length s.
Proof.
  induction s as [|c s IH]; cbn; [done |]. destruct (isspace c); cbn; lia.
Qed.

Lemma length_rstrip (s : string) : String.length (rstrip s) <= String.length s.
Proof.
  induction s as [|c s IH]; cbn [rstrip String.length]; [done |].
  destruct (rstrip s) as [|y r].
  - destruct (isspace c); cbn [String.length]; lia.
  - cbn [String.length] in *. lia.
Qed.

Lemma length_strip (s : string) : String.length (strip s) <= String.length s.
Proof.
  unfold strip. etrans; [apply length_rstrip | apply length_lstrip].
Qed.

Lemma len_strip (s : string) : (len (strip s) <= len s)%Z.
Proof. unfold len. pose proof (length_strip s). lia. Qed.

Lemma total_len_cons x (l : list string) : total_len (x :: l) = (len x + total_len l)%Z.
Proof. reflexivity. Qed.

Lemma total_len_nonneg (l : list string) : (0 <= total_len l)%Z.
Proof.
  induction l as [|x l IH]; [done |]. rewrite total_len_cons.
  pose proof (len_nonneg x). lia.
Qed.

Lemma total_len_app (l k : list string) : total_len (l ++ k) = (total_len l + total_len k)%Z.
Proof.
  induction l as [|x l IH]; [reflexivity |].
  rewrite <- app_comm_cons, !total_len_cons, IH. lia.
Qed.

Lemma join_empty (l : list string) : join "" l = glue l.
Proof.
  induction l as [|x [|y l] IH]; [done | |].
  - cbn. by rewrite app_nil_r_s.
  - change (join "" (x :: y :: l)) with (x +:+ "" +:+ join "" (y :: l)).
    rewrite IH. reflexivity.
Qed.

Lemma len_glue (l : list string) : len (glue l) = total_len l.
Proof.
  induction l as [|x l IH]; [done |].
  change (glue (x :: l)) with (x +:+ glue l). by rewrite len_app, IH.
Qed.

Lemma glue_app (l k : list string) : glue (l ++ k) = glue l +:+ glue k.
Proof.
  induction l as [|x l IH]; [done |].
  rewrite <- app_comm_cons. change (glue (x :: ?m)) with (x +:+ glue m).
  by rewrite IH, app_assoc_s.
Qed.

Lemma join_docs_len (l : list string) doc :
  _join_docs l "" = Some doc -> (len doc <= total_len l)%Z.
Proof.
  unfold _join_docs. rewrite join_empty.
  destruct (decide (strip (glue l) = "")); [done |].
  intros [= <-]. rewrite <- len_glue. apply len_strip.
Qed.

End LengthFacts.

Section MergeFacts.
Import Py RecursiveCharacterTextSplitter.
Variable self : t.
Hypothesis overlap_nonneg : (0 <= chunk_overlap self)%Z.
Hypothesis size_nonneg : (0 <= chunk_size self)%Z.

Lemma sep_if_zero b : sep_if 0 b = 0%Z.
Proof. by destruct b. Qed.

(** The [while] loop never runs out of pieces to drop, and what it keeps
    fits the overlap and leaves room for the next piece. *)
Lemma pop_front_spec (_len : Z) (cur : list string) :
  exists cur',
    pop_front self 0 _len cur (total_len cur) = Ok (cur', total_len cur') /\
    (total_len cur' <= chunk_overlap self)%Z /\
    ((total_len cur' + _len <= chunk_size self)%Z \/ total_len cur' = 0%Z).
Proof.
  induction cur as [|d0 rest IH]; cbn [pop_front].
  - rewrite sep_if_zero. change (total_len []) with 0%Z.
    replace (chunk_overlap self <? 0)%Z with false by (symmetry; apply Z.ltb_ge; lia).
    rewrite andb_false_r. cbn. exists []. repeat split; [done | by right].
  - rewrite !sep_if_zero.
    destruct ((chunk_overlap self <? total_len (d0 :: rest))%Z
              || (chunk_size self <? total_len (d0 :: rest) + _len + 0)%Z
                 && (0 <? total_len (d0 :: rest))%Z) eqn:Hcond.
    + replace (total_len (d0 :: rest) - (len d0 + 0))%Z with (total_len rest)
        by (rewrite total_len_cons; lia).
      exact IH.
    + exists (d0 :: rest). split; [done |].
      apply orb_false_iff in Hcond as [Ho Hc]. apply Z.ltb_ge in Ho.
      split; [done |]. apply andb_false_iff in Hc as [Hc | Hc].
      * apply Z.ltb_ge in Hc. left. lia.
      * apply Z.ltb_ge in Hc. right. pose proof (total_len_nonneg (d0 :: rest)). lia.
Qed.

Lemma merge_step_spec (st : merge_state) (d : string) :
  merge_inv self st -> (len d <= chunk_size self)%Z ->
  exists st', merge_step self "" st d = Ok st' /\ merge_inv self st'.
Proof.
  intros (Htot & Hfit & Hdocs) Hd. unfold merge_step.
  change (len "") with 0%Z. rewrite !sep_if_zero.
  destruct (chunk_size self <? total st + len d + 0)%Z eqn:Hcond.
  - destruct (0 <? length (current_doc st))%nat eqn:Hcur.
    + rewrite Htot.
      destruct (pop_front_spec (len d) (current_doc st))
        as (cur' & Hpop & Hover & Hroom).
      rewrite Hpop. cbn [res_bind fst snd docs current_doc total].
      eexists. split; [reflexivity |].
      unfold merge_inv. cbn [docs current_doc total]. rewrite ?sep_if_zero.
      rewrite total_len_app, total_len_cons. change (total_len []) with 0%Z.
      split; [lia |]. split; [lia |].
      destruct (_join_docs (current_doc st) "") as [doc|] eqn:Hjoin; [| done].
      apply Forall_app. split; [done |]. apply Forall_singleton.
      apply join_docs_len in Hjoin. lia.
    + cbn [res_bind]. eexists. split; [reflexivity |].
      apply Nat.ltb_ge in Hcur.
      assert (current_doc st = []) as Hnil by (destruct (current_doc st); [done | cbn in Hcur; lia]).
      unfold merge_inv. cbn [docs current_doc total]. rewrite ?sep_if_zero.
      rewrite Hnil in *. change (total_len []) with 0%Z in Htot.
      rewrite app_nil_l, total_len_cons. change (total_len []) with 0%Z.
      split; [lia |]. split; [lia | done].
  - cbn [res_bind]. eexists. split; [reflexivity |].
    apply Z.ltb_ge in Hcond.
    unfold merge_inv. cbn [docs current_doc total]. rewrite ?sep_if_zero.
    rewrite total_len_app, total_len_cons. change (total_len []) with 0%Z.
    split; [lia |]. split; [lia | done].
Qed.

Lemma merge_loop_spec (splits : list string) (st : merge_state) :
  merge_inv self st ->
  Forall (fun d => (len d <= chunk_size self)%Z) splits ->
  exists st', merge_loop self "" st splits = Ok st' /\ merge_inv self st'.
Proof.
  revert st. induction splits as [|d splits IH]; intros st Hinv Hall.
  - by exists st.
  - apply Forall_cons in Hall as [Hd Hall]. cbn [merge_loop].
    destruct (merge_step_spec st d Hinv Hd) as (st1 & Hstep & Hinv1).
    rewrite Hstep. cbn [res_bind]. by apply IH.
Qed.

(** Merging pieces that each fit a chunk gives chunks that each fit. *)
Lemma merge_splits_bound (splits : list string) :
  Forall (fun d => (len d <= chunk_size self)%Z) splits ->
  exists chunks,
    _merge_splits self splits "" = Ok chunks /\
    Forall (fun doc => (len doc <= chunk_size self)%Z) chunks.
Proof.
  intros Hall. unfold _merge_splits.
  destruct (merge_loop_spec splits {| docs := []; current_doc := []; total := 0 |})
    as (st & Hrun & Htot & Hfit & Hdocs); [| done |].
  { unfold merge_inv. cbn. done. }
  rewrite Hrun. cbn [res_bind]. eexists. split; [reflexivity |].
  destruct (_join_docs (current_doc st) "") as [doc|] eqn:Hjoin; [| done].
  apply Forall_app. split; [done |]. apply Forall_singleton.
  apply join_docs_len in Hjoin. lia.
Qed.

Lemma merge_loop_fit (splits : list string) (st : merge_state) :
  total st = total_len (current_doc st) ->
  (total st + total_len splits <= chunk_size self)%Z ->
  merge_loop self "" st splits
  = Ok {| docs := docs st;
          current_doc := current_doc st ++ splits;
          total := total st + total_len splits |}.
Proof.
  revert st. induction splits as [|d splits IH]; intros st Htot Hfit.
  - cbn [merge_loop]. change (total_len []) with 0%Z.
    rewrite app_nil_r, Z.add_0_r. by destruct st.
  - cbn [merge_loop]. unfold merge_step at 1.
    change (len "") with 0%Z. rewrite !sep_if_zero.
    rewrite total_len_cons in Hfit. pose proof (total_len_nonneg splits).
    replace (chunk_size self <? total st + len d + 0)%Z with false
      by (symmetry; apply Z.ltb_ge; lia).
    cbn [res_bind]. rewrite IH; cbn [docs current_doc total]; rewrite ?sep_if_zero.
    + rewrite <- app_assoc. cbn [app]. do 2 f_equal. rewrite total_len_cons. lia.
    + rewrite total_len_app, total_len_cons. change (total_len []) with 0%Z. lia.
    + lia.
Qed.

(** Pieces that fit one chunk together are merged into one chunk: their
    text, stripped; or into none when that is empty. *)
Lemma merge_splits_fit (splits : list string) :
  (total_len splits <= chunk_size self)%Z ->
  _merge_splits self splits ""
  = Ok (match _join_docs splits "" with
        | Some doc => [doc]
        | None => []
        end).
Proof.
  intros Hfit. unfold _merge_splits. rewrite merge_loop_fit; cbn [total current_doc docs].
  - cbn [res_bind app]. reflexivity.
  - reflexivity.
  - lia.
Qed.

End MergeFacts.

Section PieceFacts.
Import Py RecursiveCharacterTextSplitter.

Lemma split_go_nonempty sep k text : split_go sep k text <> [].
Proof.
  revert k. induction text as [|c text IH]; intros k; cbn [split_go]; [done |].
  destruct k as [|k]; [| apply IH].
  destruct (is_prefix sep (String c text)); [done |].
  by destruct (split_go sep 0 text).
Qed.

Lemma split_go_skip sep (suf rest : string) :
  split_go sep (String.length suf) (suf +:+ rest) = split_go sep 0 rest.
Proof. induction suf as [|c suf IH]; [done | exact IH]. Qed.

Lemma is_prefix_app (p s : string) :
  is_prefix p s = true -> exists rest, s = p +:+ rest.
Proof.
  revert s. induction p as [|a p IH]; intros s; [by exists s |].
  destruct s as [|b s]; cbn [is_prefix]; [done |].
  intros [Hab Hp]%andb_true_iff. apply bool_decide_eq_true in Hab as ->.
  destruct (IH s Hp) as [rest ->]. by exists rest.
Qed.

Lemma glue_cons x (l : list string) : glue (x :: l) = x +:+ glue l.
Proof. reflexivity. Qed.

Lemma glue_keep_at_start_cons sep (l : list string) :
  l <> [] ->
  glue (map (fun p => sep +:+ p) l) = sep +:+ glue (keep_at_start sep l).
Proof.
  destruct l as [|t0 ts]; [done |]. intros _.
  cbn [map keep_at_start]. by rewrite !glue_cons, app_assoc_s.
Qed.

(** The pieces, each with the separator before it, are the text. *)
Lemma glue_split_go sep text :
  sep <> "" -> glue (keep_at_start sep (split_go sep 0 text)) = text.
Proof.
  intros Hsep.
  assert (forall n text, String.length text <= n ->
            glue (keep_at_start sep (split_go sep 0 text)) = text) as Hall;
    [| by apply (Hall (String.length text))].
  clear text. induction n as [|n IH]; intros text Hn.
  - destruct text; [done | cbn in Hn; lia].
  - destruct text as [|c text]; [done |]. cbn [split_go].
    destruct (is_prefix sep (String c text)) eqn:Hpre.
    + destruct sep as [|a sep']; [done |].
      cbn [is_prefix] in Hpre. apply andb_true_iff in Hpre as [Hac Hpre].
      apply bool_decide_eq_true in Hac as ->.
      destruct (is_prefix_app _ _ Hpre) as [rest ->].
      cbn [String.length Nat.pred]. rewrite split_go_skip.
      cbn [keep_at_start]. rewrite glue_cons.
      rewrite glue_keep_at_start_cons by apply split_go_nonempty.
      rewrite IH; [done |]. cbn in Hn. rewrite length_app_s in Hn. lia.
    + pose proof (split_go_nonempty sep 0 text) as Hne.
      pose proof (IH text) as IHt.
      destruct (split_go sep 0 text) as [|p ps]; [done |].
      cbn [keep_at_start] in *. rewrite glue_cons in *.
      change (String c p +:+ ?x) with (String c (p +:+ x)).
      rewrite IHt; [done |]. cbn in Hn. lia.
Qed.

Lemma glue_filter_nonempty (l : list string) :
  glue (filter (fun s => s <> "") l) = glue l.
Proof.
  induction l as [|x l IH]; [done |]. rewrite filter_cons.
  destruct (decide (x <> "")) as [Hx | Hx].
  - by rewrite !glue_cons, IH.
  - apply dec_stable in Hx as ->. by rewrite glue_cons, IH.
Qed.

Lemma split_text_with_regex_glue text sep :
  sep <> "" -> glue (_split_text_with_regex text sep) = text.
Proof.
  intros Hsep. unfold _split_text_with_regex.
  destruct sep as [|a sep']; [done |]. cbn [truthy].
  rewrite glue_filter_nonempty. by apply glue_split_go.
Qed.

Lemma split_text_with_regex_nonempty text sep :
  Forall (fun p => p <> "") (_split_text_with_regex text sep).
Proof.
  unfold _split_text_with_regex. apply Forall_forall.
  intros p [Hp _]%list_elem_of_filter. exact Hp.
Qed.

(** A piece of a glued list sits somewhere in the whole. *)
Lemma glue_elem (l : list string) p :
  p ∈ l -> exists a b, glue l = a +:+ p +:+ b.
Proof.
  induction l as [|x l IH]; [by intros ?%elem_of_nil |].
  intros [-> | Hin]%elem_of_cons.
  - exists "", (glue l). reflexivity.
  - destruct (IH Hin) as (a & b & Hab). exists (x +:+ a), b.
    by rewrite glue_cons, Hab, app_assoc_s.
Qed.

(** Split at a one-character separator, no piece contains the separator. *)
Lemma split_go_char c text :
  Forall (fun p => occurs c p = false) (split_go (String c "") 0 text).
Proof.
  induction text as [|x text IH]; cbn [split_go].
  - by apply Forall_singleton.
  - cbn [is_prefix String.length Nat.pred].
    destruct (bool_decide (c = x)) eqn:Hcx; cbn [andb].
    + by apply Forall_cons.
    + apply bool_decide_eq_false in Hcx.
      assert (bool_decide (x = c) = false) as Hxc
        by (apply bool_decide_eq_false; congruence).
      destruct (split_go (String c "") 0 text) as [|p ps].
      * apply Forall_singleton. cbn [occurs]. by rewrite Hxc.
      * apply Forall_cons in IH as [Hp Hps]. apply Forall_cons. split; [| done].
        cbn [occurs]. by rewrite Hp, Hxc.
Qed.

(** Split at the blank, a piece is a word, or a blank and a word. *)
Lemma split_at_blank_pieces text p :
  p ∈ _split_text_with_regex text " " ->
  exists word,
    occurs " " word = false /\ (p = word \/ p = " " +:+ word).
Proof.
  unfold _split_text_with_regex. cbn [truthy].
  intros [_ Hin]%list_elem_of_filter.
  pose proof (split_go_char " " text) as Hall.
  destruct (split_go " " 0 text) as [|t0 ts]; [by apply elem_of_nil in Hin |].
  apply Forall_cons in Hall as [Ht0 Hts]. cbn [keep_at_start] in Hin.
  apply elem_of_cons in Hin as [-> | Hin].
  - exists t0. split; [done | by left].
  - change (map ?f ts) with (f <$> ts) in Hin.
    apply list_elem_of_fmap in Hin as (word & -> & Hword).
    exists word. split; [| by right].
    by apply (proj1 (Forall_forall _ _) Hts).
Qed.

End PieceFacts.

Section RunFacts.
Import Py RecursiveCharacterTextSplitter.

Lemma run_prefix_len_app (p b : string) :
  run_prefix_len p <= run_prefix_len (p +:+ b).
Proof.
  induction p as [|c p IH]; cbn [run_prefix_len String.append]; [lia |].
  destruct (is_boundary c); lia.
Qed.

Lemma longest_run_prefix (p b : string) :
  longest_run p <= longest_run (p +:+ b).
Proof.
  induction p as [|c p IH]; [cbn; lia |].
  change (String c p +:+ b) with (String c (p +:+ b)).
  cbn [longest_run].
  pose proof (run_prefix_len_app (String c p) b) as H.
  change (String c p +:+ b) with (String c (p +:+ b)) in H. lia.
Qed.

Lemma longest_run_suffix (a b : string) :
  longest_run b <= longest_run (a +:+ b).
Proof.
  induction a as [|c a IH]; [done |].
  change (String c a +:+ b) with (String c (a +:+ b)). cbn [longest_run]. lia.
Qed.

Lemma longest_run_part (text p : string) :
  part_of text p -> longest_run p <= longest_run text.
Proof.
  intros (a & b & ->).
  etrans; [apply (longest_run_prefix p b) | apply longest_run_suffix].
Qed.

Lemma run_prefix_len_run (w : string) :
  occurs LF w = false -> occurs "." w = false -> occurs " " w = false ->
  run_prefix_len w = String.length w.
Proof.
  induction w as [|c w IH]; [done |].
  cbn [occurs run_prefix_len String.length].
  intros [Hc1 Hw1]%orb_false_iff [Hc2 Hw2]%orb_false_iff [Hc3 Hw3]%orb_false_iff.
  unfold is_boundary. rewrite Hc1, Hc2, Hc3. cbn [orb]. by rewrite IH.
Qed.

Lemma longest_run_ge_prefix (s : string) : run_prefix_len s <= longest_run s.
Proof. destruct s as [|c s]; [done |]. cbn [longest_run]. lia. Qed.

(** A stretch of a text without a boundary is no longer than the longest run
    of the text. *)
Lemma run_length_bound (text w : string) :
  occurs LF w = false -> occurs "." w = false -> occurs " " w = false ->
  part_of text w -> String.length w <= longest_run text.
Proof.
  intros H1 H2 H3 Hpart. rewrite <- (run_prefix_len_run w H1 H2 H3).
  etrans; [apply longest_run_ge_prefix | by apply longest_run_part].
Qed.

Lemma occurs_but_first c (s : string) :
  occurs c s = false -> occurs c (but_first s) = false.
Proof. destruct s as [|x s]; [done |]. cbn. by intros [_ ?]%orb_false_iff. Qed.

(** What does not occur in a text after its first character does not occur
    in a part of it after the first character of the part. *)
Lemma but_first_part c (text p : string) :
  occurs c (but_first text) = false -> part_of text p ->
  occurs c (but_first p) = false.
Proof.
  intros Hfree (a & b & ->). destruct a as [|x a].
  - destruct p as [|y p]; [done |]. cbn in Hfree. rewrite occurs_app in Hfree.
    by apply orb_false_iff in Hfree as [? _].
  - cbn in Hfree. rewrite !occurs_app in Hfree.
    apply orb_false_iff in Hfree as [_ [Hp _]%orb_false_iff].
    by apply occurs_but_first.
Qed.

Lemma but_first_part_of (text p : string) :
  part_of text p -> part_of text (but_first p).
Proof.
  intros (a & b & ->). destruct p as [|c p]; cbn [but_first].
  - exists a, b. done.
  - exists (a +:+ String c ""), b. by rewrite !app_assoc_s.
Qed.

Lemma length_but_first (s : string) :
  String.length s <= S (String.length (but_first s)).
Proof. destruct s; cbn; lia. Qed.

Lemma search_char_false c (text : string) :
  search (String c "") text = false -> occurs c text = false.
Proof.
  induction text as [|x text IH]; [done |]. cbn [search is_prefix occurs].
  intros [Hx Ht]%orb_false_iff. rewrite andb_true_r in Hx.
  apply bool_decide_eq_false in Hx.
  rewrite bool_decide_eq_false_2 by congruence. by apply IH.
Qed.

(** Split at a one-character separator, a piece is a stretch without the
    separator, or the separator and such a stretch. *)
Lemma split_at_char_pieces c text p :
  p ∈ _split_text_with_regex text (String c "") ->
  exists seg, occurs c seg = false /\ (p = seg \/ p = String c seg).
Proof.
  unfold _split_text_with_regex. cbn [truthy].
  intros [_ Hin]%list_elem_of_filter.
  pose proof (split_go_char c text) as Hall.
  destruct (split_go (String c "") 0 text) as [|t0 ts];
    [by apply elem_of_nil in Hin |].
  apply Forall_cons in Hall as [Ht0 Hts]. cbn [keep_at_start] in Hin.
  apply elem_of_cons in Hin as [-> | Hin].
  - exists t0. split; [done | by left].
  - change (map ?f ts) with (f <$> ts) in Hin.
    apply list_elem_of_fmap in Hin as (seg & -> & Hseg).
    exists seg. split; [| by right].
    by apply (proj1 (Forall_forall _ _) Hts).
Qed.

Lemma piece_but_first c text p :
  p ∈ _split_text_with_regex text (String c "") ->
  occurs c (but_first p) = false.
Proof.
  intros (seg & Hseg & [-> | ->])%split_at_char_pieces; [| done].
  by apply occurs_but_first.
Qed.

Lemma piece_part_of sep text p :
  sep <> "" -> p ∈ _split_text_with_regex text sep -> part_of text p.
Proof.
  intros Hsep Hp. destruct (glue_elem _ p Hp) as (a & b & Hab).
  rewrite split_text_with_regex_glue in Hab by done. by exists a, b.
Qed.

End RunFacts.

Section SplitFacts.
Import Py RecursiveCharacterTextSplitter.
Variable self : t.
Hypothesis overlap_nonneg : (0 <= chunk_overlap self)%Z.
Hypothesis size_nonneg : (0 <= chunk_size self)%Z.

#[local] Abbreviation fits := (fun chunk : string => (len chunk <= chunk_size self)%Z).
#[local] Abbreviation small := (fun piece : string => (len piece < chunk_size self)%Z).

Lemma flush_bound (st : split_state) :
  Forall fits (final_chunks st) -> Forall small (_good_splits st) ->
  exists st',
    flush self st = Ok st' /\ Forall fits (final_chunks st') /\ _good_splits st' = [].
Proof.
  intros Hfinal Hgood. unfold flush.
  destruct (_good_splits st) as [|g gs] eqn:Hg; [by exists st |].
  destruct (merge_splits_bound self overlap_nonneg size_nonneg (g :: gs))
    as (merged & Hrun & Hmerged).
  { eapply Forall_impl; [exact Hgood |]. cbn. lia. }
  rewrite Hrun. cbn [res_bind]. eexists. split; [reflexivity |].
  cbn [final_chunks _good_splits]. split; [| done]. by apply Forall_app.
Qed.

Lemma split_loop_bound deeper (pieces : list string) (st : split_state) :
  Forall fits (final_chunks st) -> Forall small (_good_splits st) ->
  (forall p, p ∈ pieces -> (chunk_size self <= len p)%Z -> piece_ok self deeper p) ->
  exists st',
    split_loop self deeper st pieces = Ok st' /\
    Forall fits (final_chunks st') /\ Forall small (_good_splits st').
Proof.
  revert st. induction pieces as [|p pieces IH]; intros st Hfinal Hgood Hok.
  - by exists st.
  - cbn [split_loop].
    assert (forall q, q ∈ pieces -> (chunk_size self <= len q)%Z ->
                      piece_ok self deeper q) as Hok'.
    { intros q Hq. apply Hok. by right. }
    destruct (len p <? chunk_size self)%Z eqn:Hsmall; cbn [res_bind].
    + apply Z.ltb_lt in Hsmall. apply IH; cbn [final_chunks _good_splits]; try done.
      apply Forall_app. split; [done | by apply Forall_singleton].
    + apply Z.ltb_ge in Hsmall.
      destruct (flush_bound st Hfinal Hgood) as (st1 & Hflush & Hfinal1 & Hgood1).
      rewrite Hflush. cbn [res_bind].
      pose proof (Hok p ltac:(by left) Hsmall) as Hp. unfold piece_ok in Hp.
      destruct deeper as [rec|].
      * destruct Hp as (chunks & Hrec & Hchunks). rewrite Hrec. cbn [res_bind].
        apply IH; cbn [final_chunks _good_splits]; try done.
        -- by apply Forall_app.
        -- by rewrite Hgood1.
      * cbn [res_bind]. apply IH; cbn [final_chunks _good_splits]; try done.
        -- apply Forall_app. split; [done | by apply Forall_singleton].
        -- by rewrite Hgood1.
Qed.

Lemma split_with_bound sep deeper text :
  (forall p, p ∈ _split_text_with_regex text sep ->
             (chunk_size self <= len p)%Z -> piece_ok self deeper p) ->
  exists chunks, split_with self sep deeper text = Ok chunks /\ Forall fits chunks.
Proof.
  intros Hok. unfold split_with.
  destruct (split_loop_bound deeper (_split_text_with_regex text sep)
              {| final_chunks := []; _good_splits := [] |})
    as (st & Hrun & Hfinal & Hgood); [done | done | exact Hok |].
  rewrite Hrun. cbn [res_bind].
  destruct (flush_bound st Hfinal Hgood) as (st1 & Hflush & Hfinal1 & _).
  rewrite Hflush. cbn [res_bind]. by exists (final_chunks st1).
Qed.

Lemma split_loop_small deeper (pieces : list string) (st : split_state) :
  Forall small pieces ->
  split_loop self deeper st pieces
  = Ok {| final_chunks := final_chunks st;
          _good_splits := _good_splits st ++ pieces |}.
Proof.
  revert st. induction pieces as [|p pieces IH]; intros st Hall.
  - cbn [split_loop]. rewrite app_nil_r. by destruct st.
  - apply Forall_cons in Hall as [Hp Hall]. cbn [split_loop].
    apply Z.ltb_lt in Hp. rewrite Hp. cbn [res_bind].
    rewrite IH by done. cbn [final_chunks _good_splits].
    by rewrite <- app_assoc.
Qed.

(** The pieces of a text that fits one chunk are all small, or the text is
    the only piece. *)
Lemma pieces_of_short_text (pieces : list string) (text : string) :
  Forall (fun p => p <> "") pieces -> glue pieces = text ->
  (len text <= chunk_size self)%Z ->
  Forall small pieces \/ (pieces = [text] /\ len text = chunk_size self).
Proof.
  intros Hne Hglue Hlen.
  assert (forall p : string, p <> "" -> (1 <= len p)%Z) as Hpos.
  { intros [|c p] Hp; [done |]. unfold len. cbn [String.length]. lia. }
  pose proof (len_glue pieces) as Htot. rewrite Hglue in Htot.
  destruct pieces as [|p [|q pieces]].
  - left. done.
  - cbn in Hglue. rewrite app_nil_r_s in Hglue. subst p.
    destruct (decide (len text < chunk_size self)%Z).
    + left. by apply Forall_singleton.
    + right. split; [done | lia].
  - left. rewrite !total_len_cons in Htot.
    apply Forall_cons in Hne as [Hp Hne]. apply Forall_cons in Hne as [Hq Hne].
    pose proof (Hpos p Hp). pose proof (Hpos q Hq).
    pose proof (total_len_nonneg pieces) as Hrest.
    apply Forall_cons. split; [cbn; lia |].
    apply Forall_cons. split; [cbn; lia |].
    apply Forall_forall. intros x Hx. cbn.
    assert (len x <= total_len pieces)%Z; [| lia].
    clear -Hx. induction pieces as [|y pieces IH]; [by apply elem_of_nil in Hx |].
    rewrite total_len_cons. pose proof (len_nonneg y).
    pose proof (total_len_nonneg pieces).
    apply elem_of_cons in Hx as [-> | Hx]; [lia |]. specialize (IH Hx). lia.
Qed.

Lemma join_docs_glue (pieces : list string) :
  match _join_docs pieces "" with
  | Some doc => [doc]
  | None => []
  end = one_chunk (glue pieces).
Proof.
  unfold _join_docs, one_chunk. rewrite join_empty.
  by destruct (decide (strip (glue pieces) = "")).
Qed.

(** [split_with] on a text that fits one chunk: the pieces are merged into
    the text, stripped; or the text, being the only piece and as long as a
    chunk, is handed to the deeper call, or kept as it is when there is
    none. *)
Lemma split_with_short sep deeper text :
  sep <> "" -> (len text <= chunk_size self)%Z ->
  split_with self sep deeper text = Ok (one_chunk text) \/
  (len text = chunk_size self /\
   split_with self sep deeper text =
     match deeper with
     | None => Ok [text]
     | Some rec => res_bind (rec text) (fun chunks => Ok chunks)
     end).
Proof.
  intros Hsep Hlen. unfold split_with.
  destruct (pieces_of_short_text (_split_text_with_regex text sep) text
              (split_text_with_regex_nonempty text sep)
              (split_text_with_regex_glue text sep Hsep) Hlen)
    as [Hsmall | [Hone Hfull]].
  - left. rewrite split_loop_small by done. cbn [res_bind app final_chunks].
    unfold flush. cbn [_good_splits].
    pose proof (split_text_with_regex_glue text sep Hsep) as Hglue.
    destruct (_split_text_with_regex text sep) as [|p pieces].
    + cbn [res_bind final_chunks]. rewrite <- Hglue. reflexivity.
    + cbn [app].
      rewrite (merge_splits_fit self (p :: pieces))
        by (by rewrite <- len_glue, Hglue).
      cbn [res_bind final_chunks app]. by rewrite join_docs_glue, Hglue.
  - right. split; [done |]. rewrite Hone. cbn [split_loop].
    replace (len text <? chunk_size self)%Z with false
      by (symmetry; apply Z.ltb_ge; lia).
    cbn [res_bind flush _good_splits final_chunks app].
    destruct deeper as [rec|]; [| done].
    destruct (rec text) as [chunks|e]; done.
Qed.

(** A text that fits one chunk gives the chunk [one_chunk] describes, or,
    when it is exactly as long as a chunk, possibly itself unstripped. *)
Lemma split_text_rec_short (rest : list string) (s text : string) :
  Forall (fun sep => sep <> "") (s :: rest) ->
  (len text <= chunk_size self)%Z ->
  _split_text self s rest text = Ok (one_chunk text) \/
  (len text = chunk_size self /\ _split_text self s rest text = Ok [text]).
Proof.
  revert s. induction rest as [|s' rest' IH]; intros s Hseps Hlen;
    apply Forall_cons in Hseps as [Hs Hseps]; cbn [_split_text];
    (destruct (decide (s = "")) as [? | _]; [done |]).
  - destruct (split_with_short s None text Hs Hlen) as [H | [Hfull H]];
      destruct (search s text); auto.
  - destruct (search s text); [| by apply IH].
    destruct (split_with_short s (Some (_split_text self s' rest')) text Hs Hlen)
      as [H | [Hfull H]]; [by left |].
    rewrite H. destruct (IH s' Hseps Hlen) as [H' | [_ H']]; rewrite H'; auto.
Qed.

End SplitFacts.

Section RunBound.
Import Py RecursiveCharacterTextSplitter.
Variable self : t.
Hypothesis overlap_nonneg : (0 <= chunk_overlap self)%Z.
Hypothesis size_nonneg : (0 <= chunk_size self)%Z.

#[local] Abbreviation fits :=
  (fun chunk : string => (len chunk <= chunk_size self)%Z).

(** Split at the blank, with nothing finer to split at: the chunks fit when
    a newline or a full stop is at most the first character of the text, and
    no run is as long as a chunk. *)
Lemma split_at_blank_runs (text : string) :
  occurs LF (but_first text) = false -> occurs "." (but_first text) = false ->
  (Z.of_nat (longest_run text) < chunk_size self)%Z ->
  exists chunks, _split_text self " " [] text = Ok chunks /\ Forall fits chunks.
Proof.
  intros Hlf Hstop Hrun.
  assert (exists chunks, split_with self " " None text = Ok chunks
                         /\ Forall fits chunks) as Hblank.
  { apply (split_with_bound self overlap_nonneg size_nonneg).
    intros p Hp _. cbn [piece_ok].
    pose proof (piece_part_of " " text p ltac:(done) Hp) as Hpart.
    pose proof (run_length_bound text (but_first p)
                  (but_first_part _ _ _ Hlf Hpart)
                  (but_first_part _ _ _ Hstop Hpart)
                  (piece_but_first " " text p Hp)
                  (but_first_part_of _ _ Hpart)) as Hb.
    pose proof (length_but_first p). unfold len. lia. }
  cbn [_split_text]. destruct (decide (" " = "")) as [E | _]; [discriminate E |].
  by destruct (search " " text).
Qed.

Lemma split_at_stop_runs (text : string) :
  occurs LF (but_first text) = false ->
  (Z.of_nat (longest_run text) < chunk_size self)%Z ->
  exists chunks,
    _split_text self "." [" "] text = Ok chunks /\ Forall fits chunks.
Proof.
  intros Hlf Hrun. cbn [_split_text].
  destruct (decide ("." = "")) as [E | _]; [discriminate E |].
  destruct (search "." text) eqn:Hsearch.
  - apply (split_with_bound self overlap_nonneg size_nonneg).
    intros p Hp _. cbn [piece_ok].
    pose proof (piece_part_of "." text p ltac:(done) Hp) as Hpart.
    apply split_at_blank_runs.
    + by eapply but_first_part.
    + by apply (piece_but_first "." text).
    + pose proof (longest_run_part text p Hpart). lia.
  - apply split_at_blank_runs; [done | | done].
    by apply occurs_but_first, search_char_false.
Qed.

Lemma split_at_newline_runs (text : string) :
  (Z.of_nat (longest_run text) < chunk_size self)%Z ->
  exists chunks,
    _split_text self nl ["."; " "] text = Ok chunks /\ Forall fits chunks.
Proof.
  intros Hrun. cbn [_split_text].
  destruct (decide (nl = "")) as [E | _]; [discriminate E |].
  destruct (search nl text) eqn:Hsearch.
  - apply (split_with_bound self overlap_nonneg size_nonneg).
    intros p Hp _. cbn [piece_ok].
    pose proof (piece_part_of nl text p ltac:(done) Hp) as Hpart.
    apply split_at_stop_runs.
    + by apply (piece_but_first LF text).
    + pose proof (longest_run_part text p Hpart). lia.
  - apply split_at_stop_runs; [| done].
    by apply occurs_but_first, search_char_false.
Qed.

(** With the separators blank line, newline, full stop and blank,
    [_split_text] returns chunks that fit when no run of the text is as long
    as a chunk. *)
Lemma split_text_runs (text : string) :
  (Z.of_nat (longest_run text) < chunk_size self)%Z ->
  exists chunks,
    _split_text self (nl +:+ nl) [nl; "."; " "] text = Ok chunks
    /\ Forall fits chunks.
Proof.
  intros Hrun. cbn [_split_text].
  destruct (decide (nl +:+ nl = "")) as [E | _]; [discriminate E |].
  destruct (search (nl +:+ nl) text).
  - apply (split_with_bound self overlap_nonneg size_nonneg).
    intros p Hp _. cbn [piece_ok].
    pose proof (piece_part_of (nl +:+ nl) text p ltac:(done) Hp) as Hpart.
    apply split_at_newline_runs.
    pose proof (longest_run_part text p Hpart). lia.
  - by apply split_at_newline_runs.
Qed.

End RunBound.

Section ConfiguredSplitter.
Import Py RecursiveCharacterTextSplitter.

Lemma config_separators_nonempty :
  Forall (fun sep => sep <> "") (separators vectordb.splitter_config).
Proof. repeat constructor; discriminate. Qed.

Lemma config_split_text_bound (text : string) :
  longest_run text < 500 ->
  exists chunks,
    split_text vectordb.splitter_config text = Ok chunks /\
    Forall (fun chunk => String.length chunk <= 500) chunks.
Proof.
  intros Hlong.
  destruct (split_text_runs vectordb.splitter_config
              ltac:(cbn; lia) ltac:(cbn; lia) text)
    as (chunks & Hrun & Hfits).
  { cbn. lia. }
  exists chunks. split; [exact Hrun |].
  eapply Forall_impl; [exact Hfits |]. cbn. unfold len. lia.
Qed.

Lemma config_split_text_short (text : string) :
  String.length text <= 500 ->
  split_text vectordb.splitter_config text = Ok (one_chunk text) \/
  (String.length text = 500 /\
   split_text vectordb.splitter_config text = Ok [text]).
Proof.
  intros Hlen.
  destruct (split_text_rec_short vectordb.splitter_config
              [nl; "."; " "] (nl +:+ nl) text config_separators_nonempty)
    as [H | [Hfull H]].
  - cbn. unfold len. lia.
  - by left.
  - right. split; [| exact H]. cbn in Hfull. unfold len in Hfull. lia.
Qed.

Lemma split_documents_bound (documents : list Document) :
  Forall (fun doc => longest_run (page_content doc) < 500) documents ->
  exists chunks,
    split_documents vectordb.splitter_config documents = Ok chunks /\
    Forall (fun chunk => String.length (page_content chunk) <= 500) chunks.
Proof.
  induction 1 as [|doc documents Hdoc _ (others & Hrun & Hothers)].
  - by exists [].
  - destruct (config_split_text_bound _ Hdoc) as (chunks & Hsplit & Hchunks).
    cbn [split_documents]. unfold split_document. rewrite Hsplit.
    cbn [res_bind]. rewrite Hrun. cbn [res_bind]. eexists. split; [reflexivity |].
    apply Forall_app. split; [| done]. apply Forall_forall.
    intros chunk (text & -> & Hin)%list_elem_of_fmap. cbn [page_content].
    by apply (proj1 (Forall_forall _ _) Hchunks).
Qed.

Lemma chunk_document_run (st : state) (document : list Document) :
  vectordb.chunk_document document st
  = match split_documents (textsplitter (db st)) document with
    | Ok chunks => Ok (chunks, st)
    | Raise e => Raise e
    end.
Proof. reflexivity. Qed.

End ConfiguredSplitter.

(** C7, as stated, fails on both counts. A page without text has at most 500
    characters and gives no chunk; a page that is one word of 501 letters
    gives one chunk of 501 characters, the separators offering no place to cut
    it. *)
Lemma chunking_counts_and_sizes_fail :
  (String.length (page_content blank_page) <= 500 /\
   vectordb.chunk_document [blank_page] example_state = Ok ([], example_state)) /\
  (500 < String.length (page_content long_word_page) /\
   vectordb.chunk_document [long_word_page] example_state
   = Ok ([long_word_page], example_state) /\
   String.length (page_content long_word_page) = 501).
Proof.
  split; [split; [cbn; lia | reflexivity] |].
  split; [vm_compute; lia |]. split; [| reflexivity].
  vm_compute. reflexivity.
Qed.

Section Chunking.
Import Py RecursiveCharacterTextSplitter.
Context {svc : Services}.

(** C7, amended. In every state the program can reach the splitter is the one
    configured with a chunk size of 500, an overlap of 100 and the separators
    blank line, newline, full stop and blank, in this order and with nothing
    finer after them. With it, a page of at most 500 characters that is not
    all white space gives exactly one chunk: its text, stripped (or, for a
    page of exactly 500 characters, possibly unstripped); a page of fewer
    than 500 characters that is all white space gives none; and the chunks of
    any pages, however long, are of at most 500 characters each when no page
    has a run of 500 characters or more without a newline, a full stop or a
    blank. *)
Theorem chunk_document_spec (st : state) :
  reachable st ->
  textsplitter (db st)
    = {| chunk_size := 500; chunk_overlap := 100;
         separators := [nl +:+ nl; nl; "."; " "] |} /\
  (forall doc,
     String.length (page_content doc) <= 500 ->
     strip (page_content doc) <> "" ->
     exists chunk,
       vectordb.chunk_document [doc] st
         = Ok ([{| page_content := chunk; metadata := metadata doc |}], st) /\
       (chunk = strip (page_content doc) \/
        (chunk = page_content doc /\ String.length chunk = 500))) /\
  (forall doc,
     String.length (page_content doc) < 500 ->
     strip (page_content doc) = "" ->
     vectordb.chunk_document [doc] st = Ok ([], st)) /\
  (forall documents,
     Forall (fun doc => longest_run (page_content doc) < 500) documents ->
     exists chunks,
       vectordb.chunk_document documents st = Ok (chunks, st) /\
       Forall (fun chunk => String.length (page_content chunk) <= 500) chunks).
Proof.
  intros [_ Hcfg]%reachable_object_ok. split; [exact Hcfg |].
  split; [| split].
  - intros doc Hlen Hne. rewrite chunk_document_run, Hcfg.
    cbn [split_documents]. unfold split_document.
    destruct (config_split_text_short (page_content doc) Hlen) as [H | [Hfull H]];
      rewrite H; cbn [res_bind app].
    + unfold one_chunk. destruct (decide (strip (page_content doc) = "")); [done |].
      eexists. split; [reflexivity | by left].
    + eexists. split; [reflexivity |]. right. done.
  - intros doc Hlen Hblank. rewrite chunk_document_run, Hcfg.
    cbn [split_documents]. unfold split_document.
    destruct (config_split_text_short (page_content doc)) as [H | [Hfull H]];
      [lia | | lia].
    rewrite H. unfold one_chunk.
    destruct (decide (strip (page_content doc) = "")); [done | done].
  - intros documents Hruns. rewrite chunk_document_run, Hcfg.
    destruct (split_documents_bound documents Hruns) as (chunks & Hrun & Hfits).
    rewrite Hrun. by exists chunks.
Qed.

End Chunking.

Lemma started_state_reachable {svc : Services} : reachable started_state.
Proof.
  apply (reachable_init ∅
           {| w_sessions_txt := Some ("bio" +:+ Py.nl);
              w_chroma_db := ∅; w_trace := [] |}).
  reflexivity.
Qed.

(** On the example: a page of 601 characters in two lines gives two chunks
    of 300 characters. *)
Lemma chunk_document_spec_witness :
  reachable (svc := cautious_services) started_state /\
  String.length (page_content two_line_page) = 601 /\
  Forall (fun doc => longest_run (page_content doc) < 500) [two_line_page] /\
  vectordb.chunk_document [two_line_page] started_state
  = Ok ([ {| page_content := replicate_char 300 "a";
             metadata := metadata two_line_page |};
          {| page_content := replicate_char 300 "b";
             metadata := metadata two_line_page |} ], started_state) /\
  exists chunks,
    vectordb.chunk_document [two_line_page] started_state
      = Ok (chunks, started_state) /\
    Forall (fun chunk => String.length (page_content chunk) <= 500) chunks.
Proof.
  assert (Forall (fun doc => longest_run (page_content doc) < 500)
            [two_line_page]) as Hruns.
  { apply Forall_singleton. vm_compute. lia. }
  split; [apply started_state_reachable |].
  split; [vm_compute; reflexivity |]. split; [exact Hruns |].
  split; [vm_compute; reflexivity |].
  destruct (chunk_document_spec (svc := cautious_services) started_state
              started_state_reachable) as (_ & _ & _ & Hbound).
  exact (Hbound [two_line_page] Hruns).
Defined.
(** * What only reads *)

Section ReadsOnly.
Import Py.

Lemma reads_ret {A : Type} (a : A) : reads_only (ret a).
Proof. intros st a' st' [= <- <-]. exists []. by rewrite with_trace_nil. Qed.

Lemma reads_raise {A : Type} (e : exn) : reads_only (raise (A := A) e).
Proof. intros st a st' E. discriminate E. Qed.

Lemma reads_get_state : reads_only get_state.
Proof. intros st a st' [= <- <-]. exists []. by rewrite with_trace_nil. Qed.

Lemma reads_lift {A : Type} (r : res A) : reads_only (lift r).
Proof.
  intros st a st'. unfold lift. destruct r; [| done].
  intros [= <- <-]. exists []. by rewrite with_trace_nil.
Qed.

Lemma reads_emit e : reads_only (emit e).
Proof. intros st a st' [= _ <-]. by exists [e]. Qed.

Lemma reads_print line : reads_only (print line).
Proof. apply reads_emit. Qed.

Lemma reads_bind {A B : Type} (m : M A) (k : A -> M B) :
  reads_only m -> (forall a, reads_only (k a)) -> reads_only (bind m k).
Proof.
  intros Hm Hk st b st'. unfold bind.
  destruct (m st) as [[a st1] | e] eqn:E; [| done].
  intros Hrun. destruct (Hm _ _ _ E) as [es ->].
  destruct (Hk _ _ _ _ Hrun) as [es' ->]. exists (es ++ es').
  apply with_trace_app.
Qed.

End ReadsOnly.

Create HintDb reads discriminated.
#[export] Hint Resolve reads_ret reads_raise reads_get_state reads_lift
  reads_emit reads_print : reads.

(** Take a computation apart along its binds and case distinctions. *)
Ltac reads_step :=
  lazymatch goal with
  | |- reads_only (bind _ _) => apply reads_bind; [| intros ?]
  | |- reads_only (match ?x with _ => _ end) => destruct x
  | |- reads_only _ => solve [auto with reads]
  end.
Ltac reads := repeat reads_step.

Section ReadsOnlyMethods.
Import Py.
Context {svc : Services}.

Lemma reads_collections_contains name : reads_only (vectordb.collections_contains name).
Proof. unfold vectordb.collections_contains. reads. Qed.

Lemma reads_collections_getitem name : reads_only (vectordb.collections_getitem name).
Proof. unfold vectordb.collections_getitem. reads. Qed.

Hint Resolve reads_collections_contains reads_collections_getitem : reads.

Lemma reads_get_session name : reads_only (vectordb.get_session name).
Proof. unfold vectordb.get_session. reads. Qed.

Lemma reads_print_sessions i names : reads_only (vectordb.print_sessions i names).
Proof.
  revert i. induction names as [|name names IH]; intros i;
    cbn [vectordb.print_sessions]; reads; apply IH.
Qed.

Hint Resolve reads_get_session reads_print_sessions : reads.

Lemma reads_list_session : reads_only vectordb.list_session.
Proof. unfold vectordb.list_session. reads. Qed.

Lemma reads_chunk_document document : reads_only (vectordb.chunk_document document).
Proof. unfold vectordb.chunk_document. reads. Qed.

Lemma reads_query name question k : reads_only (RAGAssistant.query name question k).
Proof. unfold RAGAssistant.query. reads. Qed.

Lemma reads_assistant_init environ : reads_only (RAGAssistant.__init__ environ).
Proof. unfold RAGAssistant.__init__. reads. Qed.

Lemma reads_clear_screen : reads_only functions.clear_screen.
Proof. unfold functions.clear_screen. reads. Qed.

Hint Resolve reads_list_session reads_chunk_document reads_query
  reads_assistant_init reads_clear_screen : reads.

Lemma reads_ask_session inputs : reads_only (functions.ask_session inputs).
Proof.
  induction inputs as [|line inputs IH]; cbn [functions.ask_session]; reads;
    apply IH.
Qed.

Lemma reads_chat_loop name inputs : reads_only (functions.chat_loop name inputs).
Proof.
  induction inputs as [|line inputs IH]; cbn [functions.chat_loop]; reads;
    apply IH.
Qed.

Lemma reads_ask_all name qs : reads_only (ask_all name qs).
Proof.
  induction qs as [|q qs IH]; cbn [ask_all]; reads; apply IH.
Qed.

Lemma reads_collect_documents l inputs : reads_only (functions.collect_documents l inputs).
Proof.
  revert l. induction inputs as [|line inputs IH]; intros l;
    cbn [functions.collect_documents]; reads; apply IH.
Qed.

Hint Resolve reads_ask_session reads_chat_loop reads_ask_all
  reads_collect_documents : reads.

(** X1. A chat changes nothing: whatever is typed, when [start_chat] returns
    the object with its dictionary, the registry file and the store are what
    they were; only the output has grown. *)
Theorem start_chat_reads_only (inputs : list string) (st : state)
    (rest : list string) (st' : state) :
  functions.start_chat inputs st = Ok (rest, st') ->
  exists es, st' = with_trace st es.
Proof.
  assert (reads_only (functions.start_chat inputs)) as Hreads.
  { unfold functions.start_chat, functions.list_sessions. reads. }
  apply Hreads.
Qed.

End ReadsOnlyMethods.

(** On the example: a chat of one question. *)
Lemma start_chat_reads_only_witness :
  exists es,
    functions.start_chat (svc := cautious_services)
      ["bio"; "What is mitosis?"; "quit"] example_state
    = Ok ([], with_trace example_state es).
Proof.
  destruct (start_chat_reads_only (svc := cautious_services)
              ["bio"; "What is mitosis?"; "quit"] example_state []
              (with_trace example_state
                 [Print "List of all Session Names";
                  Print "-------------------------";
                  Print "Session no 1: bio";
                  Print "-------------------------";
                  SimilaritySearch "bio" "What is mitosis?" 5;
                  LLMInvoke (prompt_of "bio" "What is mitosis?" example_chunks);
                  Print ("Answer: " +:+ RAGAssistant.fallback);
                  Print "Going back to main menu.";
                  Sleep 2; ClearScreen]) eq_refl) as [es Hes].
  exists es. by rewrite <- Hes.
Defined.
(** * The loops of the shell *)

Section ShellRuns.
Import Py.

Lemma create_session_run st d name :
  collections (db st) = Some d -> dict_mem name d = false ->
  vectordb.create_session name st = Ok (true, after_create name d st).
Proof.
  intros Hd Hmem. unfold vectordb.create_session, bind.
  rewrite (collections_contains_spec st d), Hmem by done.
  unfold get_state, vectordb.Chroma_new, bind, get_state, set_chroma_db, ret,
    vectordb.collections_setitem, bind, get_state, set_collections,
    vectordb._save_session_name, bind, get_state, set_sessions_txt.
  cbn [db collections sessions_txt chroma_db trace persist_directory].
  by rewrite Hd.
Qed.

Lemma create_session_taken st d name :
  collections (db st) = Some d -> dict_mem name d = true ->
  vectordb.create_session name st = Ok (false, st).
Proof.
  intros Hd Hmem. unfold vectordb.create_session, bind.
  by rewrite (collections_contains_spec st d), Hmem by done.
Qed.

Lemma delete_session_run st d name collection :
  collections (db st) = Some d -> dict_get name d = Some collection ->
  vectordb.delete_session name st = Ok (tt, after_delete name collection d st).
Proof.
  intros Hd Hg. unfold vectordb.delete_session, bind.
  rewrite (collections_getitem_spec st d), Hg by done.
  assert (dict_mem name d = true) as Hmem by by eapply dict_get_Some_mem.
  unfold vectordb.delete_collection, bind, get_state, set_chroma_db,
    vectordb._remove_session_name, bind, get_state.
  cbn [db collections sessions_txt chroma_db trace].
  unfold after_delete.
  destruct (sessions_txt st) as [raw|];
    unfold set_sessions_txt, ret, vectordb.collections_delitem, bind, get_state;
    cbn [db collections sessions_txt chroma_db trace];
    rewrite Hd, Hmem; reflexivity.
Qed.

Lemma list_sessions_run st d :
  collections (db st) = Some d ->
  functions.list_sessions st = Ok (tt, with_trace st (listing d)).
Proof. apply list_session_dict. Qed.

Lemma refusals_app (l k : list string) : refusals (l ++ k) = refusals l ++ refusals k.
Proof. unfold refusals. apply flat_map_app. Qed.

Lemma ask_session_run (st : state) (d : dict Chroma) (missing : list string) :
  collections (db st) = Some d ->
  Forall (fun line => dict_mem line d = false) missing ->
  (forall name rest,
     dict_mem name d = true ->
     functions.ask_session (missing ++ name :: rest) st
     = Ok ((name, rest), with_trace st (refusals missing))) /\
  functions.ask_session missing st = Raise EOFError.
Proof.
  intros Hd Hmiss. revert st Hd.
  induction Hmiss as [|line missing Hline _ IH]; intros st Hd.
  - split; [| reflexivity]. intros name rest Hname.
    cbn [app functions.ask_session]. unfold bind.
    destruct (dict_get name d) as [collection|] eqn:Hg.
    + rewrite (get_session_found st d name collection) by done.
      unfold ret. by rewrite with_trace_nil.
    + apply dict_get_None in Hg. congruence.
  - assert (collections (db (with_trace st
              [Print ("[WARN] Session '" +:+ line +:+ "' does not exist.")]))
            = Some d) as Hd1 by done.
    split; [intros name rest Hname |];
      cbn [app functions.ask_session]; unfold bind at 1;
      rewrite (get_session_missing st d) by done;
      unfold bind, print, emit;
      match goal with
      | |- functions.ask_session _ ?s = _ =>
          destruct (IH s Hd) as [IHfound IHnone]
      end.
    + rewrite IHfound by done. do 2 f_equal.
      apply state_eq; cbn; try done. by rewrite <- !app_assoc.
    + exact IHnone.
Qed.

(** X2. The loop that asks for a session returns the first line that is the
    name of a session, just as typed, and leaves the lines after it unread;
    for each line before it, it prints the warning and its message. When no
    line names a session it ends on the exhausted input. Nothing but the
    output changes. *)
Theorem ask_session_spec (st : state) (d : dict Chroma) (missing : list string) :
  collections (db st) = Some d ->
  Forall (fun line => dict_mem line d = false) missing ->
  (forall name rest,
     dict_mem name d = true ->
     functions.ask_session (missing ++ name :: rest) st
     = Ok ((name, rest), with_trace st (refusals missing))) /\
  functions.ask_session missing st = Raise EOFError.
Proof. apply ask_session_run. Qed.

End ShellRuns.

(** On the example: two names that do not exist, then [bio]. *)
Lemma ask_session_spec_witness :
  functions.ask_session ["chem"; "Bio"; "bio"; "x"] example_state
  = Ok (("bio", ["x"]), with_trace example_state (refusals ["chem"; "Bio"])).
Proof.
  apply (ask_session_spec example_state
           [("bio", handle_of example_state "bio")] ["chem"; "Bio"] eq_refl).
  - repeat constructor.
  - reflexivity.
Defined.
Section ShellDelete.
Import Py.

Lemma clear_screen_run st :
  functions.clear_screen st = Ok (tt, with_trace st [Sleep 2; ClearScreen]).
Proof.
  unfold functions.clear_screen, bind, emit. do 2 f_equal.
  apply state_eq; cbn; try done. by rewrite <- app_assoc.
Qed.

(** X3. [delete_session] of the shell deletes the first line that is the name
    of a session: it lists the sessions, refuses the lines before that one,
    deletes the session as [vectordb.delete_session] does and clears the
    screen, leaving the lines after it unread. As it asks until the name
    exists, the [KeyError] of [vectordb.delete_session] cannot happen: when no
    line names a session it ends on the exhausted input. *)
Theorem shell_delete_session_spec (st : state) (d : dict Chroma)
    (missing : list string) :
  collections (db st) = Some d ->
  Forall (fun line => dict_mem line d = false) missing ->
  (forall name rest collection,
     dict_get name d = Some collection ->
     functions.delete_session (missing ++ name :: rest) st
     = Ok (rest,
           with_trace
             (after_delete name collection d
                (with_trace st (listing d ++ refusals missing)))
             [Sleep 2; ClearScreen])) /\
  functions.delete_session missing st = Raise EOFError.
Proof.
  intros Hd Hmiss.
  assert (collections (db (with_trace st (listing d))) = Some d) as Hd1 by done.
  destruct (ask_session_run (with_trace st (listing d)) d missing Hd1 Hmiss)
    as [Hfound Hnone].
  split.
  - intros name rest collection Hg.
    unfold functions.delete_session, bind.
    rewrite (list_sessions_run st d Hd).
    rewrite Hfound by by eapply dict_get_Some_mem.
    cbn [fst snd]. rewrite with_trace_app.
    rewrite (delete_session_run _ d name collection); [| done | done].
    by rewrite clear_screen_run.
  - unfold functions.delete_session, bind.
    rewrite (list_sessions_run st d Hd). by rewrite Hnone.
Qed.

End ShellDelete.

(** On the example: [chem] is refused, [bio] is deleted. *)
Lemma shell_delete_session_spec_witness :
  functions.delete_session ["chem"; "bio"; "x"] example_state
  = Ok (["x"],
        with_trace
          (after_delete "bio" (handle_of example_state "bio")
             [("bio", handle_of example_state "bio")]
             (with_trace example_state
                (listing [("bio", handle_of example_state "bio")]
                 ++ refusals ["chem"])))
          [Sleep 2; ClearScreen]).
Proof.
  apply (shell_delete_session_spec example_state
           [("bio", handle_of example_state "bio")] ["chem"] eq_refl).
  - repeat constructor.
  - reflexivity.
Defined.
Section ShellCreate.
Import Py.

(** X4. [create_session] of the shell creates the session named by the first
    line that, stripped, is not empty and is not a key of the dictionary: the
    name created is the stripped line. Each line before it is refused with
    the message for a blank name or for a name that is taken; the lines after
    it stay unread. When every line is refused the loop ends on the exhausted
    input. *)
Theorem shell_create_session_spec (st : state) (d : dict Chroma)
    (rejected : list string) :
  collections (db st) = Some d ->
  Forall (fun line => strip line = "" \/ dict_mem (strip line) d = true) rejected ->
  (forall line rest,
     strip line <> "" -> dict_mem (strip line) d = false ->
     functions.create_session (rejected ++ line :: rest) st
     = Ok (rest,
           with_trace
             (after_create (strip line) d
                (with_trace st (create_refusal <$> rejected)))
             [Print ("Session '" +:+ strip line +:+ "' created successfully!");
              Sleep 2; ClearScreen])) /\
  functions.create_session rejected st = Raise EOFError.
Proof.
  intros Hd Hrej. revert st Hd.
  induction Hrej as [|r rejected Hr _ IH]; intros st Hd.
  - split; [| reflexivity]. intros line rest Hne Hfree.
    cbn [app functions.create_session fmap list_fmap].
    destruct (strip line) as [|c name] eqn:Hline; [done |]. cbn [truthy negb].
    unfold bind at 1. rewrite (create_session_run st d) by done.
    unfold bind at 1, print, emit. unfold bind at 1.
    rewrite clear_screen_run. unfold ret. do 2 f_equal.
    rewrite with_trace_nil. apply state_eq; cbn; try done.
    by rewrite <- !app_assoc.
  - assert (forall e, collections (db (with_trace st [e])) = Some d) as Hd1 by done.
    assert (forall inputs,
              functions.create_session (r :: inputs) st
              = functions.create_session inputs (with_trace st [create_refusal r]))
      as Hstep.
    { intros inputs. cbn [functions.create_session]. unfold create_refusal.
      destruct (strip r) as [|c name] eqn:Hname; cbn [truthy negb].
      - reflexivity.
      - destruct Hr as [? | Htaken]; [done |].
        unfold bind at 1. rewrite (create_session_taken st d) by done.
        reflexivity. }
    destruct (IH (with_trace st [create_refusal r]) (Hd1 _)) as [IHfound IHnone].
    split.
    + intros line rest Hne Hfree. rewrite <- app_comm_cons, Hstep.
      rewrite IHfound by done. rewrite with_trace_app. reflexivity.
    + by rewrite Hstep.
Qed.

End ShellCreate.

(** On the example: a blank line and the taken name are refused, and a line
    with blanks around [chem] creates [chem]. *)
Lemma shell_create_session_spec_witness :
  functions.create_session ["   "; " bio"; " chem "; "x"] example_state
  = Ok (["x"],
        with_trace
          (after_create "chem" [("bio", handle_of example_state "bio")]
             (with_trace example_state (create_refusal <$> ["   "; " bio"])))
          [Print "Session 'chem' created successfully!"; Sleep 2; ClearScreen]).
Proof.
  apply (shell_create_session_spec example_state
           [("bio", handle_of example_state "bio")] ["   "; " bio"] eq_refl).
  - apply Forall_cons. split; [by left |].
    apply Forall_cons. split; [by right | apply Forall_nil_2].
  - discriminate.
  - reflexivity.
Defined.
(** * Invariants of the shell *)

Section Preserves.
Import Py.
Context (P : state -> Prop).

Lemma preserves_ret {A : Type} (a : A) : preserves P (ret a).
Proof. intros st a' st' HP [= <- <-]. done. Qed.

Lemma preserves_raise {A : Type} (e : exn) : preserves P (raise (A := A) e).
Proof. intros st a st' _ E. discriminate E. Qed.

Lemma preserves_bind {A B : Type} (m : M A) (k : A -> M B) :
  preserves P m -> (forall a, preserves P (k a)) -> preserves P (bind m k).
Proof.
  intros Hm Hk st b st' HP. unfold bind.
  destruct (m st) as [[a st1] | e] eqn:E; [| done].
  intros Hrun. eapply Hk; [| exact Hrun]. eapply Hm; [exact HP | exact E].
Qed.

Lemma preserves_reads {A : Type} (m : M A) :
  trace_blind P -> reads_only m -> preserves P m.
Proof.
  intros Hblind Hreads st a st' HP Hrun.
  destruct (Hreads _ _ _ Hrun) as [es ->]. by apply Hblind.
Qed.

Lemma preserves_set_chroma_db store :
  store_blind P -> preserves P (set_chroma_db store).
Proof. intros Hblind st a st' HP [= _ <-]. by apply (Hblind st store). Qed.

End Preserves.

Section RegistryOk.
Import Py.

Lemma registry_ok_trace_blind : trace_blind registry_ok.
Proof. intros st es (d & Hd & Hsets & Hterm). by exists d. Qed.

Lemma registry_ok_store_blind : store_blind registry_ok.
Proof. intros st store (d & Hd & Hsets & Hterm). by exists d. Qed.

Lemma strip_single_line_clean (line : string) :
  single_line line -> strip line <> "" -> clean_name (strip line) = true.
Proof.
  intros [Hlf Hcr] Hne. apply clean_name_spec.
  split; [done |]. split; [apply strip_idemp |].
  split; by apply occurs_strip_false.
Qed.

Lemma registry_ok_after_create st d name :
  collections (db st) = Some d -> registry_set st = key_set d ->
  newline_terminated (registry_text st) = true ->
  clean_name name = true ->
  registry_ok (after_create name d st).
Proof.
  intros Hd Hsets Hterm Hclean.
  exists (dict_set name (handle_of st name) d). split; [done |]. split.
  - unfold registry_set in *. cbn [after_create sessions_txt registry_names].
    rewrite session_names_append by done.
    assert (vectordb.session_names (registry_text st)
            = registry_names (sessions_txt st)) as ->.
    { unfold registry_text. by destruct (sessions_txt st). }
    rewrite list_to_set_app_L, Hsets, key_set_set. cbn [list_to_set].
    rewrite (right_id_L ∅ (∪)). apply (comm_L (∪)).
  - unfold registry_text at 1. cbn [after_create sessions_txt].
    change (newline_terminated (registry_text st +:+ name +:+ nl) = true).
    unfold newline_terminated. by rewrite !last_char_app.
Qed.

Lemma registry_ok_after_delete st d name collection :
  collections (db st) = Some d -> registry_set st = key_set d ->
  registry_ok (after_delete name collection d st).
Proof.
  intros Hd Hsets. exists (dict_del name d). split; [done |]. split.
  - unfold registry_set in *. cbn [after_delete sessions_txt].
    rewrite key_set_del, <- Hsets, <- list_to_set_filter_ne.
    destruct (sessions_txt st) as [raw|]; [| done].
    cbn [registry_names]. by rewrite registry_names_rewritten.
  - unfold registry_text. cbn [after_delete sessions_txt].
    destruct (sessions_txt st) as [raw|]; [| done].
    apply write_names_terminated.
Qed.

Lemma preserves_registry_shell_create (inputs : list string) :
  Forall single_line inputs ->
  preserves registry_ok (functions.create_session inputs).
Proof.
  intros Hlines st rest st'. revert st.
  induction Hlines as [|line inputs Hline _ IH]; intros st Hok; [done |].
  destruct Hok as (d & Hd & Hsets & Hterm). cbn [functions.create_session].
  destruct (strip line) as [|c name] eqn:Hname; cbn [truthy negb].
  - unfold bind, print, emit. apply IH. by exists d.
  - unfold bind at 1. destruct (dict_mem (String c name) d) eqn:Hmem.
    + rewrite (create_session_taken st d) by done.
      unfold bind, print, emit. apply IH. by exists d.
    + rewrite (create_session_run st d) by done.
      unfold bind at 1, print, emit. unfold bind at 1.
      rewrite clear_screen_run. unfold ret. intros [= _ <-].
      apply registry_ok_trace_blind.
      match goal with
      | |- registry_ok ?s =>
          change s with (with_trace (after_create (String c name) d st)
                           [Print ("Session '" +:+ String c name
                                   +:+ "' created successfully!")])
      end.
      apply registry_ok_trace_blind, registry_ok_after_create; try done.
      rewrite <- Hname. apply strip_single_line_clean; [done |]. by rewrite Hname.
Qed.

(** X5. [create_session] of the shell keeps the registry file and the
    dictionary in agreement: when the names in the file are the keys of the
    dictionary and the file is empty or ends with a newline before the call,
    the same holds after it, whatever lines are typed, as long as no line has
    a line break in it (as the lines [input] returns). *)
Theorem shell_create_keeps_registry (inputs : list string) (st : state)
    (rest : list string) (st' : state) :
  Forall single_line inputs ->
  registry_ok st ->
  functions.create_session inputs st = Ok (rest, st') ->
  registry_ok st'.
Proof.
  intros Hlines Hok Hrun.
  by eapply (preserves_registry_shell_create inputs Hlines st).
Qed.

End RegistryOk.

(** On the example: a line refused and a session created. *)
Lemma shell_create_keeps_registry_witness :
  Forall single_line [" bio"; " chem "; "x"] /\
  registry_ok example_state /\
  registry_ok
    (with_trace
       (after_create "chem" [("bio", handle_of example_state "bio")]
          (with_trace example_state (create_refusal <$> [" bio"])))
       [Print "Session 'chem' created successfully!"; Sleep 2; ClearScreen]).
Proof.
  assert (Forall single_line [" bio"; " chem "; "x"]) as Hlines
    by (repeat constructor).
  assert (registry_ok example_state) as Hok.
  { exists [("bio", handle_of example_state "bio")]. by repeat split. }
  split; [exact Hlines |]. split; [exact Hok |].
  apply (shell_create_keeps_registry [" bio"; " chem "; "x"] example_state ["x"]);
    [exact Hlines | exact Hok | reflexivity].
Defined.
Section SessionsSound.
Import Py.

Lemma dict_get_del {V : Type} (k name : string) (d : dict V) :
  dict_get k (dict_del name d) = if decide (k = name) then None else dict_get k d.
Proof.
  unfold dict_del. induction d as [|[k0 v0] d IH]; cbn [dict_get].
  - rewrite filter_nil. by destruct (decide (k = name)).
  - rewrite filter_cons. cbn [fst].
    destruct (decide (k0 <> name)) as [Hne | He]; cbn [dict_get].
    + rewrite IH. destruct (decide (k0 = k)) as [-> | ?]; [| done].
      by destruct (decide (k = name)).
    + apply dec_stable in He as ->. rewrite IH.
      destruct (decide (name = k)) as [-> | ?]; [| done].
      by destruct (decide (k = k)).
Qed.

Lemma sessions_sound_trace_blind : trace_blind sessions_sound.
Proof. intros st es (d & Hd & Hnd & Hall). by exists d. Qed.

Lemma sessions_sound_attach st d name :
  sessions_sound st -> collections (db st) = Some d ->
  forall st',
    collections (db st') = Some (dict_set name (handle_of st name) d) ->
    persist_directory (db st') = persist_directory (db st) ->
    chroma_db st' = vectordb.get_or_create name (chroma_db st) ->
    sessions_sound st'.
Proof.
  intros (d0 & Hd0 & Hnd & Hall) Hd st' Hd' Hdir Hstore.
  rewrite Hd in Hd0. injection Hd0 as <-.
  exists (dict_set name (handle_of st name) d). split; [done |].
  split; [by apply dict_set_NoDup |].
  intros k c. rewrite dict_get_set, Hstore.
  destruct (decide (name = k)) as [<- | Hne].
  - intros [= <-]. split; [| apply get_or_create_lookup].
    unfold handle_of. by rewrite Hdir.
  - intros Hk. destruct (Hall k c Hk) as [-> [docs Hdocs]]. split.
    + unfold handle_of. by rewrite Hdir.
    + exists docs. by apply get_or_create_keeps.
Qed.

Lemma sessions_sound_after_create st d name :
  sessions_sound st -> collections (db st) = Some d ->
  sessions_sound (after_create name d st).
Proof. intros Hs Hd. by eapply sessions_sound_attach. Qed.

Lemma sessions_sound_after_delete st d name collection :
  sessions_sound st -> collections (db st) = Some d ->
  dict_get name d = Some collection ->
  sessions_sound (after_delete name collection d st).
Proof.
  intros (d0 & Hd0 & Hnd & Hall) Hd Hg.
  rewrite Hd in Hd0. injection Hd0 as <-.
  destruct (Hall name collection Hg) as [-> _].
  exists (dict_del name d). split; [done |].
  split; [by apply dict_del_NoDup |].
  intros k c. rewrite dict_get_del.
  destruct (decide (k = name)) as [-> | Hne]; [done |].
  intros Hk. destruct (Hall k c Hk) as [-> Hdocs]. split; [done |].
  cbn [after_delete chroma_db handle_of collection_name].
  by rewrite lookup_delete_ne.
Qed.

Lemma preserves_sound_create_session name :
  preserves sessions_sound (vectordb.create_session name).
Proof.
  intros st a st' Hs. pose proof Hs as (d & Hd & _).
  destruct (dict_mem name d) eqn:Hmem.
  - rewrite (create_session_taken st d) by done. by intros [= _ <-].
  - rewrite (create_session_run st d) by done. intros [= _ <-].
    by apply sessions_sound_after_create.
Qed.

Lemma preserves_sound_delete_session name :
  preserves sessions_sound (vectordb.delete_session name).
Proof.
  intros st a st' Hs. pose proof Hs as (d & Hd & _).
  destruct (dict_get name d) as [collection|] eqn:Hg.
  - rewrite (delete_session_run st d name collection) by done.
    intros [= _ <-]. by apply sessions_sound_after_delete.
  - unfold vectordb.delete_session, bind.
    by rewrite (collections_getitem_spec st d), Hg by done.
Qed.

Lemma preserves_sound_set_sessions_txt f :
  preserves sessions_sound (set_sessions_txt f).
Proof. intros st a st' (d & Hd & Hnd & Hall) [= _ <-]. by exists d. Qed.

Lemma preserves_sound_add_documents collection chunks :
  preserves sessions_sound (vectordb.add_documents collection chunks).
Proof.
  intros st a st' (d & Hd & Hnd & Hall).
  unfold vectordb.add_documents, bind, get_state, set_chroma_db.
  intros [= _ <-]. exists d. split; [done |]. split; [done |].
  intros k c Hk. destruct (Hall k c Hk) as [-> [docs Hdocs]]. split; [done |].
  cbn [chroma_db].
  destruct (decide (collection_name collection = k)) as [<- | Hne].
  - rewrite lookup_insert_eq. by eexists.
  - rewrite lookup_insert_ne by done. by exists docs.
Qed.

Lemma preserves_sound_load_step dir name :
  preserves (fun st => sessions_sound st /\ persist_directory (db st) = dir)
    (collection <- vectordb.Chroma_new name dir ;;
     vectordb.collections_setitem name collection)%M.
Proof.
  intros st a st' [Hs Hdir]. pose proof Hs as (d & Hd & _).
  unfold vectordb.Chroma_new, bind, get_state, set_chroma_db, ret,
    vectordb.collections_setitem, bind, get_state, set_collections.
  cbn [db collections sessions_txt chroma_db trace]. rewrite Hd.
  intros [= _ <-]. split; [| done].
  eapply (sessions_sound_attach st d name); try done.
  cbn [db collections]. unfold handle_of. by rewrite Hdir.
Qed.

Lemma preserves_for_each (P : state -> Prop) {A : Type} (l : list A)
    (body : A -> M unit) :
  (forall x, preserves P (body x)) -> preserves P (for_each l body).
Proof.
  intros Hbody. induction l as [|x l IH]; cbn [for_each].
  - apply preserves_ret.
  - apply preserves_bind; [apply Hbody | intros _; exact IH].
Qed.

Lemma preserves_sound_load_all_sessions :
  preserves sessions_sound vectordb.load_all_sessions.
Proof.
  intros st a st' Hs. unfold vectordb.load_all_sessions, bind at 1, get_state.
  destruct (sessions_txt st) as [raw|]; [| by intros [= _ <-]].
  intros Hrun.
  pose proof (preserves_for_each
                (fun st0 => sessions_sound st0
                            /\ persist_directory (db st0) = persist_directory (db st))
                (vectordb.session_names raw) _
                (preserves_sound_load_step (persist_directory (db st)))
                st a st' (conj Hs eq_refl) Hrun) as [Hs' _].
  exact Hs'.
Qed.

End SessionsSound.
Create HintDb preserves discriminated.
#[export] Hint Resolve preserves_ret preserves_raise preserves_reads
  sessions_sound_trace_blind registry_ok_trace_blind registry_ok_store_blind
  preserves_set_chroma_db
  preserves_sound_create_session preserves_sound_delete_session
  preserves_sound_set_sessions_txt preserves_sound_add_documents
  preserves_sound_load_all_sessions : preserves.
#[export] Hint Resolve reads_collections_contains reads_collections_getitem
  reads_get_session reads_print_sessions reads_list_session
  reads_chunk_document reads_query reads_assistant_init reads_clear_screen
  reads_ask_session reads_chat_loop reads_ask_all reads_collect_documents
  : reads.

(** Take a computation apart along its binds and case distinctions. *)
Ltac preserves_step :=
  lazymatch goal with
  | |- preserves _ (bind _ _) => apply preserves_bind; [| intros ?]
  | |- preserves _ (match ?x with _ => _ end) => destruct x
  | |- preserves _ _ => solve [auto with preserves reads]
  end.
Ltac preserves := repeat preserves_step.

Section SoundOperations.
Import Py.
Context {svc : Services}.

Lemma reads_list_sessions : reads_only functions.list_sessions.
Proof. apply reads_list_session. Qed.

Lemma reads_start_chat inputs : reads_only (functions.start_chat inputs).
Proof. unfold functions.start_chat, functions.list_sessions. reads. Qed.

Lemma preserves_sound_save_session_name name :
  preserves sessions_sound (vectordb._save_session_name name).
Proof. unfold vectordb._save_session_name. preserves. Qed.

Lemma preserves_sound_remove_session_name name :
  preserves sessions_sound (vectordb._remove_session_name name).
Proof. unfold vectordb._remove_session_name. preserves. Qed.

Lemma preserves_sound_add_file_loop collection i l :
  preserves sessions_sound (vectordb.add_file_loop collection i l).
Proof.
  revert i. induction l as [|path l IH]; intros i;
    cbn [vectordb.add_file_loop]; preserves; apply IH.
Qed.

Hint Resolve preserves_sound_add_file_loop reads_list_sessions reads_start_chat
  : preserves.

Lemma preserves_sound_add_file l name :
  preserves sessions_sound (vectordb.add_file l name).
Proof. unfold vectordb.add_file. preserves. Qed.

Lemma preserves_sound_shell_create inputs :
  preserves sessions_sound (functions.create_session inputs).
Proof.
  induction inputs as [|line inputs IH]; cbn [functions.create_session];
    preserves; apply IH.
Qed.

Lemma preserves_sound_shell_delete inputs :
  preserves sessions_sound (functions.delete_session inputs).
Proof. unfold functions.delete_session. preserves. Qed.

Hint Resolve preserves_sound_add_file : preserves.

Lemma preserves_sound_add_documents_shell inputs :
  preserves sessions_sound (functions.add_documents inputs).
Proof. unfold functions.add_documents. preserves. Qed.

Lemma preserves_exec (P : state -> Prop) {A : Type} (m : M A) st st' :
  preserves P m -> P st -> exec m st = Ok st' -> P st'.
Proof.
  intros Hm HP. unfold exec. destruct (m st) as [[a st1] | e] eqn:E; [| done].
  intros [= <-]. by eapply Hm.
Qed.

(** X6. In every state the program can reach the sessions of the object are
    sound: [collections] is a dictionary without a repeated key, every key is
    bound to the handle of the collection of that very name, and the store has
    a collection of that name. *)
Theorem reachable_sessions_sound (st : state) :
  reachable st -> sessions_sound st.
Proof.
  induction 1 as [environ w st Hinit | op st st' _ IH Hstep].
  - unfold vectordb.__init__ in Hinit.
    assert (preserves sessions_sound
              (vectordb.load_all_sessions ;;
               print "Vector database initialized successfully.")%M) as Hp
      by preserves.
    eapply Hp; [| exact Hinit].
    exists []. split; [done |]. split; [apply NoDup_nil_2 | done].
  - revert Hstep. destruct op; cbn [run_op]; apply preserves_exec; try done;
      auto using preserves_sound_save_session_name,
        preserves_sound_remove_session_name, preserves_sound_shell_create,
        preserves_sound_shell_delete with preserves reads.
Qed.

End SoundOperations.

(** On a first start with one name in the registry file. *)
Lemma reachable_sessions_sound_witness :
  reachable (svc := cautious_services) started_state /\
  sessions_sound started_state.
Proof.
  split; [apply started_state_reachable |].
  apply (reachable_sessions_sound (svc := cautious_services)).
  apply started_state_reachable.
Defined.
(** * The menu loop *)

Section InputConsumed.
Import Py.
Context {svc : Services}.

(** Every loop of the shell returns an end of the input it was given. *)
Lemma create_session_suffix inputs st rest st' :
  functions.create_session inputs st = Ok (rest, st') -> suffix rest inputs.
Proof.
  revert st. induction inputs as [|line inputs IH]; intros st; [done |].
  cbn [functions.create_session].
  assert (forall s, functions.create_session inputs s = Ok (rest, st') ->
                    suffix rest (line :: inputs)) as Hnext.
  { intros s Hs. apply suffix_cons_r. by eapply IH. }
  destruct (negb (truthy (strip line))).
  - unfold bind, print, emit. apply Hnext.
  - unfold bind at 1.
    destruct (vectordb.create_session (strip line) st) as [[[] st1]|e]; [| | done].
    + unfold bind at 1, print, emit. unfold bind at 1.
      rewrite clear_screen_run. unfold ret. intros [= <- _].
      apply suffix_cons_r. done.
    + unfold bind, print, emit. apply Hnext.
Qed.

Lemma ask_session_suffix inputs st name rest st' :
  functions.ask_session inputs st = Ok ((name, rest), st') -> suffix rest inputs.
Proof.
  revert st. induction inputs as [|line inputs IH]; intros st; [done |].
  cbn [functions.ask_session]. unfold bind at 1.
  destruct (vectordb.get_session line st) as [[[c|] st1]|e]; [| | done].
  - unfold ret. intros [= _ <- _]. by apply suffix_cons_r.
  - unfold bind, print, emit. intros Hs. apply suffix_cons_r. by eapply IH.
Qed.

Lemma chat_loop_suffix name inputs st rest st' :
  functions.chat_loop name inputs st = Ok (rest, st') -> suffix rest inputs.
Proof.
  revert st. induction inputs as [|line inputs IH]; intros st; [done |].
  cbn [functions.chat_loop]. destruct (decide (lower line = "quit")).
  - unfold bind, print, emit, ret. intros [= <- _]. by apply suffix_cons_r.
  - unfold bind at 1.
    destruct (RAGAssistant.query name line _ st) as [[r st1]|e]; [| done].
    unfold bind, print, emit. intros Hs. apply suffix_cons_r. by eapply IH.
Qed.

Lemma collect_documents_suffix l inputs st paths rest st' :
  functions.collect_documents l inputs st = Ok ((paths, rest), st') ->
  suffix rest inputs.
Proof.
  revert l st. induction inputs as [|line inputs IH]; intros l st; [done |].
  cbn [functions.collect_documents]. destruct (decide (lower line = "done")).
  - unfold ret. intros [= _ <- _]. by apply suffix_cons_r.
  - unfold bind, print, emit. intros Hs. apply suffix_cons_r. by eapply IH.
Qed.

Lemma start_chat_suffix inputs st rest st' :
  functions.start_chat inputs st = Ok (rest, st') -> suffix rest inputs.
Proof.
  unfold functions.start_chat, bind.
  destruct (functions.list_sessions st) as [[[] st1]|e]; [| done].
  destruct (functions.ask_session inputs st1) as [[[name r] st2]|e] eqn:Hask;
    [| done].
  apply ask_session_suffix in Hask. cbn [fst snd].
  destruct (functions.chat_loop name r st2) as [[r' st3]|e] eqn:Hchat; [| done].
  apply chat_loop_suffix in Hchat.
  destruct (functions.clear_screen st3) as [[[] st4]|e]; [| done].
  unfold ret. intros [= <- _]. by etrans.
Qed.

Lemma delete_session_suffix inputs st rest st' :
  functions.delete_session inputs st = Ok (rest, st') -> suffix rest inputs.
Proof.
  unfold functions.delete_session, bind.
  destruct (functions.list_sessions st) as [[[] st1]|e]; [| done].
  destruct (functions.ask_session inputs st1) as [[[name r] st2]|e] eqn:Hask;
    [| done].
  apply ask_session_suffix in Hask. cbn [fst snd].
  destruct (vectordb.delete_session name st2) as [[[] st3]|e]; [| done].
  destruct (functions.clear_screen st3) as [[[] st4]|e]; [| done].
  unfold ret. by intros [= <- _].
Qed.

Lemma add_documents_suffix inputs st rest st' :
  functions.add_documents inputs st = Ok (rest, st') -> suffix rest inputs.
Proof.
  unfold functions.add_documents, bind.
  destruct (functions.list_sessions st) as [[[] st1]|e]; [| done].
  destruct (functions.ask_session inputs st1) as [[[name r] st2]|e] eqn:Hask;
    [| done].
  apply ask_session_suffix in Hask. cbn [fst snd].
  destruct (functions.collect_documents [] r st2) as [[[paths r'] st3]|e] eqn:Hc;
    [| done].
  apply collect_documents_suffix in Hc. cbn [fst snd].
  unfold print at 1, emit at 1.
  destruct (vectordb.add_file paths name _) as [[[] st4]|e]; [| done].
  unfold print, emit.
  destruct (functions.clear_screen _) as [[[] st5]|e]; [| done].
  unfold ret. intros [= <- _]. by etrans.
Qed.

(** The actions of the table, one by one. *)
Lemma COMMANDS_get choice action :
  dict_get choice main.COMMANDS = Some action ->
  action = functions.create_session \/
  action = functions.add_documents \/
  action = (fun inputs => functions.list_sessions ;; ret inputs)%M \/
  action = functions.start_chat \/
  action = functions.delete_session.
Proof.
  unfold main.COMMANDS. cbn [dict_get].
  repeat (destruct (decide (_ = choice)); [intros [= <-]; tauto |]). done.
Qed.

Lemma COMMANDS_suffix choice action inputs st rest st' :
  dict_get choice main.COMMANDS = Some action ->
  action inputs st = Ok (rest, st') -> suffix rest inputs.
Proof.
  intros [-> | [-> | [-> | [-> | ->]]]]%COMMANDS_get.
  - apply create_session_suffix.
  - apply add_documents_suffix.
  - unfold bind. destruct (functions.list_sessions st) as [[[] st1]|e]; [| done].
    unfold ret. by intros [= <- _].
  - apply start_chat_suffix.
  - apply delete_session_suffix.
Qed.

End InputConsumed.
Section MainLoop.
Import Py.
Context {svc : Services}.

Lemma suffix_Forall {A : Type} (Q : A -> Prop) (l k : list A) :
  suffix l k -> Forall Q k -> Forall Q l.
Proof. intros [pre ->] H. by apply Forall_app in H as [_ ?]. Qed.

(** An invariant of the actions, for input lines that are all [Q], is one of
    the loop. *)
Lemma preserves_main_loop (P : state -> Prop) (Q : string -> Prop) :
  trace_blind P ->
  (forall choice action inputs,
     dict_get choice main.COMMANDS = Some action ->
     Forall Q inputs -> preserves P (action inputs)) ->
  forall fuel inputs, Forall Q inputs -> preserves P (main.main_loop fuel inputs).
Proof.
  intros Hblind Hact fuel.
  induction fuel as [|fuel IH]; intros inputs HQ st r st' HP;
    cbn [main.main_loop].
  - by intros [= _ <-].
  - unfold bind at 1, main.print_menu, print, emit.
    destruct inputs as [|line inputs]; [done |].
    apply Forall_cons in HQ as [_ HQ].
    set (st0 := {| db := db st; sessions_txt := sessions_txt st;
                   chroma_db := chroma_db st;
                   trace := trace st ++ [Print main.menu_text] |}).
    assert (P st0) as HP0 by apply (Hblind st [Print main.menu_text] HP).
    destruct (decide (strip line = "6")).
    + unfold bind, ret. intros [= _ <-].
      apply (Hblind st0 [Print "Exiting StudyMate. Goodbye!"] HP0).
    + destruct (dict_get (strip line) main.COMMANDS) as [action|] eqn:Hget.
      * unfold bind.
        destruct (action inputs st0) as [[rest st1]|e] eqn:Hrun; [| done].
        apply IH.
        -- eapply suffix_Forall; [| exact HQ]. by eapply COMMANDS_suffix.
        -- by eapply Hact.
      * unfold bind at 1. unfold bind at 1. rewrite clear_screen_run.
        apply IH; [done |]. apply Hblind.
        apply (Hblind st0 [Print "Invalid option. Please try again."] HP0).
Qed.

(** A pass of the loop reads at least one line, so with more passes allowed
    than there are lines the bound is never reached, and allowing still more
    changes nothing. *)
Lemma main_loop_fuel fuel fuel' inputs st :
  length inputs < fuel -> length inputs < fuel' ->
  main.main_loop fuel inputs st = main.main_loop fuel' inputs st /\
  forall st', main.main_loop fuel inputs st <> Ok (None, st').
Proof.
  revert fuel' inputs st.
  induction fuel as [|fuel IH]; intros fuel' inputs st Hf Hf'; [lia |].
  destruct fuel' as [|fuel']; [lia |].
  cbn [main.main_loop]. unfold bind at 1 3 5, main.print_menu, print, emit.
  destruct inputs as [|line inputs]; [done |]. cbn [length] in Hf, Hf'.
  destruct (decide (strip line = "6")); [done |].
  destruct (dict_get (strip line) main.COMMANDS) as [action|] eqn:Hget.
  - unfold bind.
    destruct (action inputs _) as [[rest st1]|e] eqn:Hrun; [| done].
    eapply COMMANDS_suffix in Hrun; [| done].
    apply suffix_length in Hrun. apply IH; lia.
  - unfold bind. cbn beta iota. rewrite !clear_screen_run. apply IH; lia.
Qed.

End MainLoop.
Section MainInvariants.
Import Py.
Context {svc : Services}.

Lemma preserves_blind_add_documents (P : state -> Prop) collection chunks :
  trace_blind P -> store_blind P ->
  preserves P (vectordb.add_documents collection chunks).
Proof. intros Ht Hs. unfold vectordb.add_documents. preserves. Qed.

Lemma preserves_registry_add_file_loop collection i l :
  preserves registry_ok (vectordb.add_file_loop collection i l).
Proof.
  revert i. induction l as [|path l IH]; intros i;
    cbn [vectordb.add_file_loop]; preserves;
    auto using preserves_blind_add_documents with preserves.
Qed.

Lemma preserves_registry_add_file l name :
  preserves registry_ok (vectordb.add_file l name).
Proof.
  unfold vectordb.add_file. preserves. apply preserves_registry_add_file_loop.
Qed.

Lemma delete_session_missing st d name :
  collections (db st) = Some d -> dict_get name d = None ->
  vectordb.delete_session name st = Raise (KeyError name).
Proof.
  intros Hd Hg. unfold vectordb.delete_session, bind.
  by rewrite (collections_getitem_spec st d), Hg by done.
Qed.

Lemma preserves_registry_delete_session name :
  preserves registry_ok (vectordb.delete_session name).
Proof.
  intros st [] st' (d & Hd & Hsets & Hterm).
  destruct (dict_get name d) as [collection|] eqn:Hg.
  - rewrite (delete_session_run st d name collection) by done.
    intros [= <-]. by apply registry_ok_after_delete.
  - by rewrite (delete_session_missing st d).
Qed.

Lemma preserves_registry_shell_delete inputs :
  preserves registry_ok (functions.delete_session inputs).
Proof.
  unfold functions.delete_session. preserves.
  apply preserves_registry_delete_session.
Qed.

Lemma preserves_registry_add_documents inputs :
  preserves registry_ok (functions.add_documents inputs).
Proof.
  unfold functions.add_documents. preserves. apply preserves_registry_add_file.
Qed.

Lemma preserves_registry_command choice action inputs :
  dict_get choice main.COMMANDS = Some action ->
  Forall single_line inputs -> preserves registry_ok (action inputs).
Proof.
  intros [-> | [-> | [-> | [-> | ->]]]]%COMMANDS_get Hlines.
  - by apply preserves_registry_shell_create.
  - apply preserves_registry_add_documents.
  - preserves.
  - apply preserves_reads; [apply registry_ok_trace_blind | apply reads_start_chat].
  - apply preserves_registry_shell_delete.
Qed.

Lemma preserves_sound_command choice action (inputs : list string) :
  dict_get choice main.COMMANDS = Some action ->
  preserves sessions_sound (action inputs).
Proof.
  intros [-> | [-> | [-> | [-> | ->]]]]%COMMANDS_get.
  - apply preserves_sound_shell_create.
  - apply preserves_sound_add_documents_shell.
  - preserves.
  - apply preserves_reads;
      [apply sessions_sound_trace_blind | apply reads_start_chat].
  - apply preserves_sound_shell_delete.
Qed.

Lemma main_run fuel inputs st :
  main.main fuel inputs st
  = main.main_loop fuel inputs
      (with_trace st [Print "Welcome to StudyMate"; Print "--------------------"]).
Proof.
  unfold main.main, bind, print, emit. f_equal.
  apply state_eq; cbn; try done. by rewrite <- app_assoc.
Qed.

(** X7. A run of the menu keeps the sessions sound, and it keeps the registry
    file and the dictionary in agreement as long as no line typed has a line
    break in it: whatever is chosen and typed, when [main] returns from a
    state where the names in the file are the keys of the dictionary, they
    still are. *)
Theorem main_keeps_invariants (fuel : nat) (inputs : list string) (st : state)
    (r : option (list string)) (st' : state) :
  main.main fuel inputs st = Ok (r, st') ->
  (sessions_sound st -> sessions_sound st') /\
  (Forall single_line inputs -> registry_ok st -> registry_ok st').
Proof.
  rewrite main_run. intros Hrun. split.
  - intros Hs.
    eapply (preserves_main_loop sessions_sound (fun _ => True));
      [apply sessions_sound_trace_blind | | | | exact Hrun].
    + intros choice action l Hget _. by eapply preserves_sound_command.
    + by apply Forall_forall.
    + by apply sessions_sound_trace_blind.
  - intros Hlines Hok.
    eapply (preserves_main_loop registry_ok single_line);
      [apply registry_ok_trace_blind | | exact Hlines | | exact Hrun].
    + apply preserves_registry_command.
    + by apply registry_ok_trace_blind.
Qed.

Lemma not_menu_choice (line : string) :
  strip line ∉ menu_choices ->
  strip line <> "6" /\ dict_get (strip line) main.COMMANDS = None.
Proof.
  unfold menu_choices. rewrite !not_elem_of_cons.
  intros (H1 & H2 & H3 & H4 & H5 & H6 & _). split; [done |].
  unfold main.COMMANDS. cbn [dict_get].
  repeat (destruct (decide (_ = strip line)); [congruence |]). done.
Qed.

Lemma main_loop_exit junk line rest fuel st :
  Forall (fun l => strip l ∉ menu_choices) junk ->
  strip line = "6" ->
  length junk < fuel ->
  main.main_loop fuel (junk ++ line :: rest) st
  = Ok (Some rest,
        with_trace st
          (invalid_passes junk
           ++ [Print main.menu_text; Print "Exiting StudyMate. Goodbye!"])).
Proof.
  intros Hjunk Hline. revert fuel st.
  induction Hjunk as [|l junk Hl _ IH]; intros fuel st Hfuel;
    (destruct fuel as [|fuel]; [cbn [length] in Hfuel; lia |]);
    cbn [main.main_loop app]; unfold bind at 1, main.print_menu, print, emit.
  - rewrite decide_True by done. unfold bind, ret. do 2 f_equal.
    apply state_eq; cbn; try done. by rewrite <- app_assoc.
  - destruct (not_menu_choice l Hl) as [Hne Hget].
    rewrite decide_False by done. rewrite Hget.
    unfold bind. cbn beta iota. rewrite clear_screen_run.
    rewrite IH by (cbn [length] in Hfuel; lia). do 2 f_equal.
    apply state_eq; cbn; try done. by rewrite <- !app_assoc.
Qed.

(** X8. The menu loop ignores a line that is not one of the six choices once
    stripped: it complains, clears the screen and shows the menu again, and
    the object, the registry file and the store are untouched. The choice
    [6], with any white space around it, ends the program with the farewell,
    the lines after it unread. *)
Theorem main_exit_spec (junk : list string) (line : string) (rest : list string)
    (fuel : nat) (st : state) :
  Forall (fun l => strip l ∉ menu_choices) junk ->
  strip line = "6" ->
  length junk < fuel ->
  main.main fuel (junk ++ line :: rest) st
  = Ok (Some rest,
        with_trace st
          ([Print "Welcome to StudyMate"; Print "--------------------"]
           ++ invalid_passes junk
           ++ [Print main.menu_text; Print "Exiting StudyMate. Goodbye!"])).
Proof.
  intros Hjunk Hline Hfuel. rewrite main_run, main_loop_exit by done.
  by rewrite with_trace_app.
Qed.

(** X9. Every pass of the menu loop reads at least one line. On an input of
    [n] lines the program therefore ends within [n] passes, by the choice [6]
    or by an exception ([EOFError] when the input runs out): the bound on the
    passes is not reached, and the outcome is the same whatever larger bound
    is allowed. *)
Theorem main_ends (fuel fuel' : nat) (inputs : list string) (st : state) :
  length inputs < fuel -> length inputs < fuel' ->
  main.main fuel inputs st = main.main fuel' inputs st /\
  forall st', main.main fuel inputs st <> Ok (None, st').
Proof. intros Hf Hf'. rewrite !main_run. by apply main_loop_fuel. Qed.

Lemma main_loop_exit_only fuel inputs st rest st' :
  main.main_loop fuel inputs st = Ok (Some rest, st') ->
  exists line, line ∈ inputs /\ strip line = "6".
Proof.
  revert inputs st. induction fuel as [|fuel IH]; intros inputs st;
    cbn [main.main_loop]; [done |].
  unfold bind at 1, main.print_menu, print, emit.
  destruct inputs as [|line inputs]; [done |].
  destruct (decide (strip line = "6")) as [H6|H6].
  - intros _. exists line. split; [apply list_elem_of_here | done].
  - destruct (dict_get (strip line) main.COMMANDS) as [action|] eqn:Hget.
    + unfold bind.
      destruct (action inputs _) as [[r st1]|e] eqn:Hrun; [| done].
      intros (l & Hl & Hl6)%IH. exists l. split; [| done].
      apply list_elem_of_further.
      eapply COMMANDS_suffix in Hrun as [pre ->]; [| done].
      apply elem_of_app. by right.
    + unfold bind. cbn beta iota. rewrite clear_screen_run.
      intros (l & Hl & Hl6)%IH. exists l. split; [| done].
      by apply list_elem_of_further.
Qed.

(** X10. The program ends normally only by the choice [6]: when [main]
    returns, one of the lines typed is [6] once stripped. Any other run ends
    with an exception. *)
Theorem main_returns_only_on_6 (fuel : nat) (inputs : list string) (st : state)
    (rest : list string) (st' : state) :
  main.main fuel inputs st = Ok (Some rest, st') ->
  exists line, line ∈ inputs /\ strip line = "6".
Proof. rewrite main_run. apply main_loop_exit_only. Qed.

End MainInvariants.
(** On the example: a session created from the menu, then the exit. *)
Lemma main_keeps_invariants_witness :
  sessions_sound example_state /\
  Forall single_line ["1"; "chem"; "6"] /\
  registry_ok example_state /\
  exists st',
    main.main (svc := cautious_services) 3 ["1"; "chem"; "6"] example_state
    = Ok (Some [], st') /\
    sessions_sound st' /\ registry_ok st'.
Proof.
  assert (sessions_sound example_state) as Hsound.
  { exists [("bio", handle_of example_state "bio")].
    split; [done |]. split; [apply NoDup_singleton |].
    intros name collection. cbn [Py.dict_get].
    destruct (decide ("bio" = name)) as [<- | _]; [| done].
    intros [= <-]. split; [done |]. by eexists. }
  assert (Forall single_line ["1"; "chem"; "6"]) as Hlines
    by (repeat constructor).
  assert (registry_ok example_state) as Hok.
  { exists [("bio", handle_of example_state "bio")]. by repeat split. }
  split; [exact Hsound |]. split; [exact Hlines |]. split; [exact Hok |].
  eexists. split; [vm_compute; reflexivity |].
  assert (main.main (svc := cautious_services) 3 ["1"; "chem"; "6"] example_state
          = Ok (Some [], _)) as Hrun by (vm_compute; reflexivity).
  destruct (main_keeps_invariants (svc := cautious_services) 3 ["1"; "chem"; "6"]
              example_state (Some []) _ Hrun) as [Hs Hr].
  split; [exact (Hs Hsound) | exact (Hr Hlines Hok)].
Defined.

(** On the example: two lines that are no choice, then [6] with blanks. *)
Lemma main_exit_spec_witness :
  Forall (fun l => Py.strip l ∉ menu_choices) ["7"; "help"] /\
  Py.strip " 6 " = "6" /\
  length ["7"; "help"] < 3 /\
  main.main (svc := cautious_services) 3 (["7"; "help"] ++ " 6 " :: ["1"])
    example_state
  = Ok (Some ["1"],
        with_trace example_state
          ([Print "Welcome to StudyMate"; Print "--------------------"]
           ++ invalid_passes ["7"; "help"]
           ++ [Print main.menu_text; Print "Exiting StudyMate. Goodbye!"])).
Proof.
  assert (Forall (fun l => Py.strip l ∉ menu_choices) ["7"; "help"]) as Hjunk
    by (by apply (bool_decide_unpack _)).
  split; [exact Hjunk |]. split; [reflexivity |]. split; [cbn; lia |].
  apply (main_exit_spec (svc := cautious_services) ["7"; "help"] " 6 " ["1"] 3
           example_state Hjunk); [reflexivity | cbn; lia].
Defined.

(** On the example: the sessions listed, a line that is no choice, and the
    input exhausted. *)
Lemma main_ends_witness :
  length ["3"; "9"] < 3 /\ length ["3"; "9"] < 7 /\
  main.main (svc := cautious_services) 3 ["3"; "9"] example_state
  = main.main (svc := cautious_services) 7 ["3"; "9"] example_state /\
  forall st',
    main.main (svc := cautious_services) 3 ["3"; "9"] example_state
    <> Ok (None, st').
Proof.
  split; [cbn; lia |]. split; [cbn; lia |].
  apply (main_ends (svc := cautious_services) 3 7 ["3"; "9"] example_state);
    cbn; lia.
Defined.

(** On the example: the sessions listed, then the exit. *)
Lemma main_returns_only_on_6_witness :
  main.main (svc := cautious_services) 2 ["3"; " 6"] example_state
  = Ok (Some [],
        with_trace example_state
          ([Print "Welcome to StudyMate"; Print "--------------------";
            Print main.menu_text]
           ++ listing [("bio", handle_of example_state "bio")]
           ++ [Print main.menu_text; Print "Exiting StudyMate. Goodbye!"])) /\
  exists line, line ∈ ["3"; " 6"] /\ Py.strip line = "6".
Proof.
  assert (main.main (svc := cautious_services) 2 ["3"; " 6"] example_state
          = Ok (Some [],
                with_trace example_state
                  ([Print "Welcome to StudyMate"; Print "--------------------";
                    Print main.menu_text]
                   ++ listing [("bio", handle_of example_state "bio")]
                   ++ [Print main.menu_text;
                       Print "Exiting StudyMate. Goodbye!"]))) as Hrun
    by reflexivity.
  split; [exact Hrun |].
  exact (main_returns_only_on_6 (svc := cautious_services) 2 ["3"; " 6"]
           example_state [] _ Hrun).
Defined.
(** * Restart, and sessions created and deleted in turn *)

Section Restart.
Import Py.

Lemma registry_key_iff st (d : dict Chroma) name :
  registry_set st = key_set d ->
  name ∈ registry_names (sessions_txt st) <-> name ∈ dict_keys d.
Proof.
  intros Hsets.
  rewrite <- (elem_of_list_to_set (C := gset string) name (registry_names _)).
  rewrite <- (elem_of_list_to_set (C := gset string) name (dict_keys d)).
  fold (registry_set st). fold (key_set d). by rewrite Hsets.
Qed.

Lemma loaded_store_id (names : list string) (store : gmap string (list Document)) :
  (forall name, name ∈ names -> is_Some (store !! name)) ->
  loaded_store names store = store.
Proof.
  induction names as [|n names IH]; intros Hall; [done |].
  rewrite loaded_store_cons.
  assert (vectordb.get_or_create n store = store) as ->.
  { unfold vectordb.get_or_create.
    destruct (Hall n (list_elem_of_here _ _)) as [docs ->]. done. }
  apply IH. intros name Hin. apply Hall. by apply list_elem_of_further.
Qed.

Lemma loaded_key_set dir names :
  key_set (loaded_dict dir names []) = list_to_set names.
Proof.
  unfold key_set. apply set_eq. intros name.
  rewrite !elem_of_list_to_set, loaded_dict_keys. cbn.
  rewrite elem_of_nil. tauto.
Qed.

Lemma fresh_sessions_sound environ w : sessions_sound (vectordb.fresh environ w).
Proof. exists []. split; [done |]. split; [apply NoDup_nil_2 | done]. Qed.

(** X11. Ending the process and starting it again restores the sessions.
    When the registry file and the dictionary agree and the sessions are
    sound, the constructor of [vectordb], run on the registry file and the
    store the process leaves, returns with the same set of session names for
    its keys, and leaves the store and the registry file as they are; the new
    object is again in agreement with the file, its sessions sound. *)
Theorem restart_restores_sessions (environ : gmap string string) (st : state)
    (d : dict Chroma) :
  registry_ok st -> sessions_sound st ->
  collections (db st) = Some d ->
  exists st2 d2,
    vectordb.__init__ environ (world_of st) = Ok (tt, st2) /\
    collections (db st2) = Some d2 /\
    key_set d2 = key_set d /\
    chroma_db st2 = chroma_db st /\
    sessions_txt st2 = sessions_txt st /\
    trace st2 = [Print "Vector database initialized successfully."] /\
    registry_ok st2 /\ sessions_sound st2.
Proof.
  intros (d0 & Hd0 & Hsets & Hterm) Hsound Hd.
  rewrite Hd in Hd0. injection Hd0 as <-.
  destruct (load_all_sessions_spec (vectordb.fresh environ (world_of st)) []
              eq_refl) as (st1 & Hrun & Hd1 & Hstore & Hfile & Htrace).
  cbn [vectordb.fresh world_of sessions_txt chroma_db db persist_directory
         w_sessions_txt w_chroma_db] in Hd1, Hstore, Hfile.
  assert (loaded_store (registry_names (sessions_txt st)) (chroma_db st)
          = chroma_db st) as Hid.
  { apply loaded_store_id. intros name Hin.
    assert (name ∈ dict_keys d) as Hkey by by apply (registry_key_iff st).
    destruct Hsound as (d0 & Hd0 & _ & Hall).
    rewrite Hd in Hd0. injection Hd0 as <-.
    apply dict_mem_keys in Hkey. rewrite dict_get_mem in Hkey.
    apply bool_decide_eq_true in Hkey as [collection Hg].
    by destruct (Hall name collection Hg). }
  rewrite Hid in Hstore.
  assert (sessions_sound st1) as Hsound1.
  { eapply preserves_sound_load_all_sessions; [| exact Hrun].
    apply fresh_sessions_sound. }
  set (es := [Print "Vector database initialized successfully."]).
  exists (with_trace st1 es), (loaded_dict "./chroma_db"
                                 (registry_names (sessions_txt st)) []).
  split; [| split; [exact Hd1 |]].
  { unfold vectordb.__init__, bind. rewrite Hrun. reflexivity. }
  split; [by rewrite loaded_key_set |].
  split; [exact Hstore |]. split; [exact Hfile |].
  split; [cbn [with_trace trace]; by rewrite Htrace |].
  split; [| by apply sessions_sound_trace_blind].
  apply registry_ok_trace_blind. eexists. split; [exact Hd1 |].
  unfold registry_set, registry_text. rewrite Hfile.
  split; [by rewrite loaded_key_set | exact Hterm].
Qed.

End Restart.

(** On the example: the process ends with the session [bio], and starts
    again with it. *)
Lemma restart_restores_sessions_witness :
  registry_ok example_state /\ sessions_sound example_state /\
  exists st2 d2,
    vectordb.__init__ ∅ (world_of example_state) = Ok (tt, st2) /\
    collections (db st2) = Some d2 /\
    key_set d2 = key_set [("bio", handle_of example_state "bio")] /\
    chroma_db st2 = chroma_db example_state.
Proof.
  assert (registry_ok example_state) as Hok.
  { exists [("bio", handle_of example_state "bio")]. by repeat split. }
  assert (sessions_sound example_state) as Hsound.
  { exists [("bio", handle_of example_state "bio")].
    split; [done |]. split; [apply NoDup_singleton |].
    intros name collection. cbn [Py.dict_get].
    destruct (decide ("bio" = name)) as [<- | _]; [| done].
    intros [= <-]. split; [done |]. by eexists. }
  split; [exact Hok |]. split; [exact Hsound |].
  destruct (restart_restores_sessions ∅ example_state
              [("bio", handle_of example_state "bio")] Hok Hsound eq_refl)
    as (st2 & d2 & Hrun & Hd2 & Hkeys & Hstore & _).
  exists st2, d2. by repeat split.
Defined.

Section CreateDelete.
Import Py.

Lemma dict_del_fresh {V : Type} (k : string) (d : dict V) :
  dict_mem k d = false -> dict_del k d = d.
Proof.
  unfold dict_del. induction d as [|[k0 v0] d IH]; cbn [dict_mem]; [done |].
  intros [Hk Hd]%orb_false_iff. apply bool_decide_eq_false in Hk.
  rewrite filter_cons. cbn [fst]. rewrite decide_True by done.
  by rewrite IH.
Qed.

Lemma dict_del_set_fresh {V : Type} (k : string) (v : V) (d : dict V) :
  dict_mem k d = false -> dict_del k (dict_set k v d) = d.
Proof.
  intros Hmem. rewrite dict_set_fresh by done. unfold dict_del.
  rewrite filter_app, filter_cons, filter_nil. cbn [fst].
  rewrite decide_False by (intros H; by apply H).
  rewrite app_nil_r. by apply dict_del_fresh.
Qed.

Lemma filter_ne_fresh (names : list string) (name : string) :
  name ∉ names -> filter (fun n => n <> name) names = names.
Proof.
  induction names as [|n names IH]; [done |].
  intros [Hne Hin]%not_elem_of_cons. rewrite filter_cons.
  rewrite decide_True by done. by rewrite IH.
Qed.

Lemma registry_fresh st (d : dict Chroma) name :
  registry_set st = key_set d -> dict_mem name d = false ->
  name ∉ registry_names (sessions_txt st).
Proof.
  intros Hsets Hmem Hin. apply dict_mem_false_keys in Hmem. apply Hmem.
  by apply (registry_key_iff st).
Qed.

(** X12. Creating a session and deleting it again undoes the creation. From
    a state where the registry file and the dictionary agree, for a name that
    is new and can be a line of the file, the two calls return, and they
    leave the dictionary as it was and the registry file with the names it
    had, in their order; the store is as it was, but for a collection of that
    name left there from before, which is gone with the session. *)
Theorem create_then_delete (st : state) (d : dict Chroma) (name : string) :
  registry_ok st ->
  collections (db st) = Some d ->
  dict_mem name d = false ->
  clean_name name = true ->
  exists st1 st2,
    vectordb.create_session name st = Ok (true, st1) /\
    vectordb.delete_session name st1 = Ok (tt, st2) /\
    collections (db st2) = Some d /\
    registry_names (sessions_txt st2) = registry_names (sessions_txt st) /\
    chroma_db st2 = delete name (chroma_db st) /\
    (chroma_db st !! name = None -> chroma_db st2 = chroma_db st) /\
    trace st2
    = trace st ++ [Print ("Session " +:+ name +:+ " deleted successfully.")].
Proof.
  intros (d0 & Hd0 & Hsets & Hterm) Hd Hmem Hclean.
  rewrite Hd in Hd0. injection Hd0 as <-.
  exists (after_create name d st).
  exists (after_delete name (handle_of st name)
            (dict_set name (handle_of st name) d) (after_create name d st)).
  split; [by apply create_session_run |].
  split.
  { apply delete_session_run; [done |]. rewrite dict_get_set.
    by rewrite decide_True. }
  cbn [after_delete after_create db collections sessions_txt chroma_db trace
         handle_of collection_name registry_names].
  split; [by rewrite dict_del_set_fresh |].
  assert (delete name (vectordb.get_or_create name (chroma_db st))
          = delete name (chroma_db st)) as Hstore.
  { unfold vectordb.get_or_create.
    destruct (chroma_db st !! name); [done | apply delete_insert_eq]. }
  split.
  { rewrite registry_names_rewritten.
    assert (vectordb.session_names (registry_text st)
            = registry_names (sessions_txt st)) as Hnames.
    { unfold registry_text. by destruct (sessions_txt st). }
    rewrite session_names_append, Hnames by done.
    rewrite filter_app, filter_cons, filter_nil.
    rewrite decide_False by (intros H; by apply H).
    rewrite app_nil_r. apply filter_ne_fresh. by eapply registry_fresh. }
  split; [exact Hstore |]. split; [| done].
  intros Hnone. rewrite Hstore. by apply delete_id.
Qed.

(** X13. Deleting a session and creating one of the same name gives an empty
    session. From a state where the registry file and the dictionary agree
    and the sessions are sound, the two calls return; the collection of that
    name in the store is then empty, the other collections are as they were,
    and the name is the last key of the dictionary and the last name of the
    registry file, the others in their order. *)
Theorem delete_then_create (st : state) (d : dict Chroma) (name : string)
    (collection : Chroma) :
  registry_ok st -> sessions_sound st ->
  collections (db st) = Some d ->
  dict_get name d = Some collection ->
  exists st1 st2,
    vectordb.delete_session name st = Ok (tt, st1) /\
    vectordb.create_session name st1 = Ok (true, st2) /\
    chroma_db st2 !! name = Some [] /\
    (forall other, other <> name -> chroma_db st2 !! other = chroma_db st !! other) /\
    collections (db st2) = Some (dict_del name d ++ [(name, handle_of st name)]) /\
    registry_names (sessions_txt st2)
    = filter (fun n => n <> name) (registry_names (sessions_txt st)) ++ [name].
Proof.
  intros (d0 & Hd0 & Hsets & Hterm) (d1 & Hd1 & _ & Hall) Hd Hg.
  rewrite Hd in Hd0, Hd1. injection Hd0 as <-. injection Hd1 as <-.
  destruct (Hall name collection Hg) as [-> _].
  assert (name ∈ registry_names (sessions_txt st)) as Hin.
  { apply dict_get_Some_mem, dict_mem_keys in Hg.
    by apply (registry_key_iff st d). }
  destruct (sessions_txt st) as [raw|] eqn:Hfile;
    [| by apply elem_of_nil in Hin].
  cbn [registry_names] in Hin. pose proof (session_names_clean _ _ Hin) as Hclean.
  set (st1 := after_delete name (handle_of st name) d st).
  exists st1, (after_create name (dict_del name d) st1).
  split; [by apply delete_session_run |].
  split; [apply create_session_run; [done | apply dict_mem_del] |].
  cbn [after_create chroma_db db collections sessions_txt].
  subst st1. cbn [after_delete chroma_db sessions_txt handle_of collection_name
                    persist_directory db registry_text].
  split; [| split; [| split]].
  - unfold vectordb.get_or_create. rewrite lookup_delete_eq.
    apply lookup_insert_eq.
  - intros other Hne. unfold vectordb.get_or_create. rewrite lookup_delete_eq.
    rewrite lookup_insert_ne by done. by apply lookup_delete_ne.
  - rewrite dict_set_fresh by apply dict_mem_del. done.
  - unfold registry_text. cbn [after_delete sessions_txt]. rewrite Hfile.
    cbn [default registry_names].
    rewrite session_names_append; [| apply write_names_terminated | done].
    unfold id. by rewrite registry_names_rewritten.
Qed.

End CreateDelete.
(** On the example: [chem] is created and deleted again. *)
Lemma create_then_delete_witness :
  registry_ok example_state /\
  Py.dict_mem "chem" [("bio", handle_of example_state "bio")] = false /\
  Py.clean_name "chem" = true /\
  exists st1 st2,
    vectordb.create_session "chem" example_state = Ok (true, st1) /\
    vectordb.delete_session "chem" st1 = Ok (tt, st2) /\
    collections (db st2) = collections (db example_state) /\
    registry_names (sessions_txt st2) = ["bio"] /\
    chroma_db st2 = chroma_db example_state.
Proof.
  assert (registry_ok example_state) as Hok.
  { exists [("bio", handle_of example_state "bio")]. by repeat split. }
  split; [exact Hok |]. split; [reflexivity |]. split; [reflexivity |].
  destruct (create_then_delete example_state
              [("bio", handle_of example_state "bio")] "chem"
              Hok eq_refl eq_refl eq_refl)
    as (st1 & st2 & Hc & Hd & Hdict & Hnames & _ & Hstore & _).
  exists st1, st2. repeat split; try done. by apply Hstore.
Defined.

(** On the example: [bio], with its two chunks, is deleted and created
    again, empty. *)
Lemma delete_then_create_witness :
  registry_ok stocked_state /\ sessions_sound stocked_state /\
  chroma_db stocked_state !! "bio" = Some example_chunks /\
  exists st1 st2,
    vectordb.delete_session "bio" stocked_state = Ok (tt, st1) /\
    vectordb.create_session "bio" st1 = Ok (true, st2) /\
    chroma_db st2 !! "bio" = Some [] /\
    registry_names (sessions_txt st2) = ["bio"].
Proof.
  assert (registry_ok stocked_state) as Hok.
  { exists [("bio", handle_of example_state "bio")]. by repeat split. }
  assert (sessions_sound stocked_state) as Hsound.
  { exists [("bio", handle_of example_state "bio")].
    split; [done |]. split; [apply NoDup_singleton |].
    intros name collection. cbn [Py.dict_get].
    destruct (decide ("bio" = name)) as [<- | _]; [| done].
    intros [= <-]. split; [done |]. by eexists. }
  split; [exact Hok |]. split; [exact Hsound |]. split; [reflexivity |].
  destruct (delete_then_create stocked_state
              [("bio", handle_of example_state "bio")] "bio"
              (handle_of example_state "bio") Hok Hsound eq_refl eq_refl)
    as (st1 & st2 & Hd & Hc & Hempty & _ & _ & Hnames).
  exists st1, st2. by repeat split.
Defined.
(** * The chunks are parts of the text *)

Section Parts.
Import Py RecursiveCharacterTextSplitter.

Lemma part_of_refl (s : string) : part_of s s.
Proof. exists "", "". by rewrite app_nil_r_s. Qed.

Lemma part_of_trans (t p c : string) : part_of t p -> part_of p c -> part_of t c.
Proof.
  intros (a & b & ->) (a' & b' & ->). exists (a +:+ a'), (b' +:+ b).
  by rewrite !app_assoc_s.
Qed.

Lemma lstrip_part (s : string) : exists a, s = a +:+ lstrip s.
Proof.
  induction s as [|c s [a IH]]; [by exists "" |]. cbn [lstrip].
  destruct (isspace c); [| by exists ""].
  exists (String c a). cbn. by rewrite <- IH.
Qed.

Lemma rstrip_part (s : string) : exists b, s = rstrip s +:+ b.
Proof.
  induction s as [|c s [b IH]]; [by exists "" |]. cbn [rstrip].
  destruct (rstrip s) as [|x r] eqn:E.
  - destruct (isspace c).
    + by exists (String c s).
    + exists b. cbn. cbn in IH. by rewrite <- IH.
  - exists b. cbn. cbn in IH. by rewrite <- IH.
Qed.

Lemma strip_part (s : string) : part_of s (strip s).
Proof.
  unfold strip. destruct (lstrip_part s) as [a Ha].
  destruct (rstrip_part (lstrip s)) as [b Hb].
  exists a, b. by rewrite <- Hb.
Qed.

Lemma glue_suffix_part (l k rest : list string) :
  suffix l k -> part_of (glue (k ++ rest)) (glue l).
Proof.
  intros [pre ->]. exists (glue pre), (glue rest). by rewrite !glue_app, app_assoc_s.
Qed.

Lemma join_docs_part (l : list string) (doc : string) :
  _join_docs l "" = Some doc -> doc <> "" /\ part_of (glue l) doc.
Proof.
  unfold _join_docs. rewrite join_empty.
  destruct (decide (strip (glue l) = "")); [done |].
  intros [= <-]. split; [done | apply strip_part].
Qed.

Lemma pop_front_suffix self sl _len (cur : list string) total cur' total' :
  pop_front self sl _len cur total = Ok (cur', total') -> suffix cur' cur.
Proof.
  revert total. induction cur as [|d0 rest IH]; intros total; cbn [pop_front].
  - destruct (_ || _); [done |]. by intros [= <- _].
  - destruct (_ || _).
    + intros H. apply suffix_cons_r. by eapply IH.
    + by intros [= <- _].
Qed.

Section MergeParts.
Variable self : t.
Variable all : list string.

#[local] Abbreviation is_part :=
  (fun doc : string => doc <> "" /\ part_of (glue all) doc).

Lemma merge_step_parts (done rest : list string) (d : string)
    (st st' : merge_state) :
  all = done ++ d :: rest ->
  suffix (current_doc st) done -> Forall is_part (docs st) ->
  merge_step self "" st d = Ok st' ->
  suffix (current_doc st') (done ++ [d]) /\ Forall is_part (docs st').
Proof.
  intros Hall Hcur Hdocs. unfold merge_step.
  assert (forall st1,
            suffix (current_doc st1) done -> Forall is_part (docs st1) ->
            suffix (current_doc st1 ++ [d]) (done ++ [d])
            /\ Forall is_part (docs st1)) as Hend.
  { intros st1 [pre Hpre] Hd1. split; [| done].
    exists pre. by rewrite Hpre, app_assoc. }
  destruct (_ <? _)%Z;
    [| cbn [res_bind]; intros [= <-]; cbn [docs current_doc]; by apply Hend].
  destruct (0 <? length (current_doc st))%nat;
    [| cbn [res_bind]; intros [= <-]; cbn [docs current_doc]; by apply Hend].
  destruct (pop_front _ _ _ _ _) as [[cur' total']|e] eqn:Hpop; [| done].
  cbn [res_bind fst snd]. intros [= <-]. cbn [docs current_doc].
  apply pop_front_suffix in Hpop.
  apply (Hend {| docs := _; current_doc := cur'; total := total' |});
    cbn [docs current_doc]; [by etrans |].
  destruct (_join_docs (current_doc st) "") as [doc|] eqn:Hjoin; [| done].
  apply Forall_app. split; [done |]. apply Forall_singleton.
  destruct (join_docs_part _ _ Hjoin) as [Hne Hpart]. split; [done |].
  eapply part_of_trans; [| exact Hpart]. rewrite Hall.
  by apply glue_suffix_part.
Qed.

Lemma merge_loop_parts (splits done : list string) (st st' : merge_state) :
  all = done ++ splits ->
  suffix (current_doc st) done -> Forall is_part (docs st) ->
  merge_loop self "" st splits = Ok st' ->
  suffix (current_doc st') all /\ Forall is_part (docs st').
Proof.
  revert done st. induction splits as [|d splits IH]; intros done st Hall Hcur Hdocs;
    cbn [merge_loop].
  - intros [= <-]. rewrite app_nil_r in Hall. by subst.
  - destruct (merge_step self "" st d) as [st1|e] eqn:Hstep; [| done].
    cbn [res_bind].
    destruct (merge_step_parts done splits d st st1 Hall Hcur Hdocs Hstep)
      as [Hcur1 Hdocs1].
    apply (IH (done ++ [d])); [by rewrite <- app_assoc | done | done].
Qed.

Lemma merge_splits_parts (chunks : list string) :
  _merge_splits self all "" = Ok chunks -> Forall is_part chunks.
Proof.
  unfold _merge_splits.
  destruct (merge_loop self "" _ all) as [st|e] eqn:Hloop; [| done].
  cbn [res_bind]. intros [= <-].
  destruct (merge_loop_parts all []
              {| docs := []; current_doc := []; total := 0 |} st eq_refl)
    as [Hcur Hdocs]; [apply suffix_nil | by apply Forall_nil | exact Hloop |].
  destruct (_join_docs (current_doc st) "") as [doc|] eqn:Hjoin; [| done].
  apply Forall_app. split; [done |]. apply Forall_singleton.
  destruct (join_docs_part _ _ Hjoin) as [Hne Hpart]. split; [done |].
  eapply part_of_trans; [| exact Hpart].
  rewrite <- (app_nil_r all) at 1. by apply glue_suffix_part.
Qed.

End MergeParts.

Section SplitParts.
Variable self : t.
Hypothesis overlap_nonneg : (0 <= chunk_overlap self)%Z.
Hypothesis size_nonneg : (0 <= chunk_size self)%Z.

#[local] Abbreviation small :=
  (fun piece : string => (len piece < chunk_size self)%Z).

Lemma chunk_ok_part (text p chunk : string) :
  part_of text p -> chunk_ok self p chunk -> chunk_ok self text chunk.
Proof.
  intros Hp (Hne & Hpart & Hsize). split; [done |]. split; [| done].
  by eapply part_of_trans.
Qed.

Lemma flush_parts (text : string) (rest : list string) (done : list string)
    (st : split_state) :
  Forall (chunk_ok self text) (final_chunks st) ->
  Forall small (_good_splits st) ->
  suffix (_good_splits st) done -> text = glue (done ++ rest) ->
  exists st',
    flush self st = Ok st' /\
    Forall (chunk_ok self text) (final_chunks st') /\ _good_splits st' = [].
Proof.
  intros Hfinal Hsmall Hsuf Htext. unfold flush.
  destruct (_good_splits st) as [|g gs] eqn:Hg; [by exists st |].
  destruct (merge_splits_bound self overlap_nonneg size_nonneg (g :: gs))
    as (merged & Hrun & Hfits).
  { eapply Forall_impl; [exact Hsmall |]. cbn. lia. }
  rewrite Hrun. cbn [res_bind]. eexists. split; [reflexivity |].
  cbn [final_chunks _good_splits]. split; [| done].
  apply Forall_app. split; [done |].
  pose proof (merge_splits_parts self (g :: gs) merged Hrun) as Hparts.
  apply Forall_forall. intros chunk Hin.
  destruct (proj1 (Forall_forall _ _) Hparts chunk Hin) as [Hne Hpart].
  split; [done |]. split.
  - eapply part_of_trans; [| exact Hpart]. rewrite Htext.
    by apply glue_suffix_part.
  - left. by apply (proj1 (Forall_forall _ _) Hfits).
Qed.

Lemma split_loop_parts (text : string) deeper (pieces done : list string)
    (st : split_state) :
  text = glue (done ++ pieces) ->
  Forall (chunk_ok self text) (final_chunks st) ->
  Forall small (_good_splits st) ->
  suffix (_good_splits st) done ->
  (forall p, p ∈ pieces -> (chunk_size self <= len p)%Z ->
     match deeper with
     | None => p <> "" /\ uncut p
     | Some rec =>
         exists chunks, rec p = Ok chunks /\ Forall (chunk_ok self p) chunks
     end) ->
  exists st',
    split_loop self deeper st pieces = Ok st' /\
    Forall (chunk_ok self text) (final_chunks st') /\
    Forall small (_good_splits st') /\
    suffix (_good_splits st') (done ++ pieces).
Proof.
  revert done st. induction pieces as [|p pieces IH];
    intros done st Htext Hfinal Hsmall Hsuf Hok.
  - exists st. rewrite app_nil_r. done.
  - cbn [split_loop].
    assert (text = glue ((done ++ [p]) ++ pieces)) as Htext'
      by (by rewrite <- app_assoc).
    assert (part_of text p) as Hpart.
    { rewrite Htext. rewrite glue_app, glue_cons. by exists (glue done), (glue pieces). }
    assert (forall q, q ∈ pieces -> (chunk_size self <= len q)%Z ->
              match deeper with
              | None => q <> "" /\ uncut q
              | Some rec =>
                  exists chunks, rec q = Ok chunks
                                 /\ Forall (chunk_ok self q) chunks
              end) as Hok'.
    { intros q Hq. apply Hok. by right. }
    replace (done ++ p :: pieces) with ((done ++ [p]) ++ pieces)
      by (by rewrite <- app_assoc).
    destruct (len p <? chunk_size self)%Z eqn:Hp; cbn [res_bind].
    + apply Z.ltb_lt in Hp. apply IH; cbn [final_chunks _good_splits]; try done.
      * apply Forall_app. split; [done | by apply Forall_singleton].
      * destruct Hsuf as [pre ->]. exists pre. by rewrite app_assoc.
    + apply Z.ltb_ge in Hp.
      destruct (flush_parts text (p :: pieces) done st Hfinal Hsmall Hsuf Htext)
        as (st1 & Hflush & Hfinal1 & Hgood1).
      rewrite Hflush. cbn [res_bind].
      pose proof (Hok p ltac:(by left) Hp) as Hpiece.
      destruct deeper as [rec|].
      * destruct Hpiece as (chunks & Hrec & Hchunks). rewrite Hrec.
        cbn [res_bind].
        apply IH; cbn [final_chunks _good_splits]; try done.
        -- apply Forall_app. split; [done |].
           eapply Forall_impl; [exact Hchunks |]. intros chunk.
           by apply chunk_ok_part.
        -- by rewrite Hgood1.
        -- rewrite Hgood1. apply suffix_nil.
      * destruct Hpiece as [Hne Hcut]. cbn [res_bind].
        apply IH; cbn [final_chunks _good_splits]; try done.
        -- apply Forall_app. split; [done |]. apply Forall_singleton.
           split; [done |]. split; [done | by right].
        -- by rewrite Hgood1.
        -- rewrite Hgood1. apply suffix_nil.
Qed.

Lemma split_with_parts sep deeper text :
  sep <> "" ->
  (forall p, p ∈ _split_text_with_regex text sep ->
     (chunk_size self <= len p)%Z ->
     match deeper with
     | None => p <> "" /\ uncut p
     | Some rec =>
         exists chunks, rec p = Ok chunks /\ Forall (chunk_ok self p) chunks
     end) ->
  exists chunks,
    split_with self sep deeper text = Ok chunks /\
    Forall (chunk_ok self text) chunks.
Proof.
  intros Hsep Hok. unfold split_with.
  pose proof (split_text_with_regex_glue text sep Hsep) as Hglue.
  destruct (split_loop_parts text deeper (_split_text_with_regex text sep) []
              {| final_chunks := []; _good_splits := [] |})
    as (st & Hrun & Hfinal & Hsmall & Hsuf);
    [by rewrite app_nil_l | done | done | done | exact Hok |].
  rewrite Hrun. cbn [res_bind]. rewrite app_nil_l in Hsuf.
  destruct (flush_parts text [] (_split_text_with_regex text sep) st
              Hfinal Hsmall Hsuf) as (st1 & Hflush & Hfinal1 & _).
  { by rewrite app_nil_r. }
  rewrite Hflush. cbn [res_bind]. by exists (final_chunks st1).
Qed.

(** With the blank for its last separator, [_split_text] returns, and what it
    returns are chunks of the text. *)
Lemma split_text_rec_parts (rest : list string) (s text : string) :
  Forall (fun sep => sep <> "") (s :: rest) ->
  last (s :: rest) = Some " " ->
  exists chunks,
    _split_text self s rest text = Ok chunks /\
    Forall (chunk_ok self text) chunks.
Proof.
  revert s text. induction rest as [|s' rest' IH]; intros s text Hseps Hlast.
  - cbn in Hlast. injection Hlast as ->.
    assert (exists chunks, split_with self " " None text = Ok chunks
                           /\ Forall (chunk_ok self text) chunks) as Hblank.
    { apply split_with_parts; [done |]. intros p Hp _. split.
      - by apply (proj1 (Forall_forall _ _)
                    (split_text_with_regex_nonempty text " ")).
      - by apply (split_at_blank_pieces text). }
    cbn [_split_text]. destruct (decide (" " = "")) as [E | _]; [discriminate E |].
    by destruct (search " " text).
  - apply Forall_cons in Hseps as [Hs Hseps].
    cbn [_split_text]. destruct (decide (s = "")) as [? | _]; [done |].
    destruct (search s text).
    + apply split_with_parts; [done |]. intros p Hp _. by apply IH.
    + by apply IH.
Qed.

End SplitParts.

Lemma config_split_text_parts (text : string) :
  exists chunks,
    split_text vectordb.splitter_config text = Ok chunks /\
    Forall (chunk_ok vectordb.splitter_config text) chunks.
Proof.
  apply (split_text_rec_parts vectordb.splitter_config
           ltac:(cbn; lia) ltac:(cbn; lia) [nl; "."; " "] (nl +:+ nl) text
           config_separators_nonempty eq_refl).
Qed.

Lemma split_documents_parts (documents : list Document) :
  exists chunks,
    split_documents vectordb.splitter_config documents = Ok chunks /\
    Forall (fun chunk =>
              exists page,
                page ∈ documents /\ metadata chunk = metadata page /\
                chunk_ok vectordb.splitter_config
                  (page_content page) (page_content chunk))
           chunks.
Proof.
  induction documents as [|doc documents (others & Hrun & Hothers)].
  - by exists [].
  - destruct (config_split_text_parts (page_content doc))
      as (chunks & Hsplit & Hchunks).
    cbn [split_documents]. unfold split_document. rewrite Hsplit.
    cbn [res_bind]. rewrite Hrun. cbn [res_bind]. eexists. split; [reflexivity |].
    apply Forall_app. split.
    + apply Forall_forall.
      intros chunk (text & -> & Hin)%list_elem_of_fmap. exists doc.
      split; [apply list_elem_of_here |]. split; [done |]. cbn [page_content].
      by apply (proj1 (Forall_forall _ _) Hchunks).
    + eapply Forall_impl; [exact Hothers |].
      intros chunk (page & Hin & Hmeta & Hok). exists page.
      split; [by apply list_elem_of_further | done].
Qed.

(** X14. With the splitter the constructor configures, [chunk_document]
    always returns, whatever the pages hold, and changes nothing. Every chunk
    carries the metadata of one of the pages, and its text is not empty and
    is a part of the text of that page, in one piece; it has 500 characters
    at most, unless it is a word the blank cannot cut, with or without the
    blank before it. *)
Theorem chunk_document_total (st : state) (document : list Document) :
  textsplitter (db st) = vectordb.splitter_config ->
  exists chunks,
    vectordb.chunk_document document st = Ok (chunks, st) /\
    Forall (fun chunk =>
              exists page,
                page ∈ document /\ metadata chunk = metadata page /\
                page_content chunk <> "" /\
                part_of (page_content page) (page_content chunk) /\
                (String.length (page_content chunk) <= 500 \/
                 uncut (page_content chunk)))
           chunks.
Proof.
  intros Hcfg. rewrite chunk_document_run, Hcfg.
  destruct (split_documents_parts document) as (chunks & -> & Hchunks).
  exists chunks. split; [done |].
  eapply Forall_impl; [exact Hchunks |].
  intros chunk (page & Hin & Hmeta & Hne & Hpart & Hsize). exists page.
  repeat split; try done.
  destruct Hsize as [Hsize | Hcut]; [left | by right].
  cbn in Hsize. unfold len in Hsize. lia.
Qed.

End Parts.

(** On the example: the page of one long word gives that word. *)
Lemma chunk_document_total_witness :
  textsplitter (db example_state) = vectordb.splitter_config /\
  exists chunks,
    vectordb.chunk_document [long_word_page] example_state
    = Ok (chunks, example_state) /\
    Forall (fun chunk =>
              exists page,
                page ∈ [long_word_page] /\ metadata chunk = metadata page /\
                page_content chunk <> "" /\
                part_of (page_content page) (page_content chunk) /\
                (String.length (page_content chunk) <= 500 \/
                 uncut (page_content chunk)))
           chunks.
Proof.
  split; [reflexivity |].
  apply (chunk_document_total example_state [long_word_page]). reflexivity.
Defined.
(** * Documents added to a session *)

Section AddFile.
Import Py RecursiveCharacterTextSplitter.
Context {svc : Services}.

Lemma chunk_document_chunks_of (st : state) (path : string) :
  textsplitter (db st) = vectordb.splitter_config ->
  vectordb.chunk_document (pdf_load path) st
  = Ok (chunks_of (textsplitter (db st)) path, st).
Proof.
  intros Hcfg. rewrite chunk_document_run. unfold chunks_of. rewrite Hcfg.
  by destruct (split_documents_parts (pdf_load path)) as (chunks & -> & _).
Qed.

Lemma add_file_loop_run collection (l : list string) (i : nat) (st : state)
    (old : list Document) :
  textsplitter (db st) = vectordb.splitter_config ->
  chroma_db st !! collection_name collection = Some old ->
  vectordb.add_file_loop collection i l st
  = Ok (tt, after_add_file i l (collection_name collection) old st).
Proof.
  revert i st old. induction l as [|path l IH]; intros i st old Hcfg Hold;
    cbn [vectordb.add_file_loop].
  - unfold ret, after_add_file. cbn [fmap list_fmap concat added_lines].
    do 2 f_equal. apply state_eq; cbn [db sessions_txt chroma_db trace]; try done.
    + rewrite app_nil_r. symmetry. by apply insert_id.
    + by rewrite app_nil_r.
  - unfold bind at 1. rewrite chunk_document_chunks_of by done.
    unfold bind at 1, vectordb.add_documents, bind at 1, get_state, set_chroma_db.
    unfold bind at 1, print, emit.
    rewrite Hold. cbn [default app db sessions_txt chroma_db trace].
    erewrite IH; [| done | cbn [chroma_db]; apply lookup_insert_eq].
    do 2 f_equal. unfold after_add_file.
    apply state_eq; cbn [db sessions_txt chroma_db trace fmap list_fmap concat
                           added_lines]; try done.
    + by rewrite insert_insert_eq, <- app_assoc.
    + by rewrite <- app_assoc.
Qed.

Lemma add_file_run (st : state) (d : dict Chroma) (l : list string)
    (name : string) (collection : Chroma) (old : list Document) :
  collections (db st) = Some d ->
  textsplitter (db st) = vectordb.splitter_config ->
  dict_get name d = Some collection ->
  chroma_db st !! collection_name collection = Some old ->
  vectordb.add_file l name st
  = Ok (tt, after_add_file 0 l (collection_name collection) old st).
Proof.
  intros Hd Hcfg Hg Hold. unfold vectordb.add_file, bind.
  rewrite (collections_getitem_spec st d), Hg by done.
  by apply add_file_loop_run.
Qed.


Lemma collect_documents_run (paths : list string) (done_line : string)
    (rest acc : list string) (st : state) :
  Forall (fun p => lower p <> "done") paths ->
  lower done_line = "done" ->
  functions.collect_documents acc (paths ++ done_line :: rest) st
  = Ok ((acc ++ paths, rest), with_trace st (bucket_lines paths)).
Proof.
  intros Hpaths Hdone. revert acc st.
  induction Hpaths as [|p paths Hp _ IH]; intros acc st;
    cbn [app functions.collect_documents].
  - rewrite decide_True by done. unfold ret.
    by rewrite app_nil_r, with_trace_nil.
  - rewrite decide_False by done. unfold bind, print, emit.
    rewrite IH, <- app_assoc. do 2 f_equal.
    apply state_eq; cbn; try done. by rewrite <- app_assoc.
Qed.

(** X16. [add_documents] of the shell lists the sessions, asks for a session
    until a line is the name of one, and takes every line after it for a
    path, as typed, up to the first line that is [done] in any mix of upper
    and lower case. It then adds the documents at these paths to the session
    as [add_file] does, reports, and clears the screen, leaving the lines
    after [done] unread. As it asks until the name exists, the [KeyError] of
    [add_file] cannot happen. *)
Theorem shell_add_documents_spec (st : state) (d : dict Chroma)
    (missing : list string) (name : string) (collection : Chroma)
    (old : list Document) (paths : list string) (done_line : string)
    (rest : list string) :
  collections (db st) = Some d ->
  textsplitter (db st) = vectordb.splitter_config ->
  Forall (fun line => dict_mem line d = false) missing ->
  dict_get name d = Some collection ->
  chroma_db st !! collection_name collection = Some old ->
  Forall (fun p => lower p <> "done") paths ->
  lower done_line = "done" ->
  functions.add_documents (missing ++ name :: paths ++ done_line :: rest) st
  = Ok (rest,
        with_trace
          (after_add_file 0 paths (collection_name collection) old
             (with_trace st
                (listing d ++ refusals missing ++ bucket_lines paths
                 ++ [Print "Adding Documents in the session."])))
          [Print ("All documents added to the " +:+ name +:+ " session.");
           Sleep 2; ClearScreen]).
Proof.
  intros Hd Hcfg Hmiss Hg Hold Hpaths Hdone.
  unfold functions.add_documents. unfold bind at 1.
  rewrite (list_sessions_run st d) by done.
  assert (collections (db (with_trace st (listing d))) = Some d) as Hd1 by done.
  destruct (ask_session_run (with_trace st (listing d)) d missing Hd1 Hmiss)
    as [Hfound _].
  unfold bind at 1. rewrite Hfound by by eapply dict_get_Some_mem.
  cbn [fst snd]. unfold bind at 1.
  rewrite collect_documents_run by done. cbn [fst snd app].
  unfold bind at 1, print at 1, emit at 1. unfold bind at 1.
  match goal with
  | |- context [vectordb.add_file paths name ?s] =>
      rewrite (add_file_run s d paths name collection old) by done
  end.
  unfold bind at 1, print, emit. unfold bind. rewrite clear_screen_run.
  unfold ret. do 2 f_equal.
  apply state_eq; cbn [with_trace after_add_file db sessions_txt chroma_db trace];
    try done.
  rewrite <- !app_assoc. reflexivity.
Qed.

End AddFile.


(** On the example: a name that does not exist, then [bio], two paths and
    [Done]. *)
Lemma shell_add_documents_spec_witness :
  functions.add_documents (svc := cautious_services)
    (["chem"] ++ "bio" :: ["a.pdf"; "done "] ++ "Done" :: ["6"]) stocked_state
  = Ok (["6"],
        with_trace
          (after_add_file (svc := cautious_services) 0 ["a.pdf"; "done "]
             "bio" example_chunks
             (with_trace stocked_state
                (listing [("bio", handle_of example_state "bio")]
                 ++ refusals ["chem"] ++ bucket_lines ["a.pdf"; "done "]
                 ++ [Print "Adding Documents in the session."])))
          [Print "All documents added to the bio session.";
           Sleep 2; ClearScreen]).
Proof.
  apply (shell_add_documents_spec (svc := cautious_services) stocked_state
           [("bio", handle_of example_state "bio")] ["chem"] "bio"
           (handle_of example_state "bio") example_chunks ["a.pdf"; "done "]
           "Done" ["6"]); try reflexivity.
  - by repeat constructor.
  - by repeat constructor.
Defined.
(** * The registry file rewritten, and the sessions loaded again *)

Section RegistryRewritten.
Import Py.



Lemma dict_set_id {V : Type} (k : string) (v : V) (d : dict V) :
  dict_get k d = Some v -> dict_set k v d = d.
Proof.
  induction d as [|[k0 v0] d IH]; cbn [dict_get dict_set]; [done |].
  destruct (decide (k0 = k)) as [-> | Hne].
  - by intros [= ->].
  - intros H. by rewrite IH.
Qed.

Lemma loaded_dict_id dir (names : list string) (d : dict Chroma) :
  (forall name,
     name ∈ names ->
     dict_get name d
     = Some {| collection_name := name; handle_persist_directory := dir |}) ->
  loaded_dict dir names d = d.
Proof.
  induction names as [|n names IH]; intros Hall; [done |].
  rewrite loaded_dict_cons, dict_set_id by apply Hall, list_elem_of_here.
  apply IH. intros name Hin. apply Hall. by apply list_elem_of_further.
Qed.

Lemma vectordb_obj_eq (o o' : vectordb_obj) :
  embedding_model_name o = embedding_model_name o' ->
  persist_directory o = persist_directory o' ->
  collections o = collections o' ->
  textsplitter o = textsplitter o' -> o = o'.
Proof. destruct o, o'; cbn; by intros -> -> -> ->. Qed.

(** X18. Loading the sessions again changes nothing: when the registry file
    and the dictionary agree and the sessions are sound, as the constructor
    and the menu leave them, [load_all_sessions] returns with the object, the
    file and the store as they are, and prints nothing. *)
Theorem load_all_sessions_again (st : state) :
  registry_ok st -> sessions_sound st ->
  vectordb.load_all_sessions st = Ok (tt, st).
Proof.
  intros (d & Hd & Hsets & _) (d0 & Hd0 & _ & Hall).
  rewrite Hd in Hd0. injection Hd0 as <-.
  unfold vectordb.load_all_sessions, bind at 1, get_state.
  destruct (sessions_txt st) as [raw|] eqn:Hfile; [| done].
  destruct (load_loop_spec (persist_directory (db st))
              (vectordb.session_names raw) st d Hd)
    as (st' & -> & Hd' & Hstore & Htxt & Htr & Hdir & Hmodel & Hsplit).
  assert (forall name,
            name ∈ vectordb.session_names raw ->
            exists collection, dict_get name d = Some collection) as Hkeys.
  { intros name Hin.
    assert (name ∈ dict_keys d) as Hkey.
    { apply (registry_key_iff st); [done |]. by rewrite Hfile. }
    apply dict_mem_keys in Hkey. rewrite dict_get_mem in Hkey.
    by apply bool_decide_eq_true in Hkey. }
  do 2 f_equal. apply state_eq; try done.
  - apply vectordb_obj_eq; try done. rewrite Hd', Hd. f_equal.
    apply loaded_dict_id. intros name Hin.
    destruct (Hkeys name Hin) as [collection Hg].
    by destruct (Hall name collection Hg) as [-> _].
  - rewrite Hstore. apply loaded_store_id. intros name Hin.
    destruct (Hkeys name Hin) as [collection Hg].
    by destruct (Hall name collection Hg) as [_ ?].
Qed.

Lemma session_lines_app i (l k : list string) :
  session_lines i (l ++ k) = session_lines i l ++ session_lines (i + length l) k.
Proof.
  revert i. induction l as [|x l IH]; intros i; cbn [app session_lines length].
  - by rewrite Nat.add_0_r.
  - rewrite IH. do 3 f_equal. lia.
Qed.

Lemma dict_keys_app {V : Type} (d d' : dict V) :
  dict_keys (d ++ d') = dict_keys d ++ dict_keys d'.
Proof. unfold dict_keys. apply fmap_app. Qed.

Lemma dict_keys_length {V : Type} (d : dict V) : length (dict_keys d) = length d.
Proof. unfold dict_keys. apply length_fmap. Qed.

(** X19. A session just created is listed last, under the next number: after
    [create_session] of a new name, [list_session] prints the header, the
    lines of the sessions there were, numbered from 1 in the order of their
    creation, one line for the new session with the number of sessions for
    its number, and the footer. *)
Theorem list_after_create (st : state) (d : dict Chroma) (name : string) :
  collections (db st) = Some d ->
  dict_mem name d = false ->
  exists st1,
    vectordb.create_session name st = Ok (true, st1) /\
    vectordb.list_session st1
    = Ok (tt,
          with_trace st1
            ([Print "List of all Session Names";
              Print "-------------------------"]
             ++ session_lines 0 (dict_keys d)
             ++ [Print ("Session no " +:+ pretty (length d + 1) +:+ ": " +:+ name);
                 Print "-------------------------"])).
Proof.
  intros Hd Hmem. exists (after_create name d st).
  split; [by apply create_session_run |].
  rewrite (list_session_dict _ (dict_set name (handle_of st name) d)) by done.
  rewrite dict_set_fresh by done.
  rewrite dict_keys_app, session_lines_app, dict_keys_length.
  cbn [dict_keys fmap list_fmap fst session_lines Nat.add].
  by rewrite <- !app_assoc.
Qed.

End RegistryRewritten.

(** On the example: the one session is loaded again. *)
Lemma load_all_sessions_again_witness :
  registry_ok example_state /\ sessions_sound example_state /\
  vectordb.load_all_sessions example_state = Ok (tt, example_state).
Proof.
  assert (registry_ok example_state) as Hok.
  { exists [("bio", handle_of example_state "bio")]. by repeat split. }
  assert (sessions_sound example_state) as Hsound.
  { exists [("bio", handle_of example_state "bio")].
    split; [done |]. split; [apply NoDup_singleton |].
    intros name collection. cbn [Py.dict_get].
    destruct (decide ("bio" = name)) as [<- | _]; [| done].
    intros [= <-]. split; [done |]. by eexists. }
  split; [exact Hok |]. split; [exact Hsound |].
  exact (load_all_sessions_again example_state Hok Hsound).
Defined.

(** On the example: [chem] is created and listed second. *)
Lemma list_after_create_witness :
  exists st1,
    vectordb.create_session "chem" example_state = Ok (true, st1) /\
    vectordb.list_session st1
    = Ok (tt,
          with_trace st1
            [Print "List of all Session Names";
             Print "-------------------------";
             Print "Session no 1: bio";
             Print "Session no 2: chem";
             Print "-------------------------"]).
Proof.
  exact (list_after_create example_state
           [("bio", handle_of example_state "bio")] "chem" eq_refl eq_refl).
Defined.
